(** * Path resolution and file-operation dispatch (sentry syscalls, package linux)

    A shallow embedding of the directory-relative resolver [fileOpOn], the
    parent+name resolver [fileOpAt], the open / create-or-open engine
    ([openAt], [createAt]), [accessAt], [chown], [Truncate] and [Fallocate]
    of the syscall layer, over an explicit kernel state.

    The syscall layer only dispatches: the naming graph, the inodes, the
    descriptor table and the credentials live in other packages.  They are
    taken here as a record of operations ([Backend]) over an abstract world;
    the reference counts, the pending signals and the order of the calls made
    to the collaborators are kept in the kernel state, so that the properties
    of the dispatch layer can be stated on them. *)

From Stdlib Require Import ZArith List String Ascii Bool Lia.
From stdpp Require Import base option list gmap.
Import ListNotations.
Local Open Scope Z_scope.

(** ** Error numbers *)

Inductive Errno :=
| EPERM | ENOENT | EINTR | EBADF | EACCES | EFAULT | EEXIST | ENODEV
| ENOTDIR | EISDIR | EINVAL | EMFILE | EFBIG | ESPIPE | ELOOP
| ENOTSUP | EOPNOTSUPP | ENOLINK | ENAMETOOLONG
| ERESTARTSYS
| ErrResolveViaReadlink   (* fs.ErrResolveViaReadlink *)
| ErrInterrupted          (* syserror.ErrInterrupted *)
| ErrFuel.                (* not a value of the program: the model of a loop
                             reached its bound on the number of turns *)

#[global] Instance Errno_eq_dec : EqDecision Errno.
Proof. solve_decision. Defined.

(** A Go [error]: [None] is [nil]. *)
Definition error := option Errno.

(** ** Machine integers

    [uint] and [uint64] values are kept in [0, 2^64), [int64] values in
    [-2^63, 2^63); the two wraps are the conversions of Go. *)

Definition wrap_uint64 (z : Z) : Z := z mod 2 ^ 64.

(** Conversion of a two's complement 64-bit pattern to int64. *)
Definition wrap_int64 (z : Z) : Z := (z + 2 ^ 63) mod 2 ^ 64 - 2 ^ 63.

Arguments wrap_uint64 : simpl never.
Arguments wrap_int64 : simpl never.


(** ** Constants of the Linux ABI used by the layer

    Package abi/linux is not among the sources; the values are those of
    Linux on amd64.  The properties below depend on them only through
    [has_flag] and the comparison of a descriptor with [AT_FDCWD]. *)

Definition AT_FDCWD : Z := -100.
Definition O_ACCMODE : Z := 3.
Definition O_CREAT : Z := 64.        (* 0o100 *)
Definition O_EXCL : Z := 128.        (* 0o200 *)
Definition O_TRUNC : Z := 512.       (* 0o1000 *)
Definition O_NOFOLLOW : Z := 131072. (* 0o400000 *)
Definition O_CLOEXEC : Z := 524288.  (* 0o2000000 *)
Definition CAP_CHOWN : Z := 0.
Definition SIGXFSZ : Z := 25.
Definition SI_USER : Z := 0.
Definition IN_OPEN : Z := 32.
Definition IN_MODIFY : Z := 2.

(** Modelled from the spec: the traversal budget "starts at a fixed maximum,
    e.g. 40" (linux.MaxSymlinkTraversals, not among the sources). *)
Definition MaxSymlinkTraversals : Z := 40.

Definition has_flag (flags bit : Z) : bool := negb (Z.land flags bit =? 0).

(** ** Nodes of the naming graph *)

Definition Dirent := nat.

(** Modelled from the spec: the stable type of an inode, "regular / directory
    / symlink / fifo / socket / device" (fs.StableAttr, not among the
    sources), with the type tests the call sites use. *)
Inductive InodeType :=
| RegularFile | SpecialFile | Directory | SpecialDirectory | Symlink
| Pipe | Socket | CharacterDevice | BlockDevice.

Definition IsDir (t : InodeType) : bool :=
  match t with Directory | SpecialDirectory => true | _ => false end.
Definition IsSymlink (t : InodeType) : bool :=
  match t with Symlink => true | _ => false end.
Definition IsRegular (t : InodeType) : bool :=
  match t with RegularFile => true | _ => false end.
Definition IsFile (t : InodeType) : bool :=
  match t with RegularFile | SpecialFile => true | _ => false end.
Definition IsPipe (t : InodeType) : bool :=
  match t with Pipe => true | _ => false end.

Record PermMask := { pm_Read : bool; pm_Write : bool; pm_Execute : bool }.

Record FileFlags := {
  ff_Read : bool; ff_Write : bool; ff_Directory : bool;
  ff_LargeFile : bool; ff_Truncate : bool; ff_Append : bool;
  ff_NonBlocking : bool }.

Definition set_LargeFile (f : FileFlags) : FileFlags :=
  {| ff_Read := ff_Read f; ff_Write := ff_Write f;
     ff_Directory := ff_Directory f; ff_LargeFile := true;
     ff_Truncate := ff_Truncate f; ff_Append := ff_Append f;
     ff_NonBlocking := ff_NonBlocking f |}.

(** An open file description: its identity, the dirent it was opened on and
    its flags. *)
Record File := { f_id : nat; f_dirent : Dirent; f_flags : FileFlags }.

Record FDFlags := { CloseOnExec : bool }.

(** Permission bits of an inode (fs.FilePermissions), as the mode word. *)
Definition FilePermissions := Z.

(** The setuid and setgid bits of the mode word. *)
Definition ModeSetUID : Z := 2048.   (* 0o4000, bit 11 *)
Definition ModeSetGID : Z := 1024.   (* 0o2000, bit 10 *)

(** fs.FilePermissions.HasSetUIDOrGID and DropSetUIDAndMaybeGID, which chown
    calls, are not among the sources.  On the mode word: the first tells
    whether the setuid or the setgid bit is set; the second, as its name
    says, drops the setuid bit always and the setgid bit only when the group
    may execute (bit 3, 0o0010): a setgid bit without group execution is
    kept, as Linux does on chown. *)
Definition HasSetUIDOrGID (p : FilePermissions) : bool :=
  Z.testbit p 11 || Z.testbit p 10.
Definition DropSetUIDAndMaybeGID (p : FilePermissions) : FilePermissions :=
  let p := Z.ldiff p ModeSetUID in
  if Z.testbit p 3 then Z.ldiff p ModeSetGID else p.

Arguments HasSetUIDOrGID : simpl never.
Arguments DropSetUIDAndMaybeGID : simpl never.

(** auth.NoID, the uint32 pattern of -1 ("uid and gid may be -1, in which
    case they will not be changed"), and the test [Ok] of an id. *)
Definition NoID : Z := 4294967295.
Definition id_Ok (i : Z) : bool := negb (i =? NoID).

Record FileOwner := { o_UID : Z; o_GID : Z }.

Record UnstableAttr := { ua_Owner_UID : Z; ua_Owner_GID : Z;
                         ua_Perms : FilePermissions; ua_Size : Z }.

(** ** Credentials *)

Record Credentials := {
  RealKUID : Z; EffectiveKUID : Z; SavedKUID : Z;
  RealKGID : Z; EffectiveKGID : Z; SavedKGID : Z;
  PermittedCaps : Z; EffectiveCaps : Z;
  UserNamespace : nat }.

Definition RootUID : Z := 0.

Definition set_EffectiveKUID (c : Credentials) (v : Z) : Credentials :=
  {| RealKUID := RealKUID c; EffectiveKUID := v; SavedKUID := SavedKUID c;
     RealKGID := RealKGID c; EffectiveKGID := EffectiveKGID c;
     SavedKGID := SavedKGID c; PermittedCaps := PermittedCaps c;
     EffectiveCaps := EffectiveCaps c; UserNamespace := UserNamespace c |}.
Definition set_EffectiveKGID (c : Credentials) (v : Z) : Credentials :=
  {| RealKUID := RealKUID c; EffectiveKUID := EffectiveKUID c;
     SavedKUID := SavedKUID c;
     RealKGID := RealKGID c; EffectiveKGID := v;
     SavedKGID := SavedKGID c; PermittedCaps := PermittedCaps c;
     EffectiveCaps := EffectiveCaps c; UserNamespace := UserNamespace c |}.
Definition set_EffectiveCaps (c : Credentials) (v : Z) : Credentials :=
  {| RealKUID := RealKUID c; EffectiveKUID := EffectiveKUID c;
     SavedKUID := SavedKUID c;
     RealKGID := RealKGID c; EffectiveKGID := EffectiveKGID c;
     SavedKGID := SavedKGID c; PermittedCaps := PermittedCaps c;
     EffectiveCaps := v; UserNamespace := UserNamespace c |}.

Definition dummy_creds : Credentials :=
  {| RealKUID := 0; EffectiveKUID := 0; SavedKUID := 0;
     RealKGID := 0; EffectiveKGID := 0; SavedKGID := 0;
     PermittedCaps := 0; EffectiveCaps := 0; UserNamespace := 0%nat |}.

Record SignalInfo := { Signo : Z; Code : Z }.

(** ** Calls made to the collaborators, in order *)

Inductive Event :=
| EvAcquire (d : Dirent)            (* a reference on [d] was handed out *)
| EvRelease (d : Dirent)            (* d.DecRef *)
| EvAcquireFile (f : nat)
| EvReleaseFile (f : nat)           (* f.DecRef *)
| EvCopyInString (addr : Z)
| EvFindInode (root : Dirent) (rel : option Dirent) (path : string) (rem : Z)
| EvFindLink (root : Dirent) (rel : option Dirent) (path : string) (rem : Z)
| EvCheckPermission (c : Credentials) (d : Dirent) (p : PermMask)
| EvGetFile (d : Dirent) (flags : FileFlags)
| EvTruncate (d : Dirent) (len : Z)
| EvAllocate (d : Dirent) (off len : Z)
| EvCreate (parent : Dirent) (name : string) (flags : FileFlags)
           (perms : FilePermissions)
| EvGetlink (d : Dirent)
| EvReadlink (d : Dirent)
| EvSetOwner (d : Dirent) (o : FileOwner)
| EvSetPermissions (d : Dirent) (p : FilePermissions)
| EvNewFD (fd : Z) (f : nat)
| EvInotify (d : Dirent) (ev : Z)
| EvUnimplemented.

(** ** The collaborators

    Everything the layer calls but does not implement: path helpers of
    package fs, flag conversions, the mount namespace, the inode operations,
    the user namespace.  [World] is the state they own (naming graph, inode
    attributes, task memory). *)

Record Backend (World : Type) := {
  SplitLast : string -> string * string;
  TrimTrailingSlashes : string -> string * bool;
  ConvertIntr : Errno -> Errno -> Errno;       (* syserror.ConvertIntr *)
  flagsToPermissions : Z -> PermMask;
  linuxToFlags : Z -> FileFlags;
  FilePermsFromMode : Z -> FilePermissions;
  MapToKUID : nat -> Z -> Z;
  MapToKGID : nat -> Z -> Z;
  KUID_In : nat -> Z -> Z;
  InGroup : Credentials -> Z -> bool;
  b_CopyInString : World -> Z -> string + Errno;
  b_FindInode : World -> Dirent -> option Dirent -> string -> Z ->
                (Dirent + Errno) * Z;
  b_FindLink : World -> Dirent -> option Dirent -> string -> Z ->
               (Dirent + Errno) * Z;
  b_StableAttr : World -> Dirent -> InodeType;
  b_UnstableAttr : World -> Dirent -> UnstableAttr + Errno;
  b_CheckPermission : World -> Credentials -> Dirent -> PermMask -> error;
  b_CheckCapability : World -> Credentials -> Dirent -> Z -> bool;
  b_GetFile : World -> Dirent -> FileFlags -> (File + Errno) * World;
  b_Truncate : World -> Dirent -> Z -> error * World;
  b_Allocate : World -> Dirent -> Z -> Z -> error * World;
  b_Create : World -> Dirent -> Dirent -> string -> FileFlags ->
             FilePermissions -> (File + Errno) * World;
  b_Getlink : World -> Dirent -> Dirent + Errno;
  b_Readlink : World -> Dirent -> string + Errno;
  b_SetOwner : World -> Dirent -> FileOwner -> error * World;
  b_SetPermissions : World -> Dirent -> FilePermissions -> bool * World }.

Arguments SplitLast {World} _ _.
Arguments TrimTrailingSlashes {World} _ _.
Arguments ConvertIntr {World} _ _ _.
Arguments flagsToPermissions {World} _ _.
Arguments linuxToFlags {World} _ _.
Arguments FilePermsFromMode {World} _ _.
Arguments MapToKUID {World} _ _ _.
Arguments MapToKGID {World} _ _ _.
Arguments KUID_In {World} _ _ _.
Arguments InGroup {World} _ _ _.
Arguments b_CopyInString {World} _ _ _.
Arguments b_FindInode {World} _ _ _ _ _ _.
Arguments b_FindLink {World} _ _ _ _ _ _.
Arguments b_StableAttr {World} _ _ _.
Arguments b_UnstableAttr {World} _ _ _.
Arguments b_CheckPermission {World} _ _ _ _ _.
Arguments b_CheckCapability {World} _ _ _ _ _.
Arguments b_GetFile {World} _ _ _ _.
Arguments b_Truncate {World} _ _ _ _.
Arguments b_Allocate {World} _ _ _ _ _.
Arguments b_Create {World} _ _ _ _ _ _ _.
Arguments b_Getlink {World} _ _ _.
Arguments b_Readlink {World} _ _ _.
Arguments b_SetOwner {World} _ _ _ _.
Arguments b_SetPermissions {World} _ _ _ _.

(** ** The kernel state seen by one task *)

Record Kernel (World : Type) := mkKernel {
  k_world : World;                  (* state of the collaborators *)
  k_root : Dirent;                  (* FSContext: root directory *)
  k_wd : Dirent;                    (* FSContext: working directory *)
  k_umask : Z;
  k_fdt : gmap Z (File * FDFlags);  (* descriptor table *)
  k_fdlimit : nat;                  (* size of the descriptor table *)
  k_drefs : Dirent -> Z;            (* reference count of each dirent *)
  k_frefs : nat -> Z;               (* reference count of each file *)
  k_credheap : list Credentials;    (* credential objects, by address *)
  k_creds : nat;                    (* the task's credentials pointer *)
  k_fsize_cur : Z;                  (* limits.FileSize, current value *)
  k_signals : list SignalInfo;      (* signals sent to the task *)
  k_frame : Z;                      (* the result variable of the running
                                       syscall, written by its closure *)
  k_log : list Event }.             (* calls made, oldest first *)

Arguments mkKernel {World}.
Arguments k_world {World}.
Arguments k_root {World}.
Arguments k_wd {World}.
Arguments k_umask {World}.
Arguments k_fdt {World}.
Arguments k_fdlimit {World}.
Arguments k_drefs {World}.
Arguments k_frefs {World}.
Arguments k_credheap {World}.
Arguments k_creds {World}.
Arguments k_fsize_cur {World}.
Arguments k_signals {World}.
Arguments k_frame {World}.
Arguments k_log {World}.

Section Setters.
Context {World : Type}.
Implicit Type s : Kernel World.

Definition set_world s v :=
  @mkKernel World v (k_root s) (k_wd s) (k_umask s) (k_fdt s) (k_fdlimit s) (k_drefs s) (k_frefs s) (k_credheap s) (k_creds s) (k_fsize_cur s) (k_signals s) (k_frame s) (k_log s).
Definition set_fdt s v :=
  @mkKernel World (k_world s) (k_root s) (k_wd s) (k_umask s) v (k_fdlimit s) (k_drefs s) (k_frefs s) (k_credheap s) (k_creds s) (k_fsize_cur s) (k_signals s) (k_frame s) (k_log s).
Definition set_drefs s v :=
  @mkKernel World (k_world s) (k_root s) (k_wd s) (k_umask s) (k_fdt s) (k_fdlimit s) v (k_frefs s) (k_credheap s) (k_creds s) (k_fsize_cur s) (k_signals s) (k_frame s) (k_log s).
Definition set_frefs s v :=
  @mkKernel World (k_world s) (k_root s) (k_wd s) (k_umask s) (k_fdt s) (k_fdlimit s) (k_drefs s) v (k_credheap s) (k_creds s) (k_fsize_cur s) (k_signals s) (k_frame s) (k_log s).
Definition set_credheap s v :=
  @mkKernel World (k_world s) (k_root s) (k_wd s) (k_umask s) (k_fdt s) (k_fdlimit s) (k_drefs s) (k_frefs s) v (k_creds s) (k_fsize_cur s) (k_signals s) (k_frame s) (k_log s).
Definition set_signals s v :=
  @mkKernel World (k_world s) (k_root s) (k_wd s) (k_umask s) (k_fdt s) (k_fdlimit s) (k_drefs s) (k_frefs s) (k_credheap s) (k_creds s) (k_fsize_cur s) v (k_frame s) (k_log s).
Definition set_frame s v :=
  @mkKernel World (k_world s) (k_root s) (k_wd s) (k_umask s) (k_fdt s) (k_fdlimit s) (k_drefs s) (k_frefs s) (k_credheap s) (k_creds s) (k_fsize_cur s) (k_signals s) v (k_log s).
Definition set_log s v :=
  @mkKernel World (k_world s) (k_root s) (k_wd s) (k_umask s) (k_fdt s) (k_fdlimit s) (k_drefs s) (k_frefs s) (k_credheap s) (k_creds s) (k_fsize_cur s) (k_signals s) (k_frame s) v.
End Setters.

(** Point update of a reference-count table. *)
Definition bump {A} `{EqDecision A} (x : A) (delta : Z) (r : A -> Z) : A -> Z :=
  fun y => if decide (x = y) then r y + delta else r y.

(** ** State passing *)

Definition M (World A : Type) : Type := Kernel World -> A * Kernel World.

Definition ret {World A} (a : A) : M World A := fun s => (a, s).
Definition bind {World A C} (m : M World A) (k : A -> M World C) : M World C :=
  fun s => let (a, s') := m s in k a s'.

Notation "x <- c1 ;; c2" := (bind c1 (fun x => c2))
  (at level 100, c1 at next level, right associativity).
Notation "c1 ;; c2" := (bind c1 (fun _ => c2))
  (at level 100, right associativity).

(** Which credentials a context carries.  [accessContext.Value] answers the
    key auth.CtxCredentials with its own [creds] and passes every other key
    to the embedded context, here the task. *)
Inductive Context := CtxTask | CtxAccess (creds : nat).

Definition is_absolute (path : string) : bool :=
  match path with
  | String c _ => if Ascii.eqb c "/"%char then true else false
  | EmptyString => false
  end.

Section Layer.
Context {World : Type} (B : Backend World).

Local Abbreviation K := (Kernel World).
Local Abbreviation M := (M World).

(** *** Primitives: one per call into a collaborator *)

Definition emit (ev : Event) : M unit :=
  fun s => (tt, set_log s (k_log s ++ [ev])).

Definition get {A} (f : K -> A) : M A := fun s => (f s, s).

(** Modelled from the spec: "reference counts are the only state the core
    itself mutates directly"; IncRef / DecRef of fs.Dirent and fs.File
    (not among the sources) add and remove one reference. *)
Definition IncRef (d : Dirent) : M unit :=
  fun s => (tt, set_log (set_drefs s (bump d 1 (k_drefs s)))
                        (k_log s ++ [EvAcquire d])).
Definition DecRef (d : Dirent) : M unit :=
  fun s => (tt, set_log (set_drefs s (bump d (-1) (k_drefs s)))
                        (k_log s ++ [EvRelease d])).
Definition IncRefFile (f : File) : M unit :=
  fun s => (tt, set_log (set_frefs s (bump (f_id f) 1 (k_frefs s)))
                        (k_log s ++ [EvAcquireFile (f_id f)])).
Definition DecRefFile (f : File) : M unit :=
  fun s => (tt, set_log (set_frefs s (bump (f_id f) (-1) (k_frefs s)))
                        (k_log s ++ [EvReleaseFile (f_id f)])).

(** t.FSContext().RootDirectory() and WorkingDirectory(): the directory,
    with a reference taken for the caller. *)
Definition RootDirectory : M Dirent :=
  root <- get k_root ;; IncRef root ;; ret root.
Definition WorkingDirectory : M Dirent :=
  wd <- get k_wd ;; IncRef wd ;; ret wd.
Definition Umask : M Z := get k_umask.

(** t.GetFile(fd): the file behind a descriptor, with a reference taken,
    or nil. *)
Definition GetFile (fd : Z) : M (option File) :=
  t <- get k_fdt ;;
  match t !! fd with
  | Some (f, _) => IncRefFile f ;; ret (Some f)
  | None => ret None
  end.

(** Modelled from the spec: the descriptor table's "install with lowest
    free number at or above hint" (kernel.Task.NewFDFrom, not among the
    sources); the table takes its own reference on the file. *)
Definition lowest_free (t : gmap Z (File * FDFlags)) (from : Z) (limit : nat)
  : option Z :=
  List.find (fun fd => (from <=? fd) && negb (bool_decide (is_Some (t !! fd))))
            (List.map Z.of_nat (List.seq 0 limit)).
Definition NewFDFrom (from : Z) (f : File) (fl : FDFlags) : M (Z + Errno) :=
  t <- get k_fdt ;;
  limit <- get k_fdlimit ;;
  match lowest_free t from limit with
  | Some fd =>
      IncRefFile f ;;
      (fun s => (tt, set_fdt s (<[fd := (f, fl)]> (k_fdt s)))) ;;
      emit (EvNewFD fd (f_id f)) ;;
      ret (inl fd)
  | None => ret (inr EMFILE)
  end.

Definition CopyInString (addr : Z) : M (string + Errno) :=
  emit (EvCopyInString addr) ;;
  w <- get k_world ;; ret (b_CopyInString B w addr).

(** The mount namespace: both lookups take the budget by pointer and hand
    the node back with a reference. *)
Definition FindInode (root : Dirent) (rel : option Dirent) (path : string)
    (rem : Z) : M ((Dirent + Errno) * Z) :=
  emit (EvFindInode root rel path rem) ;;
  w <- get k_world ;;
  let r := b_FindInode B w root rel path rem in
  match fst r with
  | inl d => IncRef d ;; ret r
  | inr _ => ret r
  end.
Definition FindLink (root : Dirent) (rel : option Dirent) (path : string)
    (rem : Z) : M ((Dirent + Errno) * Z) :=
  emit (EvFindLink root rel path rem) ;;
  w <- get k_world ;;
  let r := b_FindLink B w root rel path rem in
  match fst r with
  | inl d => IncRef d ;; ret r
  | inr _ => ret r
  end.

Definition StableAttr (d : Dirent) : M InodeType :=
  w <- get k_world ;; ret (b_StableAttr B w d).

Definition Credentials_at (s : K) (p : nat) : Credentials :=
  default dummy_creds (k_credheap s !! p).
Definition ctx_creds (ctx : Context) (s : K) : nat :=
  match ctx with CtxTask => k_creds s | CtxAccess p => p end.

Definition CheckPermission (ctx : Context) (d : Dirent) (p : PermMask)
  : M error :=
  c <- get (fun s => Credentials_at s (ctx_creds ctx s)) ;;
  emit (EvCheckPermission c d p) ;;
  w <- get k_world ;; ret (b_CheckPermission B w c d p).

Definition CheckCapability (ctx : Context) (d : Dirent) (cap : Z) : M bool :=
  c <- get (fun s => Credentials_at s (ctx_creds ctx s)) ;;
  w <- get k_world ;; ret (b_CheckCapability B w c d cap).

Definition Inode_GetFile (d : Dirent) (fl : FileFlags) : M (File + Errno) :=
  emit (EvGetFile d fl) ;;
  w <- get k_world ;;
  let r := b_GetFile B w d fl in
  (fun s => (tt, set_world s (snd r))) ;;
  match fst r with
  | inl f => IncRefFile f ;; ret (inl f)
  | inr e => ret (inr e)
  end.

Definition Inode_Truncate (d : Dirent) (len : Z) : M error :=
  emit (EvTruncate d len) ;;
  w <- get k_world ;;
  let r := b_Truncate B w d len in
  (fun s => (tt, set_world s (snd r))) ;; ret (fst r).

Definition Inode_Allocate (d : Dirent) (off len : Z) : M error :=
  emit (EvAllocate d off len) ;;
  w <- get k_world ;;
  let r := b_Allocate B w d off len in
  (fun s => (tt, set_world s (snd r))) ;; ret (fst r).

Definition Dirent_Create (parent root : Dirent) (name : string)
    (fl : FileFlags) (perms : FilePermissions) : M (File + Errno) :=
  emit (EvCreate parent name fl perms) ;;
  w <- get k_world ;;
  let r := b_Create B w root parent name fl perms in
  (fun s => (tt, set_world s (snd r))) ;;
  match fst r with
  | inl f => IncRefFile f ;; ret (inl f)
  | inr e => ret (inr e)
  end.

Definition Inode_Getlink (d : Dirent) : M (Dirent + Errno) :=
  emit (EvGetlink d) ;;
  w <- get k_world ;;
  match b_Getlink B w d with
  | inl r => IncRef r ;; ret (inl r)
  | inr e => ret (inr e)
  end.

Definition Inode_Readlink (d : Dirent) : M (string + Errno) :=
  emit (EvReadlink d) ;;
  w <- get k_world ;; ret (b_Readlink B w d).

Definition Inode_UnstableAttr (d : Dirent) : M (UnstableAttr + Errno) :=
  w <- get k_world ;; ret (b_UnstableAttr B w d).

Definition Inode_SetOwner (d : Dirent) (o : FileOwner) : M error :=
  emit (EvSetOwner d o) ;;
  w <- get k_world ;;
  let r := b_SetOwner B w d o in
  (fun s => (tt, set_world s (snd r))) ;; ret (fst r).

Definition Inode_SetPermissions (d : Dirent) (p : FilePermissions) : M bool :=
  emit (EvSetPermissions d p) ;;
  w <- get k_world ;;
  let r := b_SetPermissions B w d p in
  (fun s => (tt, set_world s (snd r))) ;; ret (fst r).

Definition InotifyEvent (d : Dirent) (ev : Z) : M unit := emit (EvInotify d ev).

Definition SendSignal (si : SignalInfo) : M unit :=
  fun s => (tt, set_signals s (k_signals s ++ [si])).

(** *** fileOpOn (lines 62-116): an operation on the last entry of the
    path *)

Definition fileOpOn (dirFD : Z) (path : string) (resolve : bool)
    (fn : Dirent -> Dirent -> Z -> M error) : M error :=
  (* Extract the working directory (maybe): (wd, rel, f) or an error. *)
  a <- (if is_absolute path then
          ret (inl (None, None, None))
        else if dirFD =? AT_FDCWD then
          wd <- WorkingDirectory ;;
          ret (inl (Some wd, Some wd, None))
        else
          f <- GetFile dirFD ;;
          match f with
          | None => ret (inr EBADF)
          | Some f =>
              let rel := f_dirent f in
              ty <- StableAttr rel ;;
              if negb (IsDir ty) then
                DecRefFile f ;; ret (inr ENOTDIR)
              else ret (inl (None, Some rel, Some f))
          end) ;;
  match a with
  | inr e => ret (Some e)
  | inl (wd, rel, f) =>
      (* Grab the root (always required.) *)
      root <- RootDirectory ;;
      (* Lookup the node. *)
      r <- (if resolve
            then FindInode root rel path MaxSymlinkTraversals
            else FindLink root rel path MaxSymlinkTraversals) ;;
      let remainingTraversals := snd r in
      DecRef root ;;
      match wd with Some wd => DecRef wd | None => ret tt end ;;
      match f with Some f => DecRefFile f | None => ret tt end ;;
      match fst r with
      | inr e => ret (Some e)
      | inl d =>
          err <- fn root d remainingTraversals ;;
          DecRef d ;;
          ret err
      end
  end.

(** *** fileOpAt (lines 36-60): an operation on the second last component
    of the path *)

Definition fileOpAt (dirFD : Z) (path : string)
    (fn : Dirent -> Dirent -> string -> Z -> M error) : M error :=
  let dir := fst (SplitLast B path) in
  let name := snd (SplitLast B path) in
  if String.eqb dir "/"%string then
    root <- RootDirectory ;;
    err <- fn root root name MaxSymlinkTraversals ;;
    DecRef root ;;
    ret err
  else if String.eqb dir "."%string && (dirFD =? AT_FDCWD) then
    wd <- WorkingDirectory ;;
    root <- RootDirectory ;;
    err <- fn root wd name MaxSymlinkTraversals ;;
    DecRef wd ;;
    DecRef root ;;
    ret err
  else
    fileOpOn dirFD dir true
      (fun root d remainingTraversals => fn root d name remainingTraversals).

(** *** The two resolvers, up to the call of the closure

    [fileOpOn_lookup] is fileOpOn from its first line to the test of the
    lookup's error: it yields the arguments the closure is called with, or
    the error fileOpOn returns without calling it.  [fileOpAt_resolve] is the
    same for fileOpAt, with the references to release once the closure has
    returned, in order. *)

Definition fileOpOn_lookup (dirFD : Z) (path : string) (resolve : bool)
  : M ((Dirent * Dirent * Z) + Errno) :=
  a <- (if is_absolute path then
          ret (inl (None, None, None))
        else if dirFD =? AT_FDCWD then
          wd <- WorkingDirectory ;;
          ret (inl (Some wd, Some wd, None))
        else
          f <- GetFile dirFD ;;
          match f with
          | None => ret (inr EBADF)
          | Some f =>
              let rel := f_dirent f in
              ty <- StableAttr rel ;;
              if negb (IsDir ty) then
                DecRefFile f ;; ret (inr ENOTDIR)
              else ret (inl (None, Some rel, Some f))
          end) ;;
  match a with
  | inr e => ret (inr e)
  | inl (wd, rel, f) =>
      root <- RootDirectory ;;
      r <- (if resolve
            then FindInode root rel path MaxSymlinkTraversals
            else FindLink root rel path MaxSymlinkTraversals) ;;
      DecRef root ;;
      match wd with Some wd => DecRef wd | None => ret tt end ;;
      match f with Some f => DecRefFile f | None => ret tt end ;;
      match fst r with
      | inr e => ret (inr e)
      | inl d => ret (inl (root, d, snd r))
      end
  end.

Fixpoint release_all (ds : list Dirent) : M unit :=
  match ds with
  | [] => ret tt
  | d :: rest => DecRef d ;; release_all rest
  end.

Definition fileOpAt_resolve (dirFD : Z) (path : string)
  : M ((Dirent * Dirent * string * Z * list Dirent) + Errno) :=
  let dir := fst (SplitLast B path) in
  let name := snd (SplitLast B path) in
  if String.eqb dir "/"%string then
    root <- RootDirectory ;;
    ret (inl (root, root, name, MaxSymlinkTraversals, [root]))
  else if String.eqb dir "."%string && (dirFD =? AT_FDCWD) then
    wd <- WorkingDirectory ;;
    root <- RootDirectory ;;
    ret (inl (root, wd, name, MaxSymlinkTraversals, [wd; root]))
  else
    r <- fileOpOn_lookup dirFD dir true ;;
    match r with
    | inr e => ret (inr e)
    | inl (root, d, rem) => ret (inl (root, d, name, rem, [d]))
    end.

(** *** copyInPath (lines 118-133) *)

Definition copyInPath (addr : Z) (allowEmpty : bool)
  : M ((string * bool) + Errno) :=
  r <- CopyInString addr ;;
  match r with
  | inr e => ret (inr e)
  | inl path =>
      if String.eqb path ""%string && negb allowEmpty then ret (inr ENOENT)
      else ret (inl (TrimTrailingSlashes B path))
  end.

Definition set_result (v : Z) : M unit := fun s => (tt, set_frame s v).

(** *** openAt (lines 137-210) *)

Definition openAt_fn (flags : Z) (resolve dirPath : bool)
    (root d : Dirent) (_ : Z) : M error :=
  (* First check a few things about the filesystem before trying to get the
     file reference. *)
  e <- CheckPermission CtxTask d (flagsToPermissions B flags) ;;
  match e with
  | Some e => ret (Some e)
  | None =>
      ty <- StableAttr d ;;
      if IsSymlink ty && negb resolve then ret (Some ELOOP) else
      let fileFlags := set_LargeFile (linuxToFlags B flags) in
      let chk :=
        if IsDir ty then
          (* Don't allow directories to be opened writable. *)
          if ff_Write fileFlags then Some EISDIR else None
        else if ff_Directory fileFlags then Some ENOTDIR
        else if dirPath then Some ENOTDIR
        else None in
      match chk with
      | Some e => ret (Some e)
      | None =>
          f <- Inode_GetFile d fileFlags ;;
          match f with
          | inr e => ret (Some (ConvertIntr B e ERESTARTSYS))
          | inl file =>
              (* defer file.DecRef(t) *)
              err <- (tr <- (if has_flag flags O_TRUNC
                             then Inode_Truncate d 0 else ret None) ;;
                      match tr with
                      | Some e => ret (Some e)
                      | None =>
                          nf <- NewFDFrom 0 file
                                  {| CloseOnExec := has_flag flags O_CLOEXEC |} ;;
                          match nf with
                          | inr e => ret (Some e)
                          | inl newFD =>
                              set_result newFD ;;
                              InotifyEvent d IN_OPEN ;;
                              ret None
                          end
                      end) ;;
              DecRefFile file ;;
              ret err
          end
      end
  end.

Definition openAt (dirFD addr flags : Z) : M (Z * error) :=
  set_result 0 ;;
  p <- copyInPath addr false ;;
  match p with
  | inr e => ret (0, Some e)
  | inl (path, dirPath) =>
      let resolve := negb (has_flag flags O_NOFOLLOW) in
      err <- fileOpOn dirFD path resolve (openAt_fn flags resolve dirPath) ;;
      fd <- get k_frame ;;
      ret (fd, err)
  end.

(** *** createAt (lines 305-463) *)

(** A call postponed with [defer]: it runs when the closure returns. *)
Inductive Deferred := DeferDirent (d : Dirent) | DeferFile (f : File).

Definition run_deferred (x : Deferred) : M unit :=
  match x with DeferDirent d => DecRef d | DeferFile f => DecRefFile f end.

(** Deferred calls run last in, first out; [ds] lists them oldest first. *)
Fixpoint run_defers (ds : list Deferred) : M unit :=
  match ds with
  | [] => ret tt
  | x :: rest => run_defers rest ;; run_deferred x
  end.

(** How one turn of the resolution loop ends. *)
Inductive LoopStep :=
| LoopReturn (e : Errno)                     (* return from the closure *)
| LoopFound (found : Dirent)                 (* break, err == nil *)
| LoopErr (e : Errno)                        (* break, err != nil *)
| LoopContinue (parent : Dirent) (name : string).

(** One turn of the loop: its end, the budget left and the calls it
    deferred. *)
Definition createAt_step (flags : Z) (root parent : Dirent) (name : string)
    (remainingTraversals : Z) : M (LoopStep * Z * list Deferred) :=
  pty <- StableAttr parent ;;
  if negb (IsDir pty) then ret (LoopReturn ENOTDIR, remainingTraversals, [])
  else
  (* Start by looking up the dirent at 'name'. *)
  r <- FindLink root (Some parent) name remainingTraversals ;;
  let remainingTraversals := snd r in
  match fst r with
  | inr e => ret (LoopErr e, remainingTraversals, [])
  | inl found =>
      let ds := [DeferDirent found] in
      (* We found something (possibly a symlink). *)
      if has_flag flags O_EXCL
      then ret (LoopReturn EEXIST, remainingTraversals, ds) else
      fty <- StableAttr found ;;
      (* If we have a non-symlink, then we can proceed. *)
      if negb (IsSymlink fty)
      then ret (LoopFound found, remainingTraversals, ds) else
      if has_flag flags O_NOFOLLOW
      then ret (LoopReturn ELOOP, remainingTraversals, ds) else
      (* Try to resolve the symlink directly to a Dirent. *)
      g <- Inode_Getlink found ;;
      match g with
      | inl resolved =>
          ret (LoopFound found, remainingTraversals,
               ds ++ [DeferDirent resolved])
      | inr e =>
          if negb (bool_decide (e = ErrResolveViaReadlink))
          then ret (LoopReturn e, remainingTraversals, ds) else
          (* Are we able to resolve further? *)
          if remainingTraversals =? 0
          then ret (LoopReturn ELOOP, remainingTraversals, ds) else
          (* Resolve the symlink to a path via Readlink. *)
          p <- Inode_Readlink found ;;
          match p with
          | inr e => ret (LoopErr e, remainingTraversals, ds)
          | inl path =>
              let remainingTraversals := wrap_uint64 (remainingTraversals - 1) in
              (* Get the new parent from the target path. *)
              let newParentPath := fst (SplitLast B path) in
              let newName := snd (SplitLast B path) in
              np <- FindInode root (Some parent) newParentPath
                      remainingTraversals ;;
              let remainingTraversals := snd np in
              match fst np with
              | inr e => ret (LoopErr e, remainingTraversals, ds)
              | inl newParent =>
                  ret (LoopContinue newParent newName, remainingTraversals,
                       ds ++ [DeferDirent newParent])
              end
          end
      end
  end.

(** Where the loop is left: by [return], or by [break] with the values of
    [found] (read afterwards only when [err] is nil), [err], [parent] and
    [name] at that point. *)
Inductive LoopExit :=
| ExitReturn (e : Errno)
| ExitBreak (res : Dirent + Errno) (parent : Dirent) (name : string).

(** The [for] loop.  [None]: the bound [fuel] on the number of turns was
    reached. *)
Fixpoint createAt_loop (fuel : nat) (flags : Z) (root parent : Dirent)
    (name : string) (remainingTraversals : Z) (ds : list Deferred)
  : M (option (LoopExit * list Deferred)) :=
  match fuel with
  | O => ret None
  | S fuel' =>
      r <- createAt_step flags root parent name remainingTraversals ;;
      let '(st, rem', ds') := r in
      match st with
      | LoopReturn e => ret (Some (ExitReturn e, ds ++ ds'))
      | LoopFound found =>
          ret (Some (ExitBreak (inl found) parent name, ds ++ ds'))
      | LoopErr e =>
          ret (Some (ExitBreak (inr e) parent name, ds ++ ds'))
      | LoopContinue parent' name' =>
          createAt_loop fuel' flags root parent' name' rem' (ds ++ ds')
      end
  end.

(** The part of the closure after the loop: it yields the error and the
    calls it deferred. *)
Definition createAt_finish (flags mode : Z) (fileFlags : FileFlags)
    (root : Dirent) (res : Dirent + Errno) (parent : Dirent)
    (name : string) : M (error * list Deferred) :=
  r <- match res with
       | inl found =>
           e <- CheckPermission CtxTask found (flagsToPermissions B flags) ;;
           match e with
           | Some e => ret (inr e)
           | None =>
               tr <- (if has_flag flags O_TRUNC
                      then Inode_Truncate found 0 else ret None) ;;
               match tr with
               | Some e => ret (inr e)
               | None =>
                   f <- Inode_GetFile found fileFlags ;;
                   match f with
                   | inr e => ret (inr (ConvertIntr B e ERESTARTSYS))
                   | inl newFile => ret (inl (newFile, found))
                   end
               end
           end
       | inr ENOENT =>
           (* File does not exist. Proceed with creation. *)
           e <- CheckPermission CtxTask parent
                  {| pm_Read := false; pm_Write := true; pm_Execute := true |} ;;
           match e with
           | Some e => ret (inr e)
           | None =>
               umask <- Umask ;;
               let perms := FilePermsFromMode B (Z.ldiff mode umask) in
               f <- Dirent_Create parent root name fileFlags perms ;;
               match f with
               | inr e => ret (inr e)
               | inl newFile => ret (inl (newFile, f_dirent newFile))
               end
           end
       | inr e => ret (inr e)
       end ;;
  match r with
  | inr e => ret (Some e, [])
  | inl (newFile, found) =>
      (* defer newFile.DecRef(t) *)
      let ds := [DeferFile newFile] in
      nf <- NewFDFrom 0 newFile {| CloseOnExec := has_flag flags O_CLOEXEC |} ;;
      match nf with
      | inr e => ret (Some e, ds)
      | inl newFD =>
          set_result newFD ;;
          InotifyEvent found IN_OPEN ;;
          ret (None, ds)
      end
  end.

(** The closure of createAt; its deferred calls run when it returns. *)
Definition createAt_fn (fuel : nat) (flags mode : Z) (fileFlags : FileFlags)
    (root parent : Dirent) (name : string) (remainingTraversals : Z)
  : M error :=
  l <- createAt_loop fuel flags root parent name remainingTraversals [] ;;
  match l with
  | None => ret (Some ErrFuel)
  | Some (ExitReturn e, ds) => run_defers ds ;; ret (Some e)
  | Some (ExitBreak res parent name, ds) =>
      r <- createAt_finish flags mode fileFlags root res parent name ;;
      run_defers (ds ++ snd r) ;;
      ret (fst r)
  end.

Definition createAt (fuel : nat) (dirFD addr flags mode : Z) : M (Z * error) :=
  set_result 0 ;;
  p <- copyInPath addr false ;;
  match p with
  | inr e => ret (0, Some e)
  | inl (path, dirPath) =>
      if dirPath then ret (0, Some ENOENT) else
      let fileFlags := set_LargeFile (linuxToFlags B flags) in
      err <- fileOpAt dirFD path (createAt_fn fuel flags mode fileFlags) ;;
      fd <- get k_frame ;;
      ret (fd, err)
  end.

(** Open and Openat (lines 465-490). *)
Definition Openat (fuel : nat) (dirFD addr flags mode : Z) : M (Z * error) :=
  if has_flag flags O_CREAT then createAt fuel dirFD addr flags mode
  else openAt dirFD addr flags.

(** *** accessAt (lines 500-562) *)

(** Modelled from the spec: "access(2) constructs a derived, temporary
    credentials view without mutating the task's actual credentials";
    auth.Credentials.Fork (not among the sources) allocates a copy. *)
Definition Fork (p : nat) : M nat :=
  fun s => (List.length (k_credheap s),
            set_credheap s (k_credheap s ++ [Credentials_at s p])).

Definition load (p : nat) : M Credentials :=
  get (fun s => Credentials_at s p).
Definition store (p : nat) (c : Credentials) : M unit :=
  fun s => (tt, set_credheap s (<[p := c]> (k_credheap s))).

Definition accessAt_fn (mode : Z) (root d : Dirent) (_ : Z) : M error :=
  (* access(2) and faccessat(2) check permissions using real UID/GID, not
     effective UID/GID. *)
  tc <- get k_creds ;;
  creds <- Fork tc ;;
  c <- load creds ;; store creds (set_EffectiveKUID c (RealKUID c)) ;;
  c <- load creds ;; store creds (set_EffectiveKGID c (RealKGID c)) ;;
  c <- load creds ;;
  (if KUID_In B (UserNamespace c) (EffectiveKUID c) =? RootUID
   then store creds (set_EffectiveCaps c (PermittedCaps c))
   else store creds (set_EffectiveCaps c 0)) ;;
  CheckPermission (CtxAccess creds) d
    {| pm_Read := negb (Z.land mode 4 =? 0);
       pm_Write := negb (Z.land mode 2 =? 0);
       pm_Execute := negb (Z.land mode 1 =? 0) |}.

Definition accessAt (dirFD addr mode : Z) : M error :=
  p <- copyInPath addr false ;;
  match p with
  | inr e => ret (Some e)
  | inl (path, _) =>
      (* Sanity check the mode. *)
      if negb (Z.ldiff mode (Z.lor 4 (Z.lor 2 1)) =? 0) then ret (Some EINVAL)
      else fileOpOn dirFD path true (accessAt_fn mode)
  end.

(** *** Truncate (lines 1555-1605); the result is always (0, nil, err):
    only err is kept *)

Definition Truncate_fn (length : Z) (root d : Dirent) (_ : Z) : M error :=
  ty <- StableAttr d ;;
  if IsDir ty then ret (Some EISDIR) else
  if negb (IsFile ty) then ret (Some EINVAL) else
  e <- CheckPermission CtxTask d
         {| pm_Read := false; pm_Write := true; pm_Execute := false |} ;;
  match e with
  | Some e => ret (Some e)
  | None =>
      e <- Inode_Truncate d length ;;
      match e with
      | Some e => ret (Some e)
      | None => InotifyEvent d IN_MODIFY ;; ret None
      end
  end.

Definition Truncate (addr length : Z) : M error :=
  if length <? 0 then ret (Some EINVAL) else
  p <- copyInPath addr false ;;
  match p with
  | inr e => ret (Some e)
  | inl (path, dirPath) =>
      if dirPath then ret (Some EINVAL) else
      cur <- get k_fsize_cur ;;
      if cur <=? wrap_uint64 length then
        SendSignal {| Signo := SIGXFSZ; Code := SI_USER |} ;;
        ret (Some EFBIG)
      else fileOpOn AT_FDCWD path true (Truncate_fn length)
  end.

(** *** chown (lines 1664-1746) *)

Definition chown (d : Dirent) (uid gid : Z) : M error :=
  let owner := {| o_UID := NoID; o_GID := NoID |} in
  ua <- Inode_UnstableAttr d ;;
  match ua with
  | inr e => ret (Some e)
  | inl uattr =>
      c <- get (fun s => Credentials_at s (k_creds s)) ;;
      hasCap <- CheckCapability CtxTask d CAP_CHOWN ;;
      let isOwner := ua_Owner_UID uattr =? EffectiveKUID c in
      (* the uid part: an error, or owner and clearPrivilege after it *)
      let r1 : Errno + FileOwner * bool :=
        if id_Ok uid then
          let kuid := MapToKUID B (UserNamespace c) uid in
          if negb (id_Ok kuid) then inl EINVAL else
          let isNoop := ua_Owner_UID uattr =? kuid in
          if negb (hasCap || (isOwner && isNoop)) then inl EPERM else
          inr ({| o_UID := kuid; o_GID := o_GID owner |},
               negb (ua_Owner_UID uattr =? kuid))
        else inr (owner, false) in
      match r1 with
      | inl e => ret (Some e)
      | inr (owner, clearPrivilege) =>
          let r2 : Errno + FileOwner * bool :=
            if id_Ok gid then
              let kgid := MapToKGID B (UserNamespace c) gid in
              if negb (id_Ok kgid) then inl EINVAL else
              let isNoop := ua_Owner_GID uattr =? kgid in
              let isMemberGroup := InGroup B c kgid in
              if negb (hasCap || (isOwner && (isNoop || isMemberGroup)))
              then inl EPERM else
              inr ({| o_UID := o_UID owner; o_GID := kgid |},
                   if negb (ua_Owner_GID uattr =? kgid) then true
                   else clearPrivilege)
            else inr (owner, clearPrivilege) in
          match r2 with
          | inl e => ret (Some e)
          | inr (owner, clearPrivilege) =>
              e <- Inode_SetOwner d owner ;;
              match e with
              | Some e => ret (Some e)
              | None =>
                  ty <- StableAttr d ;;
                  (* Clear privilege bits if needed and they are set. *)
                  if clearPrivilege && HasSetUIDOrGID (ua_Perms uattr)
                     && negb (IsDir ty) then
                    ok <- Inode_SetPermissions d
                            (DropSetUIDAndMaybeGID (ua_Perms uattr)) ;;
                    if negb ok then ret (Some EPERM) else ret None
                  else ret None
              end
          end
      end
  end.

(** *** Fallocate (lines 2107-2159); the result is always (0, nil, err):
    only err is kept *)

Definition Fallocate (fd mode offset length : Z) : M error :=
  f <- GetFile fd ;;
  match f with
  | None => ret (Some EBADF)
  | Some file =>
      (* defer file.DecRef(t) *)
      err <- (if (offset <? 0) || (length <=? 0) then ret (Some EINVAL) else
              if negb (mode =? 0) then emit EvUnimplemented ;; ret (Some ENOTSUP)
              else
              if negb (ff_Write (f_flags file)) then ret (Some EBADF) else
              ty <- StableAttr (f_dirent file) ;;
              if IsPipe ty then ret (Some ESPIPE) else
              if IsDir ty then ret (Some EISDIR) else
              if negb (IsRegular ty) then ret (Some ENODEV) else
              let size := wrap_int64 (offset + length) in
              if size <? 0 then ret (Some EFBIG) else
              cur <- get k_fsize_cur ;;
              if cur <=? wrap_uint64 size then
                SendSignal {| Signo := SIGXFSZ; Code := SI_USER |} ;;
                ret (Some EFBIG)
              else
                e <- Inode_Allocate (f_dirent file) offset length ;;
                match e with
                | Some e => ret (Some e)
                | None => InotifyEvent (f_dirent file) IN_MODIFY ;; ret None
                end) ;;
      DecRefFile file ;;
      ret err
  end.

End Layer.

(** ** A test double for the collaborators

    A small in-memory naming graph, used to run the layer on concrete
    calls: directory entries as triples, inode types, link texts, owners and
    sizes as tables, user memory as a table of strings.  Lookups resolve one
    component ([.], [/], [name] or [/name]) and never follow links; that is
    enough to drive every branch of the layer. *)

Module TestFS.

Record TWorld := {
  tw_entries : list (Dirent * string * Dirent); (* parent, name, child *)
  tw_type : list (Dirent * InodeType);
  tw_link : list (Dirent * string);             (* link text of symlinks *)
  tw_deny : list Dirent;      (* nodes refusing every unprivileged access *)
  tw_attr : list (Dirent * UnstableAttr);
  tw_mem : list (Z * string);                   (* strings in user memory *)
  tw_next : nat }.                              (* next fresh identity *)

Definition assoc {A V} `{EqDecision A} (k : A) (l : list (A * V)) : option V :=
  match List.find (fun kv => bool_decide (fst kv = k)) l with
  | Some kv => Some (snd kv)
  | None => None
  end.

Definition lookup_entry (w : TWorld) (parent : Dirent) (name : string)
  : option Dirent :=
  match List.find (fun e => bool_decide (fst (fst e) = parent)
                            && String.eqb (snd (fst e)) name) (tw_entries w) with
  | Some e => Some (snd e)
  | None => None
  end.

Definition type_of (w : TWorld) (d : Dirent) : InodeType :=
  default RegularFile (assoc d (tw_type w)).

Definition default_attr : UnstableAttr :=
  {| ua_Owner_UID := 0; ua_Owner_GID := 0; ua_Perms := 420; ua_Size := 0 |}.

Definition attr_of (w : TWorld) (d : Dirent) : UnstableAttr :=
  default default_attr (assoc d (tw_attr w)).

Definition set_entries w v :=
  {| tw_entries := v; tw_type := tw_type w; tw_link := tw_link w;
     tw_deny := tw_deny w; tw_attr := tw_attr w; tw_mem := tw_mem w;
     tw_next := tw_next w |}.
Definition set_types w v :=
  {| tw_entries := tw_entries w; tw_type := v; tw_link := tw_link w;
     tw_deny := tw_deny w; tw_attr := tw_attr w; tw_mem := tw_mem w;
     tw_next := tw_next w |}.
Definition set_attrs w v :=
  {| tw_entries := tw_entries w; tw_type := tw_type w; tw_link := tw_link w;
     tw_deny := tw_deny w; tw_attr := v; tw_mem := tw_mem w;
     tw_next := tw_next w |}.
Definition set_next w v :=
  {| tw_entries := tw_entries w; tw_type := tw_type w; tw_link := tw_link w;
     tw_deny := tw_deny w; tw_attr := tw_attr w; tw_mem := tw_mem w;
     tw_next := v |}.

(** Splitting at the last separator. *)
Fixpoint split_at_last_slash (s : string) : option (string * string) :=
  match s with
  | EmptyString => None
  | String c rest =>
      match split_at_last_slash rest with
      | Some (d, b) => Some (String c d, b)
      | None => if Ascii.eqb c "/"%char then Some (EmptyString, rest) else None
      end
  end.

Definition t_SplitLast (path : string) : string * string :=
  match split_at_last_slash path with
  | None => ("."%string, path)
  | Some (EmptyString, b) => ("/"%string, b)
  | Some (d, b) => (d, b)
  end.

Fixpoint trim_rev (r : list ascii) : list ascii * bool :=
  match r with
  | c :: (_ :: _) as rest =>
      if Ascii.eqb c "/"%char then (fst (trim_rev rest), true) else (r, false)
  | _ => (r, false)
  end.

Definition t_TrimTrailingSlashes (path : string) : string * bool :=
  let r := trim_rev (List.rev (list_ascii_of_string path)) in
  (string_of_list_ascii (List.rev (fst r)), snd r).

Definition t_flagsToPermissions (mask : Z) : PermMask :=
  let acc := Z.land mask O_ACCMODE in
  {| pm_Read := (acc =? 0) || (acc =? 2);
     pm_Write := has_flag mask O_TRUNC || (acc =? 1) || (acc =? 2);
     pm_Execute := false |}.

Definition t_linuxToFlags (mask : Z) : FileFlags :=
  {| ff_Read := negb (Z.land mask O_ACCMODE =? 1);
     ff_Write := negb (Z.land mask O_ACCMODE =? 0);
     ff_Directory := has_flag mask 65536;
     ff_LargeFile := has_flag mask 32768;
     ff_Truncate := has_flag mask O_TRUNC;
     ff_Append := has_flag mask 1024;
     ff_NonBlocking := has_flag mask 2048 |}.

Definition t_find (w : TWorld) (root : Dirent) (rel : option Dirent)
    (path : string) (rem : Z) : (Dirent + Errno) * Z :=
  let base := if is_absolute path then root else default root rel in
  let name := match path with
              | String c rest => if Ascii.eqb c "/"%char then rest else path
              | EmptyString => path
              end in
  if String.eqb name "" then (inl base, rem)
  else if String.eqb name "." then (inl base, rem)
  else match lookup_entry w base name with
       | Some d => (inl d, rem)
       | None => (inr ENOENT, rem)
       end.

Definition t_CheckPermission (w : TWorld) (c : Credentials) (d : Dirent)
    (p : PermMask) : error :=
  if bool_decide (d ∈ tw_deny w) && (EffectiveCaps c =? 0)
  then Some EACCES else None.

Definition t_GetFile (w : TWorld) (d : Dirent) (fl : FileFlags)
  : (File + Errno) * TWorld :=
  (inl {| f_id := tw_next w; f_dirent := d; f_flags := fl |},
   set_next w (S (tw_next w))).

Definition set_size (a : UnstableAttr) (n : Z) : UnstableAttr :=
  {| ua_Owner_UID := ua_Owner_UID a; ua_Owner_GID := ua_Owner_GID a;
     ua_Perms := ua_Perms a; ua_Size := n |}.
Definition set_perms (a : UnstableAttr) (p : Z) : UnstableAttr :=
  {| ua_Owner_UID := ua_Owner_UID a; ua_Owner_GID := ua_Owner_GID a;
     ua_Perms := p; ua_Size := ua_Size a |}.
Definition set_owner (a : UnstableAttr) (o : FileOwner) : UnstableAttr :=
  {| ua_Owner_UID := if id_Ok (o_UID o) then o_UID o else ua_Owner_UID a;
     ua_Owner_GID := if id_Ok (o_GID o) then o_GID o else ua_Owner_GID a;
     ua_Perms := ua_Perms a; ua_Size := ua_Size a |}.

Definition t_Truncate (w : TWorld) (d : Dirent) (len : Z) : error * TWorld :=
  (None, set_attrs w ((d, set_size (attr_of w d) len) :: tw_attr w)).

Definition t_Allocate (w : TWorld) (d : Dirent) (off len : Z)
  : error * TWorld :=
  (None,
   set_attrs w ((d, set_size (attr_of w d)
                      (Z.max (ua_Size (attr_of w d)) (off + len)))
                :: tw_attr w)).

Definition t_Create (w : TWorld) (root parent : Dirent) (name : string)
    (fl : FileFlags) (perms : FilePermissions) : (File + Errno) * TWorld :=
  match lookup_entry w parent name with
  | Some _ => (inr EEXIST, w)
  | None =>
      let d := tw_next w in
      let w1 := set_entries w ((parent, name, d) :: tw_entries w) in
      let w2 := set_types w1 ((d, RegularFile) :: tw_type w1) in
      let w3 := set_attrs w2
                  ((d, set_perms default_attr perms) :: tw_attr w2) in
      (inl {| f_id := S d; f_dirent := d; f_flags := fl |},
       set_next w3 (S (S d)))
  end.

Definition t_Getlink (w : TWorld) (d : Dirent) : Dirent + Errno :=
  inr (if IsSymlink (type_of w d) then ErrResolveViaReadlink else ENOLINK).

Definition t_Readlink (w : TWorld) (d : Dirent) : string + Errno :=
  match assoc d (tw_link w) with
  | Some text => inl text
  | None => inr ENOLINK
  end.

Definition t_SetOwner (w : TWorld) (d : Dirent) (o : FileOwner)
  : error * TWorld :=
  (None, set_attrs w ((d, set_owner (attr_of w d) o) :: tw_attr w)).

Definition t_SetPermissions (w : TWorld) (d : Dirent) (p : FilePermissions)
  : bool * TWorld :=
  (true, set_attrs w ((d, set_perms (attr_of w d) p) :: tw_attr w)).

Definition t_CopyInString (w : TWorld) (addr : Z) : string + Errno :=
  match assoc addr (tw_mem w) with
  | Some s => inl s
  | None => inr EFAULT
  end.

Definition backend : Backend TWorld :=
  {| SplitLast := t_SplitLast;
     TrimTrailingSlashes := t_TrimTrailingSlashes;
     ConvertIntr := fun e intr =>
                      match e with ErrInterrupted => intr | _ => e end;
     flagsToPermissions := t_flagsToPermissions;
     linuxToFlags := t_linuxToFlags;
     FilePermsFromMode := fun m => Z.land m 4095;
     MapToKUID := fun _ u => u;
     MapToKGID := fun _ g => g;
     KUID_In := fun _ k => k;
     InGroup := fun c g => g =? EffectiveKGID c;
     b_CopyInString := t_CopyInString;
     b_FindInode := t_find;
     b_FindLink := t_find;
     b_StableAttr := type_of;
     b_UnstableAttr := fun w d => inl (attr_of w d);
     b_CheckPermission := t_CheckPermission;
     b_CheckCapability := fun _ c _ cap => Z.testbit (EffectiveCaps c) cap;
     b_GetFile := t_GetFile;
     b_Truncate := t_Truncate;
     b_Allocate := t_Allocate;
     b_Create := t_Create;
     b_Getlink := t_Getlink;
     b_Readlink := t_Readlink;
     b_SetOwner := t_SetOwner;
     b_SetPermissions := t_SetPermissions |}.

(** A tree: / (0) with the directory /d (1), a regular file /f (2), a link
    /l (3) to the missing name [new], a directory /locked (4) refusing
    unprivileged access, a link /loop (5) to itself, a link /m (6) to
    [nodir/x], in a directory that does not exist, and a link /n (7) to
    [locked/x].  User memory holds a few paths. *)
Definition world0 : TWorld :=
  {| tw_entries := [(0%nat, "d"%string, 1%nat); (0%nat, "f"%string, 2%nat);
                    (0%nat, "l"%string, 3%nat); (0%nat, "locked"%string, 4%nat);
                    (0%nat, "loop"%string, 5%nat); (0%nat, "m"%string, 6%nat);
                    (0%nat, "n"%string, 7%nat)];
     tw_type := [(0%nat, Directory); (1%nat, Directory); (2%nat, RegularFile);
                 (3%nat, Symlink); (4%nat, Directory); (5%nat, Symlink);
                 (6%nat, Symlink); (7%nat, Symlink)];
     tw_link := [(3%nat, "new"%string); (5%nat, "loop"%string);
                 (6%nat, "nodir/x"%string); (7%nat, "locked/x"%string)];
     tw_deny := [4%nat];
     tw_attr := [(2%nat, {| ua_Owner_UID := 1000; ua_Owner_GID := 1000;
                            ua_Perms := 2532; ua_Size := 10 |})];
     tw_mem := [(1, "/d"%string); (2, "/f"%string); (3, "/l"%string);
                (4, "/locked"%string); (5, "/loop"%string);
                (6, ""%string); (7, "/f/"%string); (8, "f"%string);
                (9, "/m"%string); (10, "/n"%string)];
     tw_next := 10 |}.

Definition user_creds : Credentials :=
  {| RealKUID := 1000; EffectiveKUID := 1000; SavedKUID := 1000;
     RealKGID := 1000; EffectiveKGID := 1000; SavedKGID := 1000;
     PermittedCaps := 0; EffectiveCaps := 0; UserNamespace := 0%nat |}.

Definition kernel0 : Kernel TWorld :=
  {| k_world := world0; k_root := 0%nat; k_wd := 0%nat; k_umask := 18;
     k_fdt := ∅; k_fdlimit := 8%nat;
     k_drefs := fun _ => 1; k_frefs := fun _ => 0;
     k_credheap := [user_creds]; k_creds := 0%nat;
     k_fsize_cur := 1000; k_signals := []; k_frame := 0; k_log := [] |}.

(** The same task with three descriptors open: 3 on the regular file /f,
    for writing; 4 on the directory /d; 5 on /f, read-only. *)
Definition rw_flags : FileFlags :=
  {| ff_Read := true; ff_Write := true; ff_Directory := false;
     ff_LargeFile := true; ff_Truncate := false; ff_Append := false;
     ff_NonBlocking := false |}.
Definition ro_flags : FileFlags :=
  {| ff_Read := true; ff_Write := false; ff_Directory := false;
     ff_LargeFile := true; ff_Truncate := false; ff_Append := false;
     ff_NonBlocking := false |}.

Definition kernel1 : Kernel TWorld :=
  {| k_world := world0; k_root := 0%nat; k_wd := 0%nat; k_umask := 18;
     k_fdt :=
       <[3 := ({| f_id := 7; f_dirent := 2%nat; f_flags := rw_flags |},
               {| CloseOnExec := false |})]>
         (<[4 := ({| f_id := 8; f_dirent := 1%nat; f_flags := ro_flags |},
                  {| CloseOnExec := false |})]>
            (<[5 := ({| f_id := 9; f_dirent := 2%nat; f_flags := ro_flags |},
                     {| CloseOnExec := false |})]> ∅));
     k_fdlimit := 8%nat;
     k_drefs := fun _ => 2; k_frefs := fun _ => 1;
     k_credheap := [user_creds]; k_creds := 0%nat;
     k_fsize_cur := 1000; k_signals := []; k_frame := 0; k_log := [] |}.

(** The same task as root, with CAP_CHOWN among its capabilities. *)
Definition root_creds : Credentials :=
  {| RealKUID := 0; EffectiveKUID := 0; SavedKUID := 0;
     RealKGID := 0; EffectiveKGID := 0; SavedKGID := 0;
     PermittedCaps := 1; EffectiveCaps := 1; UserNamespace := 0%nat |}.

Definition kernel_root : Kernel TWorld :=
  {| k_world := world0; k_root := 0%nat; k_wd := 0%nat; k_umask := 18;
     k_fdt := ∅; k_fdlimit := 8%nat;
     k_drefs := fun _ => 1; k_frefs := fun _ => 0;
     k_credheap := [root_creds]; k_creds := 0%nat;
     k_fsize_cur := 1000; k_signals := []; k_frame := 0; k_log := [] |}.

End TestFS.

(** ** Counting the references taken and given back in a run of calls *)

Definition is_acquire (x : Dirent) (ev : Event) : bool :=
  match ev with EvAcquire d => bool_decide (d = x) | _ => false end.
Definition is_release (x : Dirent) (ev : Event) : bool :=
  match ev with EvRelease d => bool_decide (d = x) | _ => false end.
Definition is_acquire_file (x : nat) (ev : Event) : bool :=
  match ev with EvAcquireFile f => bool_decide (f = x) | _ => false end.
Definition is_release_file (x : nat) (ev : Event) : bool :=
  match ev with EvReleaseFile f => bool_decide (f = x) | _ => false end.

Definition count (p : Event -> bool) (evs : list Event) : Z :=
  Z.of_nat (List.length (List.filter p evs)).

Definition acquired (x : Dirent) (evs : list Event) : Z :=
  count (is_acquire x) evs.
Definition released (x : Dirent) (evs : list Event) : Z :=
  count (is_release x) evs.
Definition acquired_file (x : nat) (evs : list Event) : Z :=
  count (is_acquire_file x) evs.
Definition released_file (x : nat) (evs : list Event) : Z :=
  count (is_release_file x) evs.

(** Calls that change the filesystem. *)
Definition is_mutation (ev : Event) : bool :=
  match ev with
  | EvCreate _ _ _ _ | EvTruncate _ _ | EvAllocate _ _ _
  | EvSetOwner _ _ | EvSetPermissions _ _ => true
  | _ => false
  end.

Definition one_if (b : bool) : Z := if b then 1 else 0.

Definition is_readlink (ev : Event) : bool :=
  match ev with EvReadlink _ => true | _ => false end.


(** Modelled from the spec: "requests creation from the parent node"; the
    creation primitive of the backend (fs.Dirent.Create, not among the
    sources) adds a name under a directory and leaves the names that exist
    and the link texts as they are, whether it succeeds or not. *)
Definition create_contract {World} (B : Backend World) : Prop :=
  forall w root parent name fl perms,
    let w' := snd (b_Create B w root parent name fl perms) in
    (forall r rel path rem d rem',
       b_FindLink B w r rel path rem = (inl d, rem') ->
       b_FindLink B w' r rel path rem = (inl d, rem')) /\
    (forall d text, b_Readlink B w d = inl text ->
                    b_Readlink B w' d = inl text).

Definition is_allocate (ev : Event) : bool :=
  match ev with EvAllocate _ _ _ => true | _ => false end.

Definition sigxfsz : SignalInfo := {| Signo := SIGXFSZ; Code := SI_USER |}.

(** The credentials view of access(2), in the words of the spec: the
    effective uid and gid are the real ones, and the effective capabilities
    are the permitted ones if the real uid is root in the user namespace,
    none otherwise. *)
Definition access_view {World} (B : Backend World) (c : Credentials)
  : Credentials :=
  {| RealKUID := RealKUID c; EffectiveKUID := RealKUID c;
     SavedKUID := SavedKUID c;
     RealKGID := RealKGID c; EffectiveKGID := RealKGID c;
     SavedKGID := SavedKGID c;
     PermittedCaps := PermittedCaps c;
     EffectiveCaps := if KUID_In B (UserNamespace c) (RealKUID c) =? RootUID
                      then PermittedCaps c else 0;
     UserNamespace := UserNamespace c |}.

Definition access_mask (mode : Z) : PermMask :=
  {| pm_Read := negb (Z.land mode 4 =? 0);
     pm_Write := negb (Z.land mode 2 =? 0);
     pm_Execute := negb (Z.land mode 1 =? 0) |}.

Definition is_check_permission (ev : Event) : bool :=
  match ev with EvCheckPermission _ _ _ => true | _ => false end.

(** The owner chown asks the backend to set, and whether the request names
    a uid or a gid that differs from the current one. *)
Definition chown_owner {World} (B : Backend World) (c : Credentials)
    (uid gid : Z) : FileOwner :=
  {| o_UID := if id_Ok uid then MapToKUID B (UserNamespace c) uid else NoID;
     o_GID := if id_Ok gid then MapToKGID B (UserNamespace c) gid else NoID |}.

Definition owner_changes {World} (B : Backend World) (c : Credentials)
    (uattr : UnstableAttr) (uid gid : Z) : bool :=
  (id_Ok uid && negb (ua_Owner_UID uattr =? MapToKUID B (UserNamespace c) uid))
  || (id_Ok gid
      && negb (ua_Owner_GID uattr =? MapToKGID B (UserNamespace c) gid)).

(** Modelled from the spec: "sets permission bits atomically via the
    backend"; when SetPermissions (not among the sources) reports success the
    inode has the permissions it was given. *)
Definition perms_contract {World} (B : Backend World) : Prop :=
  forall w d p,
    fst (b_SetPermissions B w d p) = true ->
    exists ua, b_UnstableAttr B (snd (b_SetPermissions B w d p)) d = inl ua /\
               ua_Perms ua = p.

(** ** The other operations of the layer

    The syscalls of the file beside open, access, truncate, chown and
    fallocate: node creation, removal, links, attributes, descriptors.  They
    call further operations of the collaborators, gathered in [Ops]. *)

(** *** Further constants of the Linux ABI (values of Linux on amd64) *)

Definition O_WRONLY : Z := 1.
Definition AT_SYMLINK_NOFOLLOW : Z := 256.   (* 0x100 *)
Definition AT_REMOVEDIR : Z := 512.          (* 0x200 *)
Definition AT_SYMLINK_FOLLOW : Z := 1024.    (* 0x400 *)
Definition AT_EMPTY_PATH : Z := 4096.        (* 0x1000 *)
Definition IN_ATTRIB : Z := 4.
Definition CAP_DAC_READ_SEARCH : Z := 2.
Definition CAP_SYS_CHROOT : Z := 18.
Definition ModeFileTypeMask : Z := 61440.    (* 0o170000, S_IFMT *)
Definition ModeSocket : Z := 49152.          (* 0o140000 *)
Definition ModeRegular : Z := 32768.         (* 0o100000 *)
Definition ModeBlockDevice : Z := 24576.     (* 0o060000 *)
Definition ModeCharacterDevice : Z := 8192.  (* 0o020000 *)
Definition ModeNamedPipe : Z := 4096.        (* 0o010000 *)
Definition UTIME_NOW : Z := 1073741823.      (* (1 << 30) - 1 *)
Definition UTIME_OMIT : Z := 1073741822.     (* (1 << 30) - 2 *)
Definition POSIX_FADV_NORMAL : Z := 0.
Definition POSIX_FADV_RANDOM : Z := 1.
Definition POSIX_FADV_SEQUENTIAL : Z := 2.
Definition POSIX_FADV_WILLNEED : Z := 3.
Definition POSIX_FADV_DONTNEED : Z := 4.
Definition POSIX_FADV_NOREUSE : Z := 5.
Definition LOCK_SH : Z := 1.
Definition LOCK_EX : Z := 2.
Definition LOCK_NB : Z := 4.
Definition LOCK_UN : Z := 8.
Definition MFD_CLOEXEC : Z := 1.
Definition MFD_ALLOW_SEALING : Z := 2.
Definition NAME_MAX : Z := 255.
Definition PathMax : Z := 4096.              (* unix.PathMax *)

(** Error values of these operations that the resolvers and the open engine
    never produce; an error of the wider range is one or the other. *)
Inductive ErrnoX := EBUSY | ENOTEMPTY | ERANGE | EWOULDBLOCK.

Definition errorX := option (Errno + ErrnoX).

Definition widen (e : error) : errorX :=
  match e with Some e => Some (inl e) | None => None end.

(** lock.LockType, for the two kinds of region lock. *)
Inductive LockType := ReadLock | WriteLock.

(** linux.FileMode is a uint16: the conversion of a wider unsigned value. *)
Definition FileMode (z : Z) : Z := z mod 2 ^ 16.

(** mode.FileType() *)
Definition FileType (mode : Z) : Z := Z.land mode ModeFileTypeMask.

(** fs.TimeSpec; a ktime.Time is kept as its count of nanoseconds, 0 for the
    zero value. *)
Record TimeSpec := {
  ATime : Z; ATimeOmit : bool; ATimeSetSystemTime : bool;
  MTime : Z; MTimeOmit : bool; MTimeSetSystemTime : bool }.

(** linux.Timespec and linux.Timeval: two int64 fields each. *)
Record Timespec := { ts_Sec : Z; ts_Nsec : Z }.
Record Timeval := { tv_Sec : Z; tv_Usec : Z }.

(** *** The collaborators of these operations *)

Record Ops (World : Type) := {
  FromTimespec : Timespec -> Z;                      (* ktime.FromTimespec *)
  FromTimeval : Timeval -> Z;                        (* ktime.FromTimeval *)
  o_HasCapability : Credentials -> Z -> bool;        (* t.HasCapability *)
  o_HasCapabilityInRoot : Credentials -> Z -> bool;  (* t.HasCapabilityIn(cp,
                                                        UserNamespace().Root()) *)
  o_CheckOwnership : World -> Credentials -> Dirent -> bool;
  o_MayDelete : World -> Credentials -> Dirent -> Dirent -> string -> error;
  o_CreateDirectory : World -> Dirent -> Dirent -> string ->
                      FilePermissions -> error * World;
  o_CreateFifo : World -> Dirent -> Dirent -> string ->
                 FilePermissions -> error * World;
  o_CreateLink : World -> Dirent -> Dirent -> string -> string ->
                 error * World;
  o_CreateHardLink : World -> Dirent -> Dirent -> Dirent -> string ->
                     error * World;
  o_Remove : World -> Dirent -> Dirent -> string -> bool -> error * World;
  o_RemoveDirectory : World -> Dirent -> Dirent -> string -> errorX * World;
  o_Rename : World -> Dirent -> Dirent -> string -> Dirent -> string ->
             errorX * World;                         (* fs.Rename *)
  o_FullName : World -> Dirent -> Dirent -> string * bool;
  (* LockCtx.BSD.LockRegionVFS1(file, type, whole file, blocker):
     the last argument tells whether a blocker is passed *)
  o_LockRegionBSD : World -> File -> LockType -> bool -> bool * World;
  o_UnlockRegionBSD : World -> File -> World;
  (* t.NewFDAt(fd, file, flags), on the state of the task *)
  o_NewFDAt : Kernel World -> Z -> File -> FDFlags -> error * Kernel World;
  (* t.CopyInString(addr, maxlen) *)
  o_CopyInStringMax : World -> Z -> Z -> string + Errno;
  (* fs.NewDirent(t, tmpfs.NewMemfdInode(t, allowSeals), name) *)
  o_NewMemfd : World -> bool -> string -> Dirent * World;
  o_SetTimestamps : World -> Dirent -> TimeSpec -> error * World;
  o_CopyOutBytes : World -> Z -> string -> (Z * error) * World;
  o_CopyTimespecSliceIn : World -> Z -> (Timespec * Timespec) + Errno;
  o_CopyTimevalSliceIn : World -> Z -> (Timeval * Timeval) + Errno }.

Arguments FromTimespec {World} _ _.
Arguments FromTimeval {World} _ _.
Arguments o_HasCapability {World} _ _ _.
Arguments o_HasCapabilityInRoot {World} _ _ _.
Arguments o_CheckOwnership {World} _ _ _ _.
Arguments o_MayDelete {World} _ _ _ _ _ _.
Arguments o_CreateDirectory {World} _ _ _ _ _ _.
Arguments o_CreateFifo {World} _ _ _ _ _ _.
Arguments o_CreateLink {World} _ _ _ _ _ _.
Arguments o_CreateHardLink {World} _ _ _ _ _ _.
Arguments o_Remove {World} _ _ _ _ _ _.
Arguments o_RemoveDirectory {World} _ _ _ _ _.
Arguments o_SetTimestamps {World} _ _ _ _.
Arguments o_Rename {World} _ _ _ _ _ _ _.
Arguments o_FullName {World} _ _ _ _.
Arguments o_LockRegionBSD {World} _ _ _ _ _.
Arguments o_UnlockRegionBSD {World} _ _ _.
Arguments o_NewFDAt {World} _ _ _ _ _.
Arguments o_CopyInStringMax {World} _ _ _ _.
Arguments o_NewMemfd {World} _ _ _ _.
Arguments o_CopyOutBytes {World} _ _ _ _.
Arguments o_CopyTimespecSliceIn {World} _ _ _.
Arguments o_CopyTimevalSliceIn {World} _ _ _.

Section Operations.
Context {World : Type} (B : Backend World) (X : Ops World).

Local Abbreviation K := (Kernel World).
Local Abbreviation M := (M World).

(** *** Primitives *)

(** A call that may change the state of the collaborators. *)
Definition world_op {A} (f : World -> A * World) : M A :=
  fun s => (fst (f (k_world s)), set_world s (snd (f (k_world s)))).

Definition task_creds : M Credentials :=
  get (fun s => Credentials_at s (k_creds s)).

Definition CheckOwnership (d : Dirent) : M bool :=
  c <- task_creds ;; w <- get k_world ;; ret (o_CheckOwnership X w c d).

Definition Dirent_MayDelete (parent root : Dirent) (name : string) : M error :=
  c <- task_creds ;; w <- get k_world ;;
  ret (o_MayDelete X w c root parent name).

Definition Dirent_CreateDirectory (parent root : Dirent) (name : string)
    (perms : FilePermissions) : M error :=
  world_op (fun w => o_CreateDirectory X w root parent name perms).

Definition Dirent_CreateFifo (parent root : Dirent) (name : string)
    (perms : FilePermissions) : M error :=
  world_op (fun w => o_CreateFifo X w root parent name perms).

Definition Dirent_CreateLink (parent root : Dirent) (oldname newname : string)
  : M error :=
  world_op (fun w => o_CreateLink X w root parent oldname newname).

Definition Dirent_CreateHardLink (parent root target : Dirent)
    (name : string) : M error :=
  world_op (fun w => o_CreateHardLink X w root parent target name).

Definition Dirent_Remove (parent root : Dirent) (name : string)
    (dirPath : bool) : M error :=
  world_op (fun w => o_Remove X w root parent name dirPath).

Definition Dirent_RemoveDirectory (parent root : Dirent) (name : string)
  : M errorX :=
  world_op (fun w => o_RemoveDirectory X w root parent name).

Definition Inode_SetTimestamps (d : Dirent) (ts : TimeSpec) : M error :=
  world_op (fun w => o_SetTimestamps X w d ts).

Definition CopyOutBytes (addr : Z) (b : string) : M (Z * error) :=
  world_op (fun w => o_CopyOutBytes X w addr b).

(** *** mknodAt (lines 212-282) *)

Definition mknodAt_fn (mode : Z) (root d : Dirent) (name : string) (_ : Z)
  : M error :=
  ty <- StableAttr B d ;;
  if negb (IsDir ty) then ret (Some ENOTDIR) else
  (* Do we have the appropriate permissions on the parent? *)
  e <- CheckPermission B CtxTask d
         {| pm_Read := false; pm_Write := true; pm_Execute := true |} ;;
  match e with
  | Some e => ret (Some e)
  | None =>
      (* Attempt a creation. *)
      umask <- Umask ;;
      let perms := FilePermsFromMode B (Z.ldiff mode (FileMode umask)) in
      let ft := FileType mode in
      if (ft =? 0) || (ft =? ModeRegular) then
        f <- Dirent_Create B d root name
               {| ff_Read := true; ff_Write := true; ff_Directory := false;
                  ff_LargeFile := false; ff_Truncate := false;
                  ff_Append := false; ff_NonBlocking := false |} perms ;;
        match f with
        | inr e => ret (Some e)
        | inl file => DecRefFile file ;; ret None
        end
      else if ft =? ModeNamedPipe then Dirent_CreateFifo d root name perms
      else if ft =? ModeSocket then ret (Some EOPNOTSUPP)
      else if (ft =? ModeCharacterDevice) || (ft =? ModeBlockDevice)
      then ret (Some EPERM)
      else ret (Some EINVAL)
  end.

Definition mknodAt (dirFD addr mode : Z) : M error :=
  p <- copyInPath B addr false ;;
  match p with
  | inr e => ret (Some e)
  | inl (path, dirPath) =>
      if dirPath then ret (Some ENOENT)
      else fileOpAt B dirFD path (mknodAt_fn mode)
  end.

(** *** mkdirAt (lines 1168-1201) *)

Definition mkdirAt_fn (mode : Z) (root d : Dirent) (name : string) (_ : Z)
  : M error :=
  ty <- StableAttr B d ;;
  if negb (IsDir ty) then ret (Some ENOTDIR) else
  (* Does this directory exist already? *)
  r <- FindInode B root (Some d) name MaxSymlinkTraversals ;;
  match fst r with
  | inl f =>
      (* The directory existed.  defer f.DecRef(t) *)
      DecRef f ;; ret (Some EEXIST)
  | inr err =>
      if bool_decide (err = EACCES) then
        (* Permission denied while walking to the directory. *)
        ret (Some err)
      else
        (* Do we have write permissions on the parent? *)
        e <- CheckPermission B CtxTask d
               {| pm_Read := false; pm_Write := true; pm_Execute := true |} ;;
        match e with
        | Some e => ret (Some e)
        | None =>
            (* Create the directory. *)
            umask <- Umask ;;
            Dirent_CreateDirectory d root name
              (FilePermsFromMode B (Z.ldiff mode (FileMode umask)))
        end
  end.

Definition mkdirAt (dirFD addr mode : Z) : M error :=
  p <- copyInPath B addr false ;;
  match p with
  | inr e => ret (Some e)
  | inl (path, _) => fileOpAt B dirFD path (mkdirAt_fn mode)
  end.

(** *** symlinkAt (lines 1260-1290) *)

Definition symlinkAt_fn (oldPath : string) (root d : Dirent) (name : string)
    (_ : Z) : M error :=
  ty <- StableAttr B d ;;
  if negb (IsDir ty) then ret (Some ENOTDIR) else
  (* Make sure we have write permissions on the parent directory. *)
  e <- CheckPermission B CtxTask d
         {| pm_Read := false; pm_Write := true; pm_Execute := true |} ;;
  match e with
  | Some e => ret (Some e)
  | None => Dirent_CreateLink d root oldPath name
  end.

Definition symlinkAt (dirFD newAddr oldAddr : Z) : M error :=
  p <- copyInPath B newAddr false ;;
  match p with
  | inr e => ret (Some e)
  | inl (newPath, dirPath) =>
      if dirPath then ret (Some ENOENT) else
      (* The oldPath is copied in verbatim. *)
      o <- CopyInString B oldAddr ;;
      match o with
      | inr e => ret (Some e)
      | inl oldPath =>
          if String.eqb oldPath ""%string then ret (Some ENOENT)
          else fileOpAt B dirFD newPath (symlinkAt_fn oldPath)
      end
  end.

(** *** mayLinkAt and linkAt (lines 1309-1402) *)

Definition mayLinkAt (target : Dirent) : M error :=
  own <- CheckOwnership target ;;
  if own then ret None else
  (* If we are not the owner, then the file must be regular and have
     Read+Write permissions. *)
  ty <- StableAttr B target ;;
  if negb (IsRegular ty) then ret (Some EPERM) else
  e <- CheckPermission B CtxTask target
         {| pm_Read := true; pm_Write := true; pm_Execute := false |} ;;
  match e with
  | Some _ => ret (Some EPERM)
  | None => ret None
  end.

Definition linkAt_fn (target : Dirent) (root newParent : Dirent)
    (newName : string) (_ : Z) : M error :=
  ty <- StableAttr B newParent ;;
  if negb (IsDir ty) then ret (Some ENOTDIR) else
  (* Make sure we have write permissions on the parent directory. *)
  e <- CheckPermission B CtxTask newParent
         {| pm_Read := false; pm_Write := true; pm_Execute := true |} ;;
  match e with
  | Some e => ret (Some e)
  | None => Dirent_CreateHardLink newParent root target newName
  end.

Definition linkAt (oldDirFD oldAddr newDirFD newAddr : Z)
    (resolve allowEmpty : bool) : M error :=
  o <- copyInPath B oldAddr allowEmpty ;;
  match o with
  | inr e => ret (Some e)
  | inl (oldPath, _) =>
      n <- copyInPath B newAddr false ;;
      match n with
      | inr e => ret (Some e)
      | inl (newPath, dirPath) =>
          if dirPath then ret (Some ENOENT) else
          if allowEmpty && String.eqb oldPath ""%string then
            t <- GetFile oldDirFD ;;
            match t with
            | None => ret (Some EBADF)
            | Some target =>
                (* defer target.DecRef(t) *)
                err <- (e <- mayLinkAt (f_dirent target) ;;
                        match e with
                        | Some e => ret (Some e)
                        | None =>
                            (* Resolve the target directory. *)
                            fileOpAt B newDirFD newPath
                              (linkAt_fn (f_dirent target))
                        end) ;;
                DecRefFile target ;;
                ret err
            end
          else
            (* Resolve oldDirFD and oldAddr to a dirent. *)
            fileOpOn B oldDirFD oldPath resolve
              (fun root target _ =>
                 e <- mayLinkAt target ;;
                 match e with
                 | Some e => ret (Some e)
                 | None =>
                     (* Next resolve newDirFD and newAddr to the parent
                        dirent and name. *)
                     fileOpAt B newDirFD newPath (linkAt_fn target)
                 end)
      end
  end.

(** Link and Linkat (lines 1404-1446); the result is always (0, nil, err). *)
Definition Link (oldAddr newAddr : Z) : M error :=
  linkAt AT_FDCWD oldAddr AT_FDCWD newAddr false false.

Definition Linkat (oldDirFD oldAddr newDirFD newAddr flags : Z) : M error :=
  (* Sanity check flags. *)
  if negb (Z.ldiff flags (Z.lor AT_SYMLINK_FOLLOW AT_EMPTY_PATH) =? 0)
  then ret (Some EINVAL) else
  let resolve := Z.land flags AT_SYMLINK_FOLLOW =? AT_SYMLINK_FOLLOW in
  let allowEmpty := Z.land flags AT_EMPTY_PATH =? AT_EMPTY_PATH in
  c <- task_creds ;;
  if allowEmpty && negb (o_HasCapabilityInRoot X c CAP_DAC_READ_SEARCH)
  then ret (Some ENOENT)
  else linkAt oldDirFD oldAddr newDirFD newAddr resolve allowEmpty.

(** *** readlinkAt (lines 1452-1488) *)

Definition readlinkAt_fn (bufAddr size : Z) (root d : Dirent) (_ : Z)
  : M error :=
  (* Check for Read permission. *)
  e <- CheckPermission B CtxTask d
         {| pm_Read := true; pm_Write := false; pm_Execute := false |} ;;
  match e with
  | Some e => ret (Some e)
  | None =>
      r <- Inode_Readlink B d ;;
      match r with
      | inr e =>
          if bool_decide (e = ENOLINK) then ret (Some EINVAL)
          else ret (Some e)
      | inl s =>
          let buffer :=
            if size <? Z.of_nat (String.length s)
            then String.substring 0 (Z.to_nat size) s else s in
          c <- CopyOutBytes bufAddr buffer ;;
          (* Update frame return value: copied = uintptr(n). *)
          set_result (wrap_uint64 (fst c)) ;;
          ret (snd c)
      end
  end.

Definition readlinkAt (dirFD addr bufAddr size : Z) : M (Z * error) :=
  set_result 0 ;;
  p <- copyInPath B addr false ;;
  match p with
  | inr e => ret (0, Some e)
  | inl (path, dirPath) =>
      if dirPath then ret (0, Some ENOENT) else
      err <- fileOpOn B dirFD path false (readlinkAt_fn bufAddr size) ;;
      copied <- get k_frame ;;
      ret (copied, err)
  end.

(** *** unlinkAt (lines 1515-1532) *)

Definition unlinkAt_fn (dirPath : bool) (root d : Dirent) (name : string)
    (_ : Z) : M error :=
  ty <- StableAttr B d ;;
  if negb (IsDir ty) then ret (Some ENOTDIR) else
  e <- Dirent_MayDelete d root name ;;
  match e with
  | Some e => ret (Some e)
  | None => Dirent_Remove d root name dirPath
  end.

Definition unlinkAt (dirFD addr : Z) : M error :=
  p <- copyInPath B addr false ;;
  match p with
  | inr e => ret (Some e)
  | inl (path, dirPath) => fileOpAt B dirFD path (unlinkAt_fn dirPath)
  end.

(** *** Ftruncate (lines 1607-1651); the result is always (0, nil, err) *)

Definition Ftruncate (fd length : Z) : M error :=
  f <- GetFile fd ;;
  match f with
  | None => ret (Some EBADF)
  | Some file =>
      (* defer file.DecRef(t) *)
      err <- ((* Reject truncation if the file flags do not permit this
                 operation. *)
              if negb (ff_Write (f_flags file)) then ret (Some EINVAL) else
              ty <- StableAttr B (f_dirent file) ;;
              if negb (IsFile ty) then ret (Some EINVAL) else
              if length <? 0 then ret (Some EINVAL) else
              cur <- get k_fsize_cur ;;
              if cur <=? wrap_uint64 length then
                SendSignal {| Signo := SIGXFSZ; Code := SI_USER |} ;;
                ret (Some EFBIG)
              else
                e <- Inode_Truncate B (f_dirent file) length ;;
                match e with
                | Some e => ret (Some e)
                | None =>
                    (* File length modified, generate notification. *)
                    InotifyEvent (f_dirent file) IN_MODIFY ;; ret None
                end) ;;
      DecRefFile file ;;
      ret err
  end.

(** *** Fadvise64 (lines 1126-1162); the result is always (0, nil, err) *)

Definition Fadvise64 (fd length advice : Z) : M error :=
  (* Note: offset is allowed to be negative. *)
  if length <? 0 then ret (Some EINVAL) else
  f <- GetFile fd ;;
  match f with
  | None => ret (Some EBADF)
  | Some file =>
      (* defer file.DecRef(t) *)
      err <- (ty <- StableAttr B (f_dirent file) ;;
              (* If the FD refers to a pipe or FIFO, return error. *)
              if IsPipe ty then ret (Some ESPIPE) else
              if (advice =? POSIX_FADV_NORMAL) || (advice =? POSIX_FADV_RANDOM)
                 || (advice =? POSIX_FADV_SEQUENTIAL)
                 || (advice =? POSIX_FADV_WILLNEED)
                 || (advice =? POSIX_FADV_DONTNEED)
                 || (advice =? POSIX_FADV_NOREUSE)
              then ret None
              else ret (Some EINVAL)) ;;
      DecRefFile file ;;
      ret err
  end.

(** *** chownAt and its callers (lines 1748-1816) *)

Definition chownAt (fd addr : Z) (resolve allowEmpty : bool) (uid gid : Z)
  : M error :=
  p <- copyInPath B addr allowEmpty ;;
  match p with
  | inr e => ret (Some e)
  | inl (path, _) =>
      if String.eqb path ""%string then
        (* Annoying. What's wrong with fchown? *)
        f <- GetFile fd ;;
        match f with
        | None => ret (Some EBADF)
        | Some file =>
            (* defer file.DecRef(t) *)
            err <- chown B (f_dirent file) uid gid ;;
            DecRefFile file ;;
            ret err
        end
      else
        fileOpOn B fd path resolve (fun root d _ => chown B d uid gid)
  end.

Definition Chown (addr uid gid : Z) : M error :=
  chownAt AT_FDCWD addr true false uid gid.

Definition Lchown (addr uid gid : Z) : M error :=
  chownAt AT_FDCWD addr false false uid gid.

Definition Fchown (fd uid gid : Z) : M error :=
  f <- GetFile fd ;;
  match f with
  | None => ret (Some EBADF)
  | Some file =>
      (* defer file.DecRef(t) *)
      err <- chown B (f_dirent file) uid gid ;;
      DecRefFile file ;;
      ret err
  end.

Definition Fchownat (dirFD addr uid gid flags : Z) : M error :=
  if negb (Z.ldiff flags (Z.lor AT_EMPTY_PATH AT_SYMLINK_NOFOLLOW) =? 0)
  then ret (Some EINVAL)
  else chownAt dirFD addr (Z.land flags AT_SYMLINK_NOFOLLOW =? 0)
         (negb (Z.land flags AT_EMPTY_PATH =? 0)) uid gid.

(** *** chmod and its callers (lines 1818-1875) *)

Definition chmod (d : Dirent) (mode : Z) : M error :=
  (* Must own file to change mode. *)
  own <- CheckOwnership d ;;
  if negb own then ret (Some EPERM) else
  ok <- Inode_SetPermissions B d (FilePermsFromMode B mode) ;;
  if negb ok then ret (Some EPERM) else
  (* File attribute changed, generate notification. *)
  InotifyEvent d IN_ATTRIB ;;
  ret None.

Definition chmodAt (fd addr mode : Z) : M error :=
  p <- copyInPath B addr false ;;
  match p with
  | inr e => ret (Some e)
  | inl (path, _) => fileOpOn B fd path true (fun root d _ => chmod d mode)
  end.

Definition Fchmod (fd mode : Z) : M error :=
  f <- GetFile fd ;;
  match f with
  | None => ret (Some EBADF)
  | Some file =>
      (* defer file.DecRef(t) *)
      err <- chmod (f_dirent file) mode ;;
      DecRefFile file ;;
      ret err
  end.

(** *** utimes and its callers (lines 1877-2044) *)

Definition defaultSetToSystemTimeSpec : TimeSpec :=
  {| ATime := 0; ATimeOmit := false; ATimeSetSystemTime := true;
     MTime := 0; MTimeOmit := false; MTimeSetSystemTime := true |}.

Definition setTimestamp (ts : TimeSpec) (root d : Dirent) (_ : Z) : M error :=
  (* Does the task own the file? *)
  own <- CheckOwnership d ;;
  e <- (if negb own then
          (* Trying to set a specific time? Must be owner. *)
          if (ATimeOmit ts || negb (ATimeSetSystemTime ts))
             && (MTimeOmit ts || negb (MTimeSetSystemTime ts))
          then ret (Some EPERM)
          else
            (* Trying to set to current system time? Must have write
               access. *)
            CheckPermission B CtxTask d
              {| pm_Read := false; pm_Write := true; pm_Execute := false |}
        else ret None) ;;
  match e with
  | Some e => ret (Some e)
  | None =>
      e <- Inode_SetTimestamps d ts ;;
      match e with
      | Some e => ret (Some e)
      | None =>
          (* File attribute changed, generate notification. *)
          InotifyEvent d IN_ATTRIB ;; ret None
      end
  end.

Definition utimes (dirFD addr : Z) (ts : TimeSpec) (resolve : bool)
  : M error :=
  if (addr =? 0) && negb (dirFD =? AT_FDCWD) then
    if negb resolve then
      (* Linux returns EINVAL in this case. See utimes.c. *)
      ret (Some EINVAL)
    else
      f <- GetFile dirFD ;;
      match f with
      | None => ret (Some EBADF)
      | Some file =>
          (* defer f.DecRef(t) *)
          root <- RootDirectory ;;
          (* defer root.DecRef(t) *)
          err <- setTimestamp ts root (f_dirent file) MaxSymlinkTraversals ;;
          DecRef root ;;
          DecRefFile file ;;
          ret err
      end
  else
    p <- copyInPath B addr false ;;
    match p with
    | inr e => ret (Some e)
    | inl (path, _) => fileOpOn B dirFD path resolve (setTimestamp ts)
    end.

(** timespecIsValid (lines 1979-1983): Nsec is an int64. *)
Definition timespecIsValid (ts : Timespec) : bool :=
  (ts_Nsec ts =? UTIME_OMIT) || (ts_Nsec ts =? UTIME_NOW)
  || (ts_Nsec ts <? 1000000000).

Definition Utimensat (dirFD pathnameAddr timesAddr flags : Z) : M error :=
  (* No timesAddr argument will be interpreted as current system time. *)
  r <- (if negb (timesAddr =? 0) then
          w <- get k_world ;;
          match o_CopyTimespecSliceIn X w timesAddr with
          | inr e => ret (inr (Some e))
          | inl (t0, t1) =>
              if negb (timespecIsValid t0) || negb (timespecIsValid t1)
              then ret (inr (Some EINVAL)) else
              (* If both are UTIME_OMIT, this is a noop. *)
              if (ts_Nsec t0 =? UTIME_OMIT) && (ts_Nsec t1 =? UTIME_OMIT)
              then ret (inr None) else
              ret (inl {| ATime := FromTimespec X t0;
                          ATimeOmit := ts_Nsec t0 =? UTIME_OMIT;
                          ATimeSetSystemTime := ts_Nsec t0 =? UTIME_NOW;
                          MTime := FromTimespec X t1;
                          MTimeOmit := ts_Nsec t1 =? UTIME_OMIT;
                          MTimeSetSystemTime := ts_Nsec t0 =? UTIME_NOW |})
          end
        else ret (inl defaultSetToSystemTimeSpec)) ;;
  match r with
  | inr res => ret res
  | inl ts =>
      utimes dirFD pathnameAddr ts (Z.land flags AT_SYMLINK_NOFOLLOW =? 0)
  end.

Definition Futimesat (dirFD pathnameAddr timesAddr : Z) : M error :=
  r <- (if negb (timesAddr =? 0) then
          w <- get k_world ;;
          match o_CopyTimevalSliceIn X w timesAddr with
          | inr e => ret (inr e)
          | inl (t0, t1) =>
              if (1000000 <=? tv_Usec t0) || (tv_Usec t0 <? 0)
                 || (1000000 <=? tv_Usec t1) || (tv_Usec t1 <? 0)
              then ret (inr EINVAL) else
              ret (inl {| ATime := FromTimeval X t0; ATimeOmit := false;
                          ATimeSetSystemTime := false;
                          MTime := FromTimeval X t1; MTimeOmit := false;
                          MTimeSetSystemTime := false |})
          end
        else ret (inl defaultSetToSystemTimeSpec)) ;;
  match r with
  | inr e => ret (Some e)
  | inl ts => utimes dirFD pathnameAddr ts true
  end.

(** *** Wider errors through the resolver

    fileOpAt for a closure whose errors are of the wider range: the
    resolution of [fileOpAt_resolve], the closure, the releases.  On a
    closure with errors in [Errno] it is fileOpAt (lemma
    [fileOpAtX_widen]). *)

Definition fileOpAtX (dirFD : Z) (path : string)
    (fn : Dirent -> Dirent -> string -> Z -> M errorX) : M errorX :=
  r <- fileOpAt_resolve B dirFD path ;;
  match r with
  | inr e => ret (Some (inl e))
  | inl (root, parent, name, rem, post) =>
      err <- fn root parent name rem ;;
      release_all post ;;
      ret err
  end.

(** *** rmdirAt and Unlinkat (lines 1220-1251, 1540-1549) *)

Definition rmdirAt_fn (root d : Dirent) (name : string) (_ : Z) : M errorX :=
  ty <- StableAttr B d ;;
  if negb (IsDir ty) then ret (Some (inl ENOTDIR)) else
  (* Linux returns different ernos when the path ends in single dot vs.
     double dots. *)
  if String.eqb name "." then ret (Some (inl EINVAL)) else
  if String.eqb name ".." then ret (Some (inr ENOTEMPTY)) else
  e <- Dirent_MayDelete d root name ;;
  match e with
  | Some e => ret (Some (inl e))
  | None => Dirent_RemoveDirectory d root name
  end.

Definition rmdirAt (dirFD addr : Z) : M errorX :=
  p <- copyInPath B addr false ;;
  match p with
  | inr e => ret (Some (inl e))
  | inl (path, _) =>
      (* Special case: removing the root always returns EBUSY. *)
      if String.eqb path "/" then ret (Some (inr EBUSY))
      else fileOpAtX dirFD path rmdirAt_fn
  end.

Definition Unlinkat (dirFD addr flags : Z) : M errorX :=
  if has_flag flags AT_REMOVEDIR then rmdirAt dirFD addr
  else e <- unlinkAt dirFD addr ;; ret (widen e).

(** *** renameAt (lines 2050-2087) *)

Definition is_dot_name (name : string) : bool :=
  String.eqb name "" || String.eqb name "." || String.eqb name "..".

Definition renameAt (oldDirFD oldAddr newDirFD newAddr : Z) : M errorX :=
  n <- copyInPath B newAddr false ;;
  match n with
  | inr e => ret (Some (inl e))
  | inl (newPath, _) =>
      o <- copyInPath B oldAddr false ;;
      match o with
      | inr e => ret (Some (inl e))
      | inl (oldPath, _) =>
          fileOpAtX oldDirFD oldPath
            (fun root oldParent oldName _ =>
               ty <- StableAttr B oldParent ;;
               if negb (IsDir ty) then ret (Some (inl ENOTDIR)) else
               (* Rename rejects paths that end in ".", "..", or empty
                  (i.e. the root) with EBUSY. *)
               if is_dot_name oldName then ret (Some (inr EBUSY)) else
               fileOpAtX newDirFD newPath
                 (fun root newParent newName _ =>
                    ty <- StableAttr B newParent ;;
                    if negb (IsDir ty) then ret (Some (inl ENOTDIR)) else
                    if is_dot_name newName then ret (Some (inr EBUSY)) else
                    world_op (fun w => o_Rename X w root oldParent oldName
                                         newParent newName)))
      end
  end.

(** *** Getcwd (lines 670-700) *)

Definition Getcwd (addr size : Z) : M (Z * errorX) :=
  cwd <- WorkingDirectory ;;
  (* defer cwd.DecRef(t) *)
  root <- RootDirectory ;;
  (* defer root.DecRef(t) *)
  r <- (w <- get k_world ;;
        (* Get our fullname from the root and preprend unreachable if the
           root was unreachable from our current dirent. *)
        let s := if snd (o_FullName X w cwd root)
                 then fst (o_FullName X w cwd root)
                 else ("(unreachable)" ++ fst (o_FullName X w cwd root))%string
        in
        (* Note this is >= because we need a terminator. *)
        if size <=? Z.of_nat (String.length s)
        then ret (0, Some (inr ERANGE)) else
        (* Copy out the path name for the node. *)
        c <- CopyOutBytes addr s ;;
        match snd c with
        | Some e => ret (0, Some (inl e))
        | None =>
            (* Top it off with a terminator. *)
            c2 <- CopyOutBytes (wrap_uint64 (addr + fst c))
                    (String Ascii.zero EmptyString) ;;
            ret (wrap_uint64 (fst c + 1), widen (snd c2))
        end) ;;
  DecRef root ;;
  DecRef cwd ;;
  ret r.

(** *** Chroot, Chdir, Fchdir (lines 702-778); the result is always
    (0, nil, err) *)

(** Modelled from the spec: a node kept beyond the call is held "via a
    different, freshly acquired reference" by the context that keeps it;
    the FSContext (kernel.FSContext, not among the sources) stores the
    directory with a reference of its own and gives back the one on the
    directory it replaces. *)
Definition SetWorkingDirectory (d : Dirent) : M unit :=
  old <- get k_wd ;;
  (fun s => (tt, mkKernel (k_world s) (k_root s) d (k_umask s) (k_fdt s)
                   (k_fdlimit s) (k_drefs s) (k_frefs s) (k_credheap s)
                   (k_creds s) (k_fsize_cur s) (k_signals s) (k_frame s)
                   (k_log s))) ;;
  IncRef d ;;
  DecRef old.
Definition SetRootDirectory (d : Dirent) : M unit :=
  old <- get k_root ;;
  (fun s => (tt, mkKernel (k_world s) d (k_wd s) (k_umask s) (k_fdt s)
                   (k_fdlimit s) (k_drefs s) (k_frefs s) (k_credheap s)
                   (k_creds s) (k_fsize_cur s) (k_signals s) (k_frame s)
                   (k_log s))) ;;
  IncRef d ;;
  DecRef old.

Definition exec_only : PermMask :=
  {| pm_Read := false; pm_Write := false; pm_Execute := true |}.

Definition Chroot (addr : Z) : M error :=
  c <- task_creds ;;
  if negb (o_HasCapability X c CAP_SYS_CHROOT) then ret (Some EPERM) else
  p <- copyInPath B addr false ;;
  match p with
  | inr e => ret (Some e)
  | inl (path, _) =>
      fileOpOn B AT_FDCWD path true
        (fun root d _ =>
           (* Is it a directory? *)
           ty <- StableAttr B d ;;
           if negb (IsDir ty) then ret (Some ENOTDIR) else
           (* Does it have execute permissions? *)
           e <- CheckPermission B CtxTask d exec_only ;;
           match e with
           | Some e => ret (Some e)
           | None => SetRootDirectory d ;; ret None
           end)
  end.


Definition Chdir (addr : Z) : M error :=
  p <- copyInPath B addr false ;;
  match p with
  | inr e => ret (Some e)
  | inl (path, _) =>
      fileOpOn B AT_FDCWD path true
        (fun root d _ =>
           (* Is it a directory? *)
           ty <- StableAttr B d ;;
           if negb (IsDir ty) then ret (Some ENOTDIR) else
           (* Does it have execute permissions? *)
           e <- CheckPermission B CtxTask d exec_only ;;
           match e with
           | Some e => ret (Some e)
           | None => SetWorkingDirectory d ;; ret None
           end)
  end.

Definition Fchdir (fd : Z) : M error :=
  f <- GetFile fd ;;
  match f with
  | None => ret (Some EBADF)
  | Some file =>
      (* defer file.DecRef(t) *)
      err <- (ty <- StableAttr B (f_dirent file) ;;
              if negb (IsDir ty) then ret (Some ENOTDIR) else
              e <- CheckPermission B CtxTask (f_dirent file) exec_only ;;
              match e with
              | Some e => ret (Some e)
              | None => SetWorkingDirectory (f_dirent file) ;; ret None
              end) ;;
      DecRefFile file ;;
      ret err
  end.

(** *** Dup, Dup2, Dup3 (lines 801-862) *)

Definition Dup (fd : Z) : M (Z * error) :=
  f <- GetFile fd ;;
  match f with
  | None => ret (0, Some EBADF)
  | Some file =>
      (* defer file.DecRef(t) *)
      r <- (nf <- NewFDFrom 0 file {| CloseOnExec := false |} ;;
            match nf with
            | inr _ => ret (0, Some EMFILE)
            | inl newFD => ret (newFD, None)
            end) ;;
      DecRefFile file ;;
      ret r
  end.

Definition Dup3 (oldfd newfd flags : Z) : M (Z * error) :=
  if oldfd =? newfd then ret (0, Some EINVAL) else
  f <- GetFile oldfd ;;
  match f with
  | None => ret (0, Some EBADF)
  | Some oldFile =>
      (* defer oldFile.DecRef(t) *)
      r <- (e <- (fun s => o_NewFDAt X s newfd oldFile
                             {| CloseOnExec := has_flag flags O_CLOEXEC |}) ;;
            match e with
            | Some e => ret (0, Some e)
            | None => ret (wrap_uint64 newfd, None)
            end) ;;
      DecRefFile oldFile ;;
      ret r
  end.

Definition Dup2 (oldfd newfd : Z) : M (Z * error) :=
  (* If oldfd is a valid file descriptor, and newfd has the same value as
     oldfd, then dup2() does nothing, and returns newfd. *)
  if oldfd =? newfd then
    f <- GetFile oldfd ;;
    match f with
    | None => ret (0, Some EBADF)
    | Some oldFile => DecRefFile oldFile ;; ret (wrap_uint64 newfd, None)
    end
  else
    (* Zero out flags arg to be used by Dup3. *)
    Dup3 oldfd newfd 0.

(** *** Flock (lines 2161-2215); the result is always (0, nil, err) *)

Definition Flock (fd operation : Z) : M errorX :=
  f <- GetFile fd ;;
  match f with
  | None =>
      (* flock(2): EBADF fd is not an open file descriptor. *)
      ret (Some (inl EBADF))
  | Some file =>
      (* defer file.DecRef(t) *)
      let nonblocking := negb (Z.land operation LOCK_NB =? 0) in
      let operation := Z.ldiff operation LOCK_NB in
      let lock (ty : LockType) : M errorX :=
        ok <- world_op (fun w => o_LockRegionBSD X w file ty
                                   (negb nonblocking)) ;;
        if negb ok
        then ret (Some (if nonblocking then inr EWOULDBLOCK else inl EINTR))
        else ret None in
      err <- (if operation =? LOCK_EX then lock WriteLock
              else if operation =? LOCK_SH then lock ReadLock
              else if operation =? LOCK_UN then
                (fun s => (tt, set_world s
                                 (o_UnlockRegionBSD X (k_world s) file))) ;;
                ret None
              else
                (* flock(2): EINVAL operation is invalid. *)
                ret (Some (inl EINVAL))) ;;
      DecRefFile file ;;
      ret err
  end.

(** *** Open and Creat (lines 465-498) *)

Definition Open (fuel : nat) (addr flags mode : Z) : M (Z * error) :=
  if has_flag flags O_CREAT then createAt B fuel AT_FDCWD addr flags mode
  else openAt B AT_FDCWD addr flags.

Definition Creat (fuel : nat) (addr mode : Z) : M (Z * error) :=
  createAt B fuel AT_FDCWD addr (Z.lor O_WRONLY O_TRUNC) mode.

(** *** MemfdCreate (lines 2217-2265) *)

Definition memfdPrefix : string := "/memfd:".
Definition memfdAllFlags : Z := Z.lor MFD_CLOEXEC MFD_ALLOW_SEALING.
Definition memfdMaxNameLen : Z :=
  NAME_MAX - Z.of_nat (String.length memfdPrefix) + 1.

(** Modelled from the spec: in the create path the core "adopts the returned
    node's reference"; fs.NewDirent (not among the sources) hands the new
    dirent over with one reference, the caller's. *)
Definition NewMemfdDirent (allowSeals : bool) (name : string) : M Dirent :=
  d <- world_op (fun w => o_NewMemfd X w allowSeals name) ;;
  IncRef d ;;
  ret d.

Definition MemfdCreate (addr flags : Z) : M (Z * error) :=
  if negb (Z.ldiff flags memfdAllFlags =? 0) then
    (* Unknown bits in flags. *)
    ret (0, Some EINVAL)
  else
  let allowSeals := negb (Z.land flags MFD_ALLOW_SEALING =? 0) in
  let cloExec := negb (Z.land flags MFD_CLOEXEC =? 0) in
  w <- get k_world ;;
  match o_CopyInStringMax X w addr
          (PathMax - Z.of_nat (String.length memfdPrefix)) with
  | inr e => ret (0, Some e)
  | inl name =>
      if memfdMaxNameLen <? Z.of_nat (String.length name)
      then ret (0, Some EINVAL) else
      let name := (memfdPrefix ++ name)%string in
      dirent <- NewMemfdDirent allowSeals name ;;
      (* Per Linux, mm/shmem.c:__shmem_file_setup(), memfd files are set up
         with FMODE_READ | FMODE_WRITE. *)
      f <- Inode_GetFile B dirent
             {| ff_Read := true; ff_Write := true; ff_Directory := false;
                ff_LargeFile := false; ff_Truncate := false;
                ff_Append := false; ff_NonBlocking := false |} ;;
      match f with
      | inr e => ret (0, Some e)
      | inl file =>
          (* defer dirent.DecRef(t); defer file.DecRef(t) *)
          r <- (nf <- NewFDFrom 0 file {| CloseOnExec := cloExec |} ;;
                match nf with
                | inr e => ret (0, Some e)
                | inl newFD => ret (newFD, None)
                end) ;;
          DecRefFile file ;;
          DecRef dirent ;;
          ret r
      end
  end.

End Operations.


(** ** What a call leaves as it was *)

(** Number of times a dirent occurs in a list. *)
Definition occ (x : Dirent) (l : list Dirent) : Z :=
  Z.of_nat (List.length (List.filter (fun y => bool_decide (y = x)) l)).

(** The task's side of the state is the same in [s] and [s']: descriptor
    table, directories, umask, credentials, limits, signals, result variable
    and every reference count.  The state of the collaborators and the log of
    calls may differ. *)
Definition same_task {World} (s s' : Kernel World) : Prop :=
  k_fdt s' = k_fdt s /\ k_fdlimit s' = k_fdlimit s /\
  k_root s' = k_root s /\ k_wd s' = k_wd s /\ k_umask s' = k_umask s /\
  k_credheap s' = k_credheap s /\ k_creds s' = k_creds s /\
  k_fsize_cur s' = k_fsize_cur s /\ k_signals s' = k_signals s /\
  k_frame s' = k_frame s /\
  (forall x, k_drefs s' x = k_drefs s x) /\
  (forall f, k_frefs s' f = k_frefs s f).

(** Nothing changed but the log of calls. *)
Definition same_state {World} (s s' : Kernel World) : Prop :=
  k_world s' = k_world s /\ same_task s s'.

(** The path a syscall reads at [addr]: the string there is not empty, and
    it is [path] once its trailing slashes are trimmed, [dirPath] telling
    whether there were any. *)
Definition path_at {World} (B : Backend World) (s : Kernel World) (addr : Z)
    (path : string) (dirPath : bool) : Prop :=
  exists raw, b_CopyInString B (k_world s) addr = inl raw /\
              raw <> ""%string /\
              TrimTrailingSlashes B raw = (path, dirPath).

(** The state once the string at [addr] has been read. *)
Definition copied {World} (addr : Z) (s : Kernel World) : Kernel World :=
  set_log s (k_log s ++ [EvCopyInString addr]).

(** The task's credentials and the permissions a new node gets under the
    task's umask. *)
Definition creds_of {World} (s : Kernel World) : Credentials :=
  Credentials_at s (k_creds s).
Definition new_perms {World} (B : Backend World) (s : Kernel World)
    (mode : Z) : FilePermissions :=
  FilePermsFromMode B (Z.ldiff mode (FileMode (k_umask s))).

Definition write_exec : PermMask :=
  {| pm_Read := false; pm_Write := true; pm_Execute := true |}.

Definition write_only : PermMask :=
  {| pm_Read := false; pm_Write := true; pm_Execute := false |}.
Definition read_write : PermMask :=
  {| pm_Read := true; pm_Write := true; pm_Execute := false |}.
Definition read_only : PermMask :=
  {| pm_Read := true; pm_Write := false; pm_Execute := false |}.

(** The hard-link policy in one test: the caller owns the target, or the
    target is a regular file the caller may read and write. *)
Definition may_link {World} (B : Backend World) (X : Ops World)
    (s : Kernel World) (target : Dirent) : bool :=
  o_CheckOwnership X (k_world s) (creds_of s) target
  || (IsRegular (b_StableAttr B (k_world s) target)
      && bool_decide (b_CheckPermission B (k_world s) (creds_of s) target
                        read_write = None)).

(** Whether a time specification asks for an explicit or omitted time on
    both sides, the request a caller who does not own the file is refused. *)
Definition sets_no_system_time (ts : TimeSpec) : bool :=
  (ATimeOmit ts || negb (ATimeSetSystemTime ts))
  && (MTimeOmit ts || negb (MTimeSetSystemTime ts)).

(** What a change of directory may leave: the filesystem, the descriptor
    table and the file counts as they were; after a failure, the directory
    [dir] of the task and the dirent counts as they were; after a success,
    a directory the caller may search, with the reference of the task's
    context moved from the old directory to it. *)
Definition moved_to {World} (B : Backend World)
    (dir : Kernel World -> Dirent) (s : Kernel World)
    (r : error * Kernel World) : Prop :=
  k_world (snd r) = k_world s /\ k_fdt (snd r) = k_fdt s /\
  (forall f, k_frefs (snd r) f = k_frefs s f) /\
  match fst r with
  | Some _ =>
      dir (snd r) = dir s /\ forall x, k_drefs (snd r) x = k_drefs s x
  | None =>
      IsDir (b_StableAttr B (k_world s) (dir (snd r))) = true /\
      b_CheckPermission B (k_world s) (creds_of s) (dir (snd r)) exec_only
      = None /\
      forall x, k_drefs (snd r) x
                = k_drefs s x + one_if (bool_decide (x = dir (snd r)))
                  - one_if (bool_decide (x = dir s))
  end.


(** ** A test double for the collaborators of the other operations

    The naming graph of [TestFS], with the tables the further operations
    need: timestamps, bytes written to user memory, and the time values
    user memory holds. *)

Module TestOps.
Import TestFS.

Record TWorld2 := {
  tw_fs : TWorld;
  tw_times : list (Dirent * TimeSpec);       (* timestamps last set *)
  tw_out : list (Z * string);                (* bytes copied out, by address *)
  tw_timespecs : list (Z * (Timespec * Timespec));
  tw_timevals : list (Z * (Timeval * Timeval));
  tw_locks : list (nat * LockType) }.         (* whole-file locks, by file *)

Definition with_fs (w : TWorld2) (v : TWorld) : TWorld2 :=
  {| tw_fs := v; tw_times := tw_times w; tw_out := tw_out w;
     tw_timespecs := tw_timespecs w; tw_timevals := tw_timevals w; tw_locks := tw_locks w |}.

(** An operation of [TestFS] on the naming graph inside the larger world. *)
Definition on_fs {A} (f : TWorld -> A * TWorld) (w : TWorld2) : A * TWorld2 :=
  (fst (f (tw_fs w)), with_fs w (snd (f (tw_fs w)))).

Definition backend : Backend TWorld2 :=
  {| SplitLast := SplitLast TestFS.backend;
     TrimTrailingSlashes := TrimTrailingSlashes TestFS.backend;
     ConvertIntr := ConvertIntr TestFS.backend;
     flagsToPermissions := flagsToPermissions TestFS.backend;
     linuxToFlags := linuxToFlags TestFS.backend;
     FilePermsFromMode := FilePermsFromMode TestFS.backend;
     MapToKUID := MapToKUID TestFS.backend;
     MapToKGID := MapToKGID TestFS.backend;
     KUID_In := KUID_In TestFS.backend;
     InGroup := InGroup TestFS.backend;
     b_CopyInString := fun w => t_CopyInString (tw_fs w);
     b_FindInode := fun w => t_find (tw_fs w);
     b_FindLink := fun w => t_find (tw_fs w);
     b_StableAttr := fun w => type_of (tw_fs w);
     b_UnstableAttr := fun w d => inl (attr_of (tw_fs w) d);
     b_CheckPermission := fun w => t_CheckPermission (tw_fs w);
     b_CheckCapability := fun _ c _ cap => Z.testbit (EffectiveCaps c) cap;
     b_GetFile := fun w d fl => on_fs (fun v => t_GetFile v d fl) w;
     b_Truncate := fun w d len => on_fs (fun v => t_Truncate v d len) w;
     b_Allocate := fun w d off len => on_fs (fun v => t_Allocate v d off len) w;
     b_Create := fun w root parent name fl perms =>
                   on_fs (fun v => t_Create v root parent name fl perms) w;
     b_Getlink := fun w => t_Getlink (tw_fs w);
     b_Readlink := fun w => t_Readlink (tw_fs w);
     b_SetOwner := fun w d o => on_fs (fun v => t_SetOwner v d o) w;
     b_SetPermissions := fun w d p =>
                           on_fs (fun v => t_SetPermissions v d p) w |}.

(** A new node of type [ty] under [parent], unless the name is taken. *)
Definition add_node (v : TWorld) (parent : Dirent) (name : string)
    (ty : InodeType) (perms : FilePermissions) (text : option string)
  : error * TWorld :=
  match lookup_entry v parent name with
  | Some _ => (Some EEXIST, v)
  | None =>
      let d := tw_next v in
      (None,
       {| tw_entries := (parent, name, d) :: tw_entries v;
          tw_type := (d, ty) :: tw_type v;
          tw_link := match text with
                     | Some t => (d, t) :: tw_link v
                     | None => tw_link v
                     end;
          tw_deny := tw_deny v;
          tw_attr := (d, set_perms default_attr perms) :: tw_attr v;
          tw_mem := tw_mem v;
          tw_next := S d |})
  end.

Definition t_CreateHardLink (v : TWorld) (parent target : Dirent)
    (name : string) : error * TWorld :=
  match lookup_entry v parent name with
  | Some _ => (Some EEXIST, v)
  | None => (None, set_entries v ((parent, name, target) :: tw_entries v))
  end.

Definition is_entry (parent : Dirent) (name : string)
    (e : Dirent * string * Dirent) : bool :=
  bool_decide (fst (fst e) = parent) && String.eqb (snd (fst e)) name.

(** Removal of a name; [dir] tells which kind of node it has to be. *)
Definition remove_entry (v : TWorld) (parent : Dirent) (name : string)
    (dir : bool) : error * TWorld :=
  match lookup_entry v parent name with
  | None => (Some ENOENT, v)
  | Some d =>
      if Bool.eqb (IsDir (type_of v d)) dir then
        (None,
         set_entries v
           (List.filter (fun e => negb (is_entry parent name e))
              (tw_entries v)))
      else (Some (if dir then ENOTDIR else EISDIR), v)
  end.

Definition t_MayDelete (v : TWorld) (c : Credentials) (parent : Dirent)
    (name : string) : error :=
  match lookup_entry v parent name with
  | None => Some ENOENT
  | Some _ =>
      t_CheckPermission v c parent
        {| pm_Read := false; pm_Write := true; pm_Execute := true |}
  end.

Definition t_CheckOwnership (v : TWorld) (c : Credentials) (d : Dirent)
  : bool :=
  (ua_Owner_UID (attr_of v d) =? EffectiveKUID c)
  || negb (EffectiveCaps c =? 0).

Definition t_Rename (v : TWorld) (oldParent : Dirent) (oldName : string)
    (newParent : Dirent) (newName : string) : error * TWorld :=
  match lookup_entry v oldParent oldName with
  | None => (Some ENOENT, v)
  | Some d =>
      (None,
       set_entries v
         ((newParent, newName, d)
          :: List.filter (fun e => negb (is_entry oldParent oldName e)
                                   && negb (is_entry newParent newName e))
               (tw_entries v)))
  end.

(** The name of a node under the root, for the nodes right below it. *)
Definition t_FullName (v : TWorld) (d : Dirent) : string :=
  match List.find (fun e => bool_decide (snd e = d)) (tw_entries v) with
  | Some e => String "/" (snd (fst e))
  | None => "/"%string
  end.

Definition with_locks (w : TWorld2) (l : list (nat * LockType)) : TWorld2 :=
  {| tw_fs := tw_fs w; tw_times := tw_times w; tw_out := tw_out w;
     tw_timespecs := tw_timespecs w; tw_timevals := tw_timevals w;
     tw_locks := l |}.

(** A lock held by another file conflicts unless both are read locks. *)
Definition conflicts (l : list (nat * LockType)) (f : nat) (ty : LockType)
  : bool :=
  existsb (fun h => negb (Nat.eqb (fst h) f)
                    && match ty, snd h with
                       | ReadLock, ReadLock => false
                       | _, _ => true
                       end) l.

Definition unlock (l : list (nat * LockType)) (f : nat)
  : list (nat * LockType) :=
  List.filter (fun h => negb (Nat.eqb (fst h) f)) l.

Definition ops : Ops TWorld2 :=
  {| FromTimespec := fun ts => ts_Sec ts * 1000000000 + ts_Nsec ts;
     FromTimeval := fun tv => tv_Sec tv * 1000000000 + tv_Usec tv * 1000;
     o_HasCapability := fun c cap => Z.testbit (EffectiveCaps c) cap;
     o_HasCapabilityInRoot := fun c cap => Z.testbit (EffectiveCaps c) cap;
     o_CheckOwnership := fun w => t_CheckOwnership (tw_fs w);
     o_MayDelete := fun w c _ parent name =>
                      t_MayDelete (tw_fs w) c parent name;
     o_CreateDirectory := fun w _ parent name perms =>
       on_fs (fun v => add_node v parent name Directory perms None) w;
     o_CreateFifo := fun w _ parent name perms =>
       on_fs (fun v => add_node v parent name Pipe perms None) w;
     o_CreateLink := fun w _ parent oldname newname =>
       on_fs (fun v => add_node v parent newname Symlink 511 (Some oldname)) w;
     o_CreateHardLink := fun w _ parent target name =>
       on_fs (fun v => t_CreateHardLink v parent target name) w;
     o_Remove := fun w _ parent name _ =>
       on_fs (fun v => remove_entry v parent name false) w;
     o_RemoveDirectory := fun w _ parent name =>
       let r := on_fs (fun v => remove_entry v parent name true) w in
       (widen (fst r), snd r);
     o_Rename := fun w _ oldParent oldName newParent newName =>
       let r := on_fs (fun v => t_Rename v oldParent oldName newParent
                                  newName) w in
       (widen (fst r), snd r);
     o_FullName := fun w d root => (t_FullName (tw_fs w) d, true);
     o_LockRegionBSD := fun w f ty _ =>
       if conflicts (tw_locks w) (f_id f) ty then (false, w)
       else (true, with_locks w ((f_id f, ty) :: unlock (tw_locks w) (f_id f)));
     o_UnlockRegionBSD := fun w f =>
       with_locks w (unlock (tw_locks w) (f_id f));
     o_NewFDAt := fun s fd f fl =>
       if (fd <? 0) || (Z.of_nat (k_fdlimit s) <=? fd) then (Some EBADF, s)
       else (None, set_fdt s (<[fd := (f, fl)]> (k_fdt s)));
     o_CopyInStringMax := fun w addr max =>
       match t_CopyInString (tw_fs w) addr with
       | inl str => if max <? Z.of_nat (String.length str)
                    then inr ENAMETOOLONG else inl str
       | inr e => inr e
       end;
     o_NewMemfd := fun w _ _ =>
       (tw_next (tw_fs w),
        with_fs w (set_next
                     (set_types (tw_fs w)
                        ((tw_next (tw_fs w), RegularFile) :: tw_type (tw_fs w)))
                     (S (tw_next (tw_fs w)))));
     o_SetTimestamps := fun w d ts =>
       (None,
        {| tw_fs := tw_fs w; tw_times := (d, ts) :: tw_times w;
           tw_out := tw_out w; tw_timespecs := tw_timespecs w;
           tw_timevals := tw_timevals w; tw_locks := tw_locks w |});
     o_CopyOutBytes := fun w addr b =>
       ((Z.of_nat (String.length b), None),
        {| tw_fs := tw_fs w; tw_times := tw_times w;
           tw_out := (addr, b) :: tw_out w; tw_timespecs := tw_timespecs w;
           tw_timevals := tw_timevals w; tw_locks := tw_locks w |});
     o_CopyTimespecSliceIn := fun w addr =>
       match assoc addr (tw_timespecs w) with
       | Some t => inl t
       | None => inr EFAULT
       end;
     o_CopyTimevalSliceIn := fun w addr =>
       match assoc addr (tw_timevals w) with
       | Some t => inl t
       | None => inr EFAULT
       end |}.

(** The tree of [TestFS.world0]; user memory holds, besides its paths,
    two pairs of timespecs (at 100 and 101) and a pair of timevals (at
    102). *)
Definition more_mem : list (Z * string) :=
  [(11, "/f2"%string); (12, "/d/"%string); (13, "/d/."%string);
   (14, "/d/.."%string); (15, "/"%string); (16, "/d/e"%string);
   (17, "target/"%string); (18, "/g"%string)].

Definition world : TWorld2 :=
  {| tw_fs :=
       {| tw_entries := (0%nat, "p"%string, 8%nat) :: tw_entries world0;
          tw_type := (8%nat, Pipe) :: tw_type world0;
          tw_link := tw_link world0;
          tw_deny := tw_deny world0;
          tw_attr := tw_attr world0;
          tw_mem := more_mem ++ tw_mem world0;
          tw_next := tw_next world0 |};
     tw_times := []; tw_out := [];
     tw_timespecs :=
       [(100, ({| ts_Sec := 5; ts_Nsec := UTIME_NOW |},
               {| ts_Sec := 7; ts_Nsec := 99 |}));
        (101, ({| ts_Sec := 0; ts_Nsec := UTIME_OMIT |},
               {| ts_Sec := 0; ts_Nsec := UTIME_OMIT |}));
        (103, ({| ts_Sec := 5; ts_Nsec := 11 |},
               {| ts_Sec := 7; ts_Nsec := UTIME_NOW |}))];
     tw_timevals :=
       [(102, ({| tv_Sec := 5; tv_Usec := 1 |},
               {| tv_Sec := 7; tv_Usec := 2 |}))];
     tw_locks := [(9%nat, WriteLock)] |}.

(** The tasks of [TestFS] on this world: [kernel] has no descriptor,
    [kernel_fds] has 3 on /f for writing, 4 on the directory /d, 5 on /f
    read-only and 6 on the pipe /p; [kernel_su] runs as root. *)
Definition on_world (s : Kernel TWorld) (t : gmap Z (File * FDFlags))
  : Kernel TWorld2 :=
  {| k_world := world; k_root := k_root s; k_wd := k_wd s;
     k_umask := k_umask s; k_fdt := t; k_fdlimit := k_fdlimit s;
     k_drefs := k_drefs s; k_frefs := k_frefs s;
     k_credheap := k_credheap s; k_creds := k_creds s;
     k_fsize_cur := k_fsize_cur s; k_signals := k_signals s;
     k_frame := k_frame s; k_log := k_log s |}.

Definition kernel : Kernel TWorld2 := on_world kernel0 ∅.
Definition kernel_fds : Kernel TWorld2 :=
  on_world kernel1
    (<[6 := ({| f_id := 10; f_dirent := 8%nat; f_flags := rw_flags |},
             {| CloseOnExec := false |})]> (k_fdt kernel1)).
Definition kernel_su : Kernel TWorld2 := on_world kernel_root ∅.


(** The task of [kernel_fds] with CAP_DAC_READ_SEARCH. *)
Definition kernel_search : Kernel TWorld2 :=
  set_credheap kernel_fds
    [set_EffectiveCaps user_creds (Z.shiftl 1 CAP_DAC_READ_SEARCH)].

End TestOps.


(** * lisafs: the tracker of donated descriptors (pkg/lisafs/communicator.go)

    [fdTracker] keeps the donated descriptors in a Go slice.  A slice is a
    window on a backing array that other slices may share, so the arrays are
    kept in a heap, by address, and a slice is the address of its array, a
    length and a capacity. *)

Module Lisafs.

Record Slice := { sl_array : nat; sl_len : nat; sl_cap : nat }.

Abbreviation Heap := (list (list Z)).

(** The nil slice: no array, length and capacity 0. *)
Definition nil_slice : Slice := {| sl_array := 0; sl_len := 0; sl_cap := 0 |}.

Definition array_at (h : Heap) (a : nat) : list Z := default [] (h !! a).

(** The elements a slice shows. *)
Definition elements (h : Heap) (sl : Slice) : list Z :=
  take (sl_len sl) (array_at h (sl_array sl)).

(** The capacity and the array of a slice agree with the heap. *)
Definition wf (h : Heap) (sl : Slice) : Prop :=
  (sl_len sl <= sl_cap sl)%nat /\
  ((0 < sl_cap sl)%nat ->
   (sl_array sl < length h)%nat /\
   length (array_at h (sl_array sl)) = sl_cap sl).

Section Tracker.
(** The capacity the runtime picks for the array that replaces a full one of
    capacity [c]; it is raised to what the new element needs. *)
Variable grow : nat -> nat.

(** append(s, x): within the capacity the element is written in place, in
    the array the slice shares; otherwise the elements move to a new,
    larger array. *)
Definition append (h : Heap) (sl : Slice) (x : Z) : Slice * Heap :=
  if (sl_len sl <? sl_cap sl)%nat then
    ({| sl_array := sl_array sl; sl_len := S (sl_len sl);
        sl_cap := sl_cap sl |},
     <[sl_array sl := <[sl_len sl := x]> (array_at h (sl_array sl))]> h)
  else
    let c := Nat.max (S (sl_len sl)) (grow (sl_cap sl)) in
    ({| sl_array := length h; sl_len := S (sl_len sl); sl_cap := c |},
     h ++ [elements h sl ++ x :: replicate (c - S (sl_len sl)) 0]).

(** s[:0] *)
Definition reslice0 (sl : Slice) : Slice :=
  {| sl_array := sl_array sl; sl_len := 0; sl_cap := sl_cap sl |}.

Record fdTracker := { fds : Slice }.

(** The state a method of the tracker runs in: the heap and the tracker. *)
Definition State : Type := Heap * fdTracker.

(** AddDonationFD (lines 52-54) *)
Definition AddDonationFD (st : State) (fd : Z) : State :=
  let r := append (fst st) (fds (snd st)) fd in
  (snd r, {| fds := fst r |}).

(** ReleaseFDs (lines 57-61) *)
Definition ReleaseFDs (st : State) : Slice * State :=
  let ret := fds (snd st) in
  (ret, (fst st, {| fds := reslice0 (fds (snd st)) |})).

End Tracker.

(** A tracker right after its creation, and a growth policy to run it:
    doubling. *)
Definition new_tracker : State := ([], {| fds := nil_slice |}).
Definition double (c : nat) : nat := (2 * c)%nat.

End Lisafs.

(** * Properties *)

(** Symbolic execution of the state-passing definitions: unfold the
    primitives, then split on the innermost test that blocks reduction. *)
Ltac run :=
  cbv [bind ret get emit RootDirectory WorkingDirectory GetFile Umask
       IncRef DecRef IncRefFile DecRefFile FindInode FindLink StableAttr
       CopyInString CheckPermission CheckCapability Inode_GetFile
       Inode_Truncate Inode_Allocate Dirent_Create Inode_Getlink
       Inode_Readlink Inode_UnstableAttr Inode_SetOwner Inode_SetPermissions
       InotifyEvent SendSignal set_result] in *;
  simpl in *.

Ltac simple_scrut x :=
  lazymatch x with
  | context [if _ then _ else _] => fail
  | context [match _ with _ => _ end] => fail
  | _ => idtac
  end.

Ltac break_match :=
  match goal with
  | |- context [match ?x with _ => _ end] => simple_scrut x; destruct x eqn:?
  | |- context [if ?x then _ else _] => simple_scrut x; destruct x eqn:?
  end.

Ltac count_refs :=
  intros;
  unfold acquired, released, acquired_file, released_file, count, one_if, bump;
  simpl; repeat (case_bool_decide; simpl); repeat (case_decide; simpl); subst;
  try congruence; try lia.

Ltac log_ext :=
  eexists; split;
  [first [rewrite <- ?app_assoc; reflexivity | symmetry; apply app_nil_r]|].

Section Resolvers.
Context {World : Type} (B : Backend World).
Local Abbreviation K := (Kernel World).

(** ** The resolvers *)

(** fileOpOn is its lookup part, then the closure, then the release of the
    resolved dirent. *)
Lemma fileOpOn_split dirFD path resolve fn (s : K) :
  fileOpOn B dirFD path resolve fn s =
  (let (r, s1) := fileOpOn_lookup B dirFD path resolve s in
   match r with
   | inr e => (Some e, s1)
   | inl (root, d, rem) =>
       let (err, s2) := fn root d rem s1 in (err, snd (DecRef d s2))
   end).
Proof.
  unfold fileOpOn, fileOpOn_lookup.
  repeat (run; try reflexivity; break_match).
Qed.

Lemma fileOpAt_split dirFD path fn (s : K) :
  fileOpAt B dirFD path fn s =
  (let (r, s1) := fileOpAt_resolve B dirFD path s in
   match r with
   | inr e => (Some e, s1)
   | inl (root, parent, name, rem, post) =>
       let (err, s2) := fn root parent name rem s1 in
       (err, snd (release_all post s2))
   end).
Proof.
  unfold fileOpAt, fileOpAt_resolve.
  destruct (String.eqb _ "/") eqn:E1; [run; repeat break_match; reflexivity|].
  destruct (String.eqb _ "." && _) eqn:E2;
    [run; repeat break_match; reflexivity|].
  rewrite fileOpOn_split. unfold bind at 1.
  destruct (fileOpOn_lookup _ _ _ _ _) as [[[[root d] rem]|e] s1]; run;
    reflexivity.
Qed.

(** What the lookup part of fileOpOn leaves behind: the counts are those
    before the call, plus one reference on the resolved dirent when there is
    one; among its own calls every reference taken is given back, but that
    one. *)
Lemma fileOpOn_lookup_exit dirFD path resolve (s : K) :
  let r := fst (fileOpOn_lookup B dirFD path resolve s) in
  let s1 := snd (fileOpOn_lookup B dirFD path resolve s) in
  let d := match r with inl (_, d, _) => Some d | inr _ => None end in
  (forall x, k_drefs s1 x = k_drefs s x + one_if (bool_decide (d = Some x))) /\
  (forall f, k_frefs s1 f = k_frefs s f) /\
  (match r with inl (root, _, _) => root = k_root s | inr _ => True end) /\
  exists evs, k_log s1 = k_log s ++ evs /\
    (forall x, acquired x evs
               = released x evs + one_if (bool_decide (d = Some x))) /\
    (forall f, acquired_file f evs = released_file f evs).
Proof.
  unfold fileOpOn_lookup.
  repeat (run; break_match); run.
  all: split; [count_refs|split; [count_refs|split; [reflexivity|]]].
  all: log_ext; split; count_refs.
Qed.

(** X30.  References of the directory-relative resolver.  Take a state in
    which no count is negative.  On an exit before the closure, every count
    is back to its value before the call and every reference the resolver
    took was released once.  Otherwise the closure is entered with the
    resolver holding one reference, on the resolved dirent, which is
    therefore strictly positive; every other count, the root's included, is
    as before the call, the resolver having given back what it took on the
    root, the working directory and the anchor's file.  The reference on the
    resolved dirent is released once, after the closure has returned and
    whatever its result, and then the resolver's acquisitions and releases
    are balanced for every dirent and every file. *)
Theorem fileOpOn_references dirFD path resolve fn (s : K) :
  (forall x, 0 <= k_drefs s x) ->
  let r := fst (fileOpOn_lookup B dirFD path resolve s) in
  let s1 := snd (fileOpOn_lookup B dirFD path resolve s) in
  exists pre, k_log s1 = k_log s ++ pre /\
  match r with
  | inr e =>
      fileOpOn B dirFD path resolve fn s = (Some e, s1) /\
      (forall x, k_drefs s1 x = k_drefs s x) /\
      (forall f, k_frefs s1 f = k_frefs s f) /\
      (forall x, acquired x pre = released x pre) /\
      (forall f, acquired_file f pre = released_file f pre)
  | inl (root, d, rem) =>
      let s2 := snd (fn root d rem s1) in
      let s' := snd (fileOpOn B dirFD path resolve fn s) in
      (* at the entry of the closure *)
      0 < k_drefs s1 d /\
      (forall x, k_drefs s1 x = k_drefs s x + one_if (bool_decide (x = d))) /\
      (forall f, k_frefs s1 f = k_frefs s f) /\
      acquired d pre = released d pre + 1 /\
      (* after the closure *)
      fst (fileOpOn B dirFD path resolve fn s) = fst (fn root d rem s1) /\
      k_log s' = k_log s2 ++ [EvRelease d] /\
      (forall x, k_drefs s' x = k_drefs s2 x - one_if (bool_decide (x = d))) /\
      (forall f, k_frefs s' f = k_frefs s2 f) /\
      (forall x, acquired x (pre ++ [EvRelease d])
                 = released x (pre ++ [EvRelease d])) /\
      (forall f, acquired_file f (pre ++ [EvRelease d])
                 = released_file f (pre ++ [EvRelease d]))
  end.
Proof.
  intros Hnn r s1.
  destruct (fileOpOn_lookup_exit dirFD path resolve s)
    as (Hd & Hf & Hr & pre & Hlog & Hacq & Hfacq).
  fold r s1 in Hd, Hf, Hr, Hlog, Hacq, Hfacq.
  exists pre. split; [exact Hlog|].
  pose proof (fileOpOn_split dirFD path resolve fn s) as Hsplit.
  destruct (fileOpOn_lookup B dirFD path resolve s) as [r' s1'] eqn:E.
  subst r s1. simpl in *.
  destruct r' as [[[root d] rem]|e].
  - destruct (fn root d rem s1') as [err s2] eqn:Efn. rewrite Hsplit. simpl.
    subst root.
    assert (Hone : forall x : Dirent,
               one_if (bool_decide (Some d = Some x))
               = one_if (bool_decide (x = d))).
    { intros x. unfold one_if. repeat case_bool_decide; congruence. }
    repeat split.
    + rewrite Hd. specialize (Hnn d). rewrite bool_decide_eq_true_2 by done.
      simpl. lia.
    + intros x. rewrite Hd, Hone. reflexivity.
    + exact Hf.
    + rewrite Hacq. rewrite bool_decide_eq_true_2 by done. reflexivity.
    + intros x. unfold bump, one_if.
      case_decide; case_bool_decide; subst; try congruence; lia.
    + intros x. specialize (Hacq x). rewrite Hone in Hacq.
      unfold acquired, released, count in *.
      rewrite !List.filter_app, !List.length_app. simpl.
      unfold one_if in *. repeat case_bool_decide; subst; simpl; try congruence;
        lia.
    + intros f. specialize (Hfacq f).
      unfold acquired_file, released_file, count in *.
      rewrite !List.filter_app, !List.length_app. simpl. lia.
  - rewrite Hsplit. repeat split.
    + intros x. rewrite Hd. rewrite bool_decide_eq_false_2 by done.
      simpl. lia.
    + exact Hf.
    + intros x. rewrite Hacq. rewrite bool_decide_eq_false_2 by done.
      simpl. lia.
    + exact Hfacq.
Qed.

(** C6.  The anchor of a resolution.  With a relative path and an explicit
    descriptor: a descriptor that is not open gives EBADF and leaves the
    state as it was; an open one that is not a directory gives ENOTDIR,
    nothing having been done but to take the file and give it back.  With an
    absolute path the descriptor plays no part: any two descriptors give the
    same result and the same state, and fileOpOn takes the task's root, asks
    for the lookup of the path from that root with no relative directory,
    gives the root back, and either returns the error of the lookup or
    calls the closure on the dirent found, with the root and the budget
    left, releases that dirent and returns the closure's result. *)
Theorem fileOpOn_anchor dirFD path resolve fn (s : K) :
  (is_absolute path = false -> dirFD <> AT_FDCWD ->
   (k_fdt s !! dirFD = None ->
    fileOpOn B dirFD path resolve fn s = (Some EBADF, s)) /\
   (forall f fl, k_fdt s !! dirFD = Some (f, fl) ->
      IsDir (b_StableAttr B (k_world s) (f_dirent f)) = false ->
      let r := fileOpOn B dirFD path resolve fn s in
      fst r = Some ENOTDIR /\
      k_log (snd r)
      = k_log s ++ [EvAcquireFile (f_id f); EvReleaseFile (f_id f)] /\
      k_world (snd r) = k_world s /\
      (forall x, k_drefs (snd r) x = k_drefs s x) /\
      (forall g, k_frefs (snd r) g = k_frefs s g))) /\
  (is_absolute path = true ->
   let root := k_root s in
   let look :=
     if resolve
     then b_FindInode B (k_world s) root None path MaxSymlinkTraversals
     else b_FindLink B (k_world s) root None path MaxSymlinkTraversals in
   let ev :=
     if resolve then EvFindInode root None path MaxSymlinkTraversals
     else EvFindLink root None path MaxSymlinkTraversals in
   let r := fileOpOn B dirFD path resolve fn s in
   (forall dirFD', fileOpOn B dirFD' path resolve fn s = r) /\
   match fst look with
   | inr e =>
       fst r = Some e /\
       k_log (snd r) = k_log s ++ [EvAcquire root; ev; EvRelease root] /\
       k_world (snd r) = k_world s /\
       (forall x, k_drefs (snd r) x = k_drefs s x) /\
       (forall g, k_frefs (snd r) g = k_frefs s g)
   | inl d =>
       exists s1,
         k_log s1 = k_log s ++ [EvAcquire root; ev; EvAcquire d;
                                EvRelease root] /\
         k_world s1 = k_world s /\ k_fdt s1 = k_fdt s /\
         k_root s1 = root /\ k_wd s1 = k_wd s /\
         (forall x, k_drefs s1 x
                    = k_drefs s x + one_if (bool_decide (x = d))) /\
         (forall g, k_frefs s1 g = k_frefs s g) /\
         r = (fst (fn root d (snd look) s1),
              snd (DecRef d (snd (fn root d (snd look) s1))))
   end).
Proof.
  split.
  - intros Hrel Hfd.
    assert (Hne : (dirFD =? AT_FDCWD) = false) by (apply Z.eqb_neq; exact Hfd).
    split.
    + intros Hnone. unfold fileOpOn. rewrite Hrel, Hne. run.
      rewrite Hnone. reflexivity.
    + intros f fl Hsome Hdir r. subst r. unfold fileOpOn.
      rewrite Hrel, Hne. run. rewrite Hsome. run. rewrite Hdir. simpl.
      split; [reflexivity|]. split; [rewrite <- app_assoc; reflexivity|].
      split; [reflexivity|]. split; [reflexivity|]. count_refs.
  - intros Habs root look ev r. split.
    + intros dirFD'. subst r. unfold fileOpOn. rewrite Habs. reflexivity.
    + subst r look ev root. unfold fileOpOn. rewrite Habs.
      destruct resolve; run.
      * destruct (b_FindInode B (k_world s) (k_root s) None path
                    MaxSymlinkTraversals) as [[d|e] rem]; run.
        -- match goal with |- context [fn _ _ _ ?S] => exists S end.
           simpl. rewrite <- !app_assoc.
           repeat (split; [first [reflexivity | count_refs]|]).
           destruct (fn _ _ _ _); reflexivity.
        -- split; [reflexivity|]. split; [rewrite <- !app_assoc; reflexivity|].
           split; [reflexivity|]. split; [count_refs|reflexivity].
      * destruct (b_FindLink B (k_world s) (k_root s) None path
                    MaxSymlinkTraversals) as [[d|e] rem]; run.
        -- match goal with |- context [fn _ _ _ ?S] => exists S end.
           simpl. rewrite <- !app_assoc.
           repeat (split; [first [reflexivity | count_refs]|]).
           destruct (fn _ _ _ _); reflexivity.
        -- split; [reflexivity|]. split; [rewrite <- !app_assoc; reflexivity|].
           split; [reflexivity|]. split; [count_refs|reflexivity].
Qed.

End Resolvers.

Section OpenProperties.
Context {World : Type} (B : Backend World).
Local Abbreviation K := (Kernel World).

(** The lookup part of fileOpOn touches the reference counts and the log
    only. *)
Lemma fileOpOn_lookup_frame dirFD path resolve (s : K) :
  let s1 := snd (fileOpOn_lookup B dirFD path resolve s) in
  k_world s1 = k_world s /\ k_fdt s1 = k_fdt s /\
  k_credheap s1 = k_credheap s /\ k_creds s1 = k_creds s /\
  k_signals s1 = k_signals s /\ k_frame s1 = k_frame s /\
  k_root s1 = k_root s /\ k_wd s1 = k_wd s /\ k_umask s1 = k_umask s /\
  k_fsize_cur s1 = k_fsize_cur s /\ k_fdlimit s1 = k_fdlimit s.
Proof.
  unfold fileOpOn_lookup.
  repeat (run; break_match); run; repeat split; reflexivity.
Qed.

Lemma copyInPath_ok addr allowEmpty raw (s : K) :
  b_CopyInString B (k_world s) addr = inl raw ->
  (raw = ""%string -> allowEmpty = true) ->
  copyInPath B addr allowEmpty s =
  (inl (TrimTrailingSlashes B raw),
   set_log s (k_log s ++ [EvCopyInString addr])).
Proof.
  intros Hcopy Hempty. unfold copyInPath. run. rewrite Hcopy.
  destruct (String.eqb raw "") eqn:E; simpl; [|reflexivity].
  apply String.eqb_eq in E. rewrite (Hempty E). reflexivity.
Qed.

(** What the closure of openAt does on a directory opened for writing: the
    permission check is made first and its error wins; EISDIR is the answer
    only when the check passes.  Nothing else is called. *)
Lemma openAt_fn_directory flags resolve dirPath root d rem (s : K) :
  IsDir (b_StableAttr B (k_world s) d) = true ->
  ff_Write (linuxToFlags B flags) = true ->
  let c := Credentials_at s (k_creds s) in
  let p := flagsToPermissions B flags in
  openAt_fn B flags resolve dirPath root d rem s =
  (match b_CheckPermission B (k_world s) c d p with
   | Some e => Some e
   | None => Some EISDIR
   end,
   set_log s (k_log s ++ [EvCheckPermission c d p])).
Proof.
  intros Hdir Hw. unfold openAt_fn.
  run. destruct (b_CheckPermission _ _ _ _ _); simpl; [reflexivity|].
  destruct (b_StableAttr B (k_world s) d) eqn:Ety; try discriminate Hdir;
    simpl; rewrite Hw; reflexivity.
Qed.

(** C1 (as amended).  An open without O_CREAT whose path resolves to a
    directory and whose flags ask for write access: the permission check on
    the directory is evaluated before the type test.  If it fails, its error
    is the result; if it passes, the result is EISDIR.  In both cases no
    descriptor is returned, the filesystem and the descriptor table are left
    as they were, and the only inode operation called is that permission
    check. *)
Theorem openAt_directory_write dirFD addr flags raw root d rem (s s1 : K) :
  b_CopyInString B (k_world s) addr = inl raw ->
  raw <> ""%string ->
  let path := fst (TrimTrailingSlashes B raw) in
  let resolve := negb (has_flag flags O_NOFOLLOW) in
  fileOpOn_lookup B dirFD path resolve
    (snd (copyInPath B addr false (set_frame s 0))) = (inl (root, d, rem), s1) ->
  IsDir (b_StableAttr B (k_world s) d) = true ->
  ff_Write (linuxToFlags B flags) = true ->
  let c := Credentials_at s (k_creds s) in
  let p := flagsToPermissions B flags in
  let s' := snd (openAt B dirFD addr flags s) in
  fst (openAt B dirFD addr flags s) =
    (0, match b_CheckPermission B (k_world s) c d p with
        | Some e => Some e
        | None => Some EISDIR
        end) /\
  k_world s' = k_world s /\ k_fdt s' = k_fdt s /\
  k_log s' = k_log s1 ++ [EvCheckPermission c d p; EvRelease d].
Proof.
  intros Hcopy Hne path resolve Hlook Hdir Hw c p s'.
  assert (Hcp : copyInPath B addr false (set_frame s 0) =
                (inl (TrimTrailingSlashes B raw),
                 set_log (set_frame s 0) (k_log s ++ [EvCopyInString addr]))).
  { apply (copyInPath_ok addr false raw (set_frame s 0)); [exact Hcopy|].
    intros E. contradiction. }
  rewrite Hcp in Hlook. simpl in Hlook.
  pose proof (fileOpOn_lookup_frame dirFD path resolve
                (set_log (set_frame s 0) (k_log s ++ [EvCopyInString addr])))
    as Hfr.
  rewrite Hlook in Hfr. simpl in Hfr.
  destruct Hfr as (Hw1 & Hfdt1 & Hch1 & Hcr1 & _ & Hframe1 & _).
  assert (Hopen : openAt B dirFD addr flags s =
     (let (err, s2) := fileOpOn B dirFD path resolve
                         (openAt_fn B flags resolve
                            (snd (TrimTrailingSlashes B raw)))
                         (set_log (set_frame s 0)
                            (k_log s ++ [EvCopyInString addr])) in
      (k_frame s2, err, s2))).
  { unfold openAt. unfold bind at 1. unfold set_result at 1.
    unfold bind at 1. rewrite Hcp.
    destruct (TrimTrailingSlashes B raw) as [pa dp] eqn:Et.
    subst path. simpl. unfold bind, get, ret.
    destruct (fileOpOn _ _ _ _ _ _); reflexivity. }
  subst s'. rewrite Hopen. rewrite fileOpOn_split. rewrite Hlook.
  rewrite openAt_fn_directory by (rewrite ?Hw1; assumption).
  unfold Credentials_at in *. rewrite Hw1, Hch1, Hcr1. simpl.
  rewrite Hw1, Hfdt1, Hframe1. simpl.
  subst c p. unfold Credentials_at. repeat split; try reflexivity.
  rewrite <- app_assoc. reflexivity.
Qed.

End OpenProperties.

(** C1, as stated, fails: /locked is a directory, the open asks for write
    access (O_WRONLY), the caller has no access to it; the call returns the
    error of the permission check, not EISDIR. *)
Lemma openAt_directory_permission_first :
  let B := TestFS.backend in
  let s := TestFS.kernel0 in
  let flags := 1 (* O_WRONLY *) in
  fst (b_FindInode B (k_world s) (k_root s) None "/locked"
         MaxSymlinkTraversals) = inl 4%nat /\
  IsDir (b_StableAttr B (k_world s) 4%nat) = true /\
  ff_Write (linuxToFlags B flags) = true /\
  fst (openAt B AT_FDCWD 4 flags s) = (0, Some EACCES) /\
  snd (fst (openAt B AT_FDCWD 4 flags s)) <> Some EISDIR.
Proof.
  repeat split; try reflexivity. vm_compute. discriminate.
Qed.

Lemma openAt_directory_write_witness :
  let B := TestFS.backend in
  let s := TestFS.kernel0 in
  fst (openAt B AT_FDCWD 1 1 s) = (0, Some EISDIR) /\
  k_world (snd (openAt B AT_FDCWD 1 1 s)) = k_world s.
Proof.
  intros B s.
  pose (s1 := snd (fileOpOn_lookup B AT_FDCWD "/d" true
                     (snd (copyInPath B 1 false (set_frame s 0))))).
  destruct (openAt_directory_write B AT_FDCWD 1 1 "/d"%string
              0%nat 1%nat 40 s s1) as (H1 & H2 & _).
  - reflexivity.
  - discriminate.
  - vm_compute. reflexivity.
  - reflexivity.
  - reflexivity.
  - split; [exact H1 | exact H2].
Defined.

Section CreateProperties.
Context {World : Type} (B : Backend World).
Local Abbreviation K := (Kernel World).

Lemma wrap_uint64_pred (r : Z) : 0 < r < 2 ^ 64 -> wrap_uint64 (r - 1) = r - 1.
Proof. intros H. unfold wrap_uint64. apply Z.mod_small. lia. Qed.

Lemma count_app p (l1 l2 : list Event) :
  count p (l1 ++ l2) = count p l1 + count p l2.
Proof. unfold count. rewrite List.filter_app, List.length_app. lia. Qed.




Lemma release_all_log ds (s : K) :
  k_log (snd (release_all ds s)) = k_log s ++ List.map EvRelease ds /\
  k_world (snd (release_all ds s)) = k_world s /\
  k_fdt (snd (release_all ds s)) = k_fdt s /\
  k_frame (snd (release_all ds s)) = k_frame s.
Proof.
  revert s. induction ds as [|x rest IH]; intros s.
  - simpl. rewrite app_nil_r. repeat split; reflexivity.
  - simpl. unfold bind. run.
    destruct (IH (set_log (set_drefs s (bump x (-1) (k_drefs s)))
                    (k_log s ++ [EvRelease x]))) as (Hlog & Hw & Hf & Hr).
    rewrite Hlog, Hw, Hf, Hr. simpl. rewrite <- app_assoc.
    repeat split; reflexivity.
Qed.

Lemma count_map_release p ds :
  (forall d, p (EvRelease d) = false) -> count p (List.map EvRelease ds) = 0.
Proof.
  intros H. unfold count. induction ds as [|x rest IH]; simpl; [reflexivity|].
  rewrite H. exact IH.
Qed.



(** The closure of createAt when the name is found and O_EXCL is set: one
    lookup, then EEXIST; the reference taken by the lookup is given back. *)
Lemma createAt_fn_excl fuel flags mode ff root parent name rem found (s : K) :
  (1 <= fuel)%nat ->
  has_flag flags O_EXCL = true ->
  IsDir (b_StableAttr B (k_world s) parent) = true ->
  fst (b_FindLink B (k_world s) root (Some parent) name rem) = inl found ->
  let r := createAt_fn B fuel flags mode ff root parent name rem s in
  fst r = Some EEXIST /\
  k_world (snd r) = k_world s /\ k_fdt (snd r) = k_fdt s /\
  k_frame (snd r) = k_frame s /\
  (forall x, k_drefs (snd r) x = k_drefs s x) /\
  (forall f, k_frefs (snd r) f = k_frefs s f) /\
  k_log (snd r) =
    k_log s ++ [EvFindLink root (Some parent) name rem; EvAcquire found;
                EvRelease found].
Proof.
  intros Hfuel Hexcl Hdir Hfound r. subst r.
  destruct fuel as [|fuel]; [lia|].
  unfold createAt_fn. simpl createAt_loop. unfold createAt_step.
  do 3 (run; rewrite ?Hdir, ?Hfound, ?Hexcl; simpl).
  repeat split; try reflexivity.
  - count_refs.
  - rewrite <- !app_assoc. reflexivity.
Qed.

(** The closure of createAt on a link whose text names a missing entry of
    a directory that resolves: one hop, then the creation is asked of that
    directory under the last component of the text. *)
Lemma createAt_fn_dangling fuel flags mode ff root parent name rem
    link rem1 text newParent rem2 (s : K) :
  (2 <= fuel)%nat ->
  has_flag flags O_EXCL = false ->
  has_flag flags O_NOFOLLOW = false ->
  IsDir (b_StableAttr B (k_world s) parent) = true ->
  b_FindLink B (k_world s) root (Some parent) name rem = (inl link, rem1) ->
  IsSymlink (b_StableAttr B (k_world s) link) = true ->
  b_Getlink B (k_world s) link = inr ErrResolveViaReadlink ->
  0 < rem1 < 2 ^ 64 ->
  b_Readlink B (k_world s) link = inl text ->
  let newParentPath := fst (SplitLast B text) in
  let newName := snd (SplitLast B text) in
  b_FindInode B (k_world s) root (Some parent) newParentPath (rem1 - 1)
    = (inl newParent, rem2) ->
  IsDir (b_StableAttr B (k_world s) newParent) = true ->
  fst (b_FindLink B (k_world s) root (Some newParent) newName rem2)
    = inr ENOENT ->
  b_CheckPermission B (k_world s) (Credentials_at s (k_creds s)) newParent
    {| pm_Read := false; pm_Write := true; pm_Execute := true |} = None ->
  let perms := FilePermsFromMode B (Z.ldiff mode (k_umask s)) in
  let cr := b_Create B (k_world s) root newParent newName ff perms in
  let r := createAt_fn B fuel flags mode ff root parent name rem s in
  k_world (snd r) = snd cr /\
  (exists evs, k_log (snd r) = k_log s ++ evs /\
     List.filter is_mutation evs = [EvCreate newParent newName ff perms]) /\
  match fst cr with
  | inr e => fst r = Some e /\ k_fdt (snd r) = k_fdt s /\
             k_frame (snd r) = k_frame s
  | inl newFile =>
      match lowest_free (k_fdt s) 0 (k_fdlimit s) with
      | Some fd =>
          fst r = None /\ k_frame (snd r) = fd /\
          k_fdt (snd r) =
            <[fd := (newFile, {| CloseOnExec := has_flag flags O_CLOEXEC |})]>
              (k_fdt s)
      | None => fst r = Some EMFILE /\ k_fdt (snd r) = k_fdt s /\
                k_frame (snd r) = k_frame s
      end
  end.
Proof.
  intros Hfuel Hexcl Hnof Hdir Hfl Hsym Hget Hrem1 Hread npp nn Hfi Hdir2
    Hfl2 Hperm perms cr r. subst r npp nn.
  destruct fuel as [|[|fuel]]; try lia.
  unfold createAt_fn. simpl createAt_loop. unfold createAt_step.
  assert (Hw : wrap_uint64 (rem1 - 1) = rem1 - 1) by (apply wrap_uint64_pred; lia).
  assert (Hz : (rem1 =? 0) = false) by (apply Z.eqb_neq; lia).
  do 12 (run; unfold Credentials_at in *;
         rewrite ?Hdir, ?Hfl, ?Hexcl, ?Hsym, ?Hnof, ?Hget, ?Hz, ?Hread, ?Hw,
           ?Hfi, ?Hdir2, ?Hfl2, ?Hperm; simpl).
  unfold createAt_finish.
  do 4 (run; unfold Credentials_at in *;
        rewrite ?Hperm; simpl).
  fold perms. fold cr.
  destruct (fst cr) as [newFile|e] eqn:Ecr.
  - unfold NewFDFrom. run.
    destruct (lowest_free (k_fdt s) 0 (k_fdlimit s)) as [fd|] eqn:Efd; run.
    + split; [reflexivity|]. split; [|repeat split; reflexivity].
      log_ext. reflexivity.
    + split; [reflexivity|]. split; [|repeat split; reflexivity].
      log_ext. reflexivity.
  - run. split; [reflexivity|]. split; [|repeat split; reflexivity].
    log_ext. reflexivity.
Qed.

(** The resolution part of fileOpAt touches the reference counts and the log
    only, reads no link text by itself, and under the budget contract hands
    the closure a budget within the maximum. *)
Lemma fileOpAt_resolve_frame dirFD path (s : K) :
  let s1 := snd (fileOpAt_resolve B dirFD path s) in
  k_world s1 = k_world s /\ k_fdt s1 = k_fdt s /\
  k_credheap s1 = k_credheap s /\ k_creds s1 = k_creds s /\
  k_frame s1 = k_frame s /\ k_umask s1 = k_umask s /\
  k_fdlimit s1 = k_fdlimit s /\ k_signals s1 = k_signals s /\
  exists evs, k_log s1 = k_log s ++ evs /\
    count is_readlink evs = 0 /\ count is_mutation evs = 0.
Proof.
  unfold fileOpAt_resolve, fileOpOn_lookup.
  repeat (run; break_match); run.
  all: repeat (split; [reflexivity|]).
  all: log_ext; split; reflexivity.
Qed.




Lemma createAt_unfold fuel dirFD addr flags mode (s : K) :
  createAt B fuel dirFD addr flags mode s =
  (let (p, s0) := copyInPath B addr false (set_frame s 0) in
   match p with
   | inr e => (0, Some e, s0)
   | inl (path, true) => (0, Some ENOENT, s0)
   | inl (path, false) =>
       let (err, s2) :=
         fileOpAt B dirFD path
           (createAt_fn B fuel flags mode
              (set_LargeFile (linuxToFlags B flags))) s0 in
       (k_frame s2, err, s2)
   end).
Proof.
  unfold createAt. unfold bind at 1. unfold set_result at 1. unfold bind at 1.
  destruct (copyInPath B addr false (set_frame s 0)) as [[[path dirPath]|e] s0];
    [|reflexivity].
  destruct dirPath; [reflexivity|].
  unfold bind, get, ret. destruct (fileOpAt _ _ _ _ _); reflexivity.
Qed.


Lemma copyInPath_frame addr raw (s : K) :
  b_CopyInString B (k_world s) addr = inl raw -> raw <> ""%string ->
  copyInPath B addr false (set_frame s 0) =
  (inl (TrimTrailingSlashes B raw),
   set_log (set_frame s 0) (k_log s ++ [EvCopyInString addr])).
Proof.
  intros Hcopy Hne.
  apply (copyInPath_ok B addr false raw (set_frame s 0)); [exact Hcopy|].
  intros E. contradiction.
Qed.

(** C4.  O_CREAT|O_EXCL on a name that the lookup finds: the call fails with
    EEXIST whatever the entry found is (a symlink, dangling or not,
    included: its type is not even read), returns no descriptor and leaves
    the filesystem and the descriptor table as they were; after the
    resolution of the parent it calls the lookup of the name and nothing
    else but the releases of its references, so no creation and no
    truncation. *)
Theorem createAt_excl_exists fuel dirFD addr flags mode raw root parent name
    rem post found (s s1 : K) :
  (1 <= fuel)%nat ->
  has_flag flags O_EXCL = true ->
  b_CopyInString B (k_world s) addr = inl raw ->
  raw <> ""%string ->
  snd (TrimTrailingSlashes B raw) = false ->
  fileOpAt_resolve B dirFD (fst (TrimTrailingSlashes B raw))
    (snd (copyInPath B addr false (set_frame s 0)))
    = (inl (root, parent, name, rem, post), s1) ->
  IsDir (b_StableAttr B (k_world s) parent) = true ->
  fst (b_FindLink B (k_world s) root (Some parent) name rem) = inl found ->
  let r := createAt B fuel dirFD addr flags mode s in
  fst r = (0, Some EEXIST) /\
  k_world (snd r) = k_world s /\ k_fdt (snd r) = k_fdt s /\
  k_log (snd r) =
    k_log s1 ++ [EvFindLink root (Some parent) name rem; EvAcquire found;
                 EvRelease found] ++ List.map EvRelease post /\
  exists evs, k_log (snd r) = k_log s ++ evs /\ count is_mutation evs = 0.
Proof.
  intros Hfuel Hexcl Hcopy Hne Htrim Hres Hdir Hfound r. subst r.
  rewrite createAt_unfold.
  rewrite (copyInPath_frame addr raw s Hcopy Hne) in *. simpl in Hres.
  destruct (TrimTrailingSlashes B raw) as [path dirPath] eqn:Et.
  simpl in Htrim, Hres. subst dirPath.
  rewrite fileOpAt_split.
  destruct (fileOpAt_resolve_frame dirFD path
              (set_log (set_frame s 0) (k_log s ++ [EvCopyInString addr])))
    as (Hw1 & Hf1 & _ & _ & Hfr1 & _ & _ & _ & evs1 & Hlog1 & _ & Hm1).
  rewrite Hres in *. simpl in Hw1, Hf1, Hfr1, Hlog1.
  destruct (createAt_fn_excl fuel flags mode
              (set_LargeFile (linuxToFlags B flags)) root parent name rem found
              s1 Hfuel Hexcl) as (He & Hw2 & Hf2 & Hfr2 & _ & _ & Hlog2).
  { rewrite Hw1. exact Hdir. }
  { rewrite Hw1. exact Hfound. }
  destruct (createAt_fn B fuel flags mode _ root parent name rem s1)
    as [err s2]. simpl in *. subst err.
  destruct (release_all_log post s2) as (Hlog3 & Hw3 & Hf3 & Hfr3).
  destruct (release_all post s2) as [u s3]. simpl in *.
  rewrite Hfr3, Hfr2, Hfr1, Hw3, Hw2, Hw1, Hf3, Hf2, Hf1, Hlog3, Hlog2.
  repeat split; try reflexivity.
  - rewrite <- app_assoc. reflexivity.
  - rewrite Hlog1. log_ext. rewrite !count_app, Hm1.
    rewrite (count_map_release is_mutation post) by reflexivity. reflexivity.
Qed.

(** C3 (as amended).  An open with O_CREAT, without O_EXCL and O_NOFOLLOW,
    whose last component is a symlink that has to be resolved through its
    text, with budget left, the text naming an entry that is missing from a
    directory that resolves and that the caller may write and search.  The
    one change the call asks of the filesystem is the creation of the last
    component of the link text in that directory: the world after the call
    is the world after that creation, and the descriptor returned, if any,
    is on the created file.  Creation only adding a name, the original path
    still leads to the same link, whose text is unchanged. *)
Theorem createAt_dangling_symlink fuel dirFD addr flags mode raw root parent
    name rem post link rem1 text newParent rem2 (s s1 : K) :
  (2 <= fuel)%nat ->
  has_flag flags O_CREAT = true ->
  has_flag flags O_EXCL = false ->
  has_flag flags O_NOFOLLOW = false ->
  b_CopyInString B (k_world s) addr = inl raw ->
  raw <> ""%string ->
  snd (TrimTrailingSlashes B raw) = false ->
  fileOpAt_resolve B dirFD (fst (TrimTrailingSlashes B raw))
    (snd (copyInPath B addr false (set_frame s 0)))
    = (inl (root, parent, name, rem, post), s1) ->
  IsDir (b_StableAttr B (k_world s) parent) = true ->
  b_FindLink B (k_world s) root (Some parent) name rem = (inl link, rem1) ->
  IsSymlink (b_StableAttr B (k_world s) link) = true ->
  b_Getlink B (k_world s) link = inr ErrResolveViaReadlink ->
  0 < rem1 < 2 ^ 64 ->
  b_Readlink B (k_world s) link = inl text ->
  let newParentPath := fst (SplitLast B text) in
  let newName := snd (SplitLast B text) in
  b_FindInode B (k_world s) root (Some parent) newParentPath (rem1 - 1)
    = (inl newParent, rem2) ->
  IsDir (b_StableAttr B (k_world s) newParent) = true ->
  fst (b_FindLink B (k_world s) root (Some newParent) newName rem2)
    = inr ENOENT ->
  b_CheckPermission B (k_world s) (Credentials_at s (k_creds s)) newParent
    {| pm_Read := false; pm_Write := true; pm_Execute := true |} = None ->
  let ff := set_LargeFile (linuxToFlags B flags) in
  let perms := FilePermsFromMode B (Z.ldiff mode (k_umask s)) in
  let cr := b_Create B (k_world s) root newParent newName ff perms in
  let r := Openat B fuel dirFD addr flags mode s in
  k_world (snd r) = snd cr /\
  (exists evs, k_log (snd r) = k_log s ++ evs /\
     List.filter is_mutation evs = [EvCreate newParent newName ff perms]) /\
  match fst cr with
  | inr e => fst r = (0, Some e) /\ k_fdt (snd r) = k_fdt s
  | inl newFile =>
      match lowest_free (k_fdt s) 0 (k_fdlimit s) with
      | Some fd =>
          fst r = (fd, None) /\
          k_fdt (snd r) =
            <[fd := (newFile, {| CloseOnExec := has_flag flags O_CLOEXEC |})]>
              (k_fdt s)
      | None => fst r = (0, Some EMFILE) /\ k_fdt (snd r) = k_fdt s
      end
  end /\
  (create_contract B ->
   b_FindLink B (k_world (snd r)) root (Some parent) name rem
     = (inl link, rem1) /\
   b_Readlink B (k_world (snd r)) link = inl text).
Proof.
  intros Hfuel Hcreat Hexcl Hnof Hcopy Hne Htrim Hres Hdir Hfl Hsym Hget Hrem1
    Hread npp nn Hfi Hdir2 Hfl2 Hperm ff perms cr r.
  subst r ff. unfold Openat. rewrite Hcreat. rewrite createAt_unfold.
  rewrite (copyInPath_frame addr raw s Hcopy Hne) in *. simpl in Hres.
  destruct (TrimTrailingSlashes B raw) as [path dirPath] eqn:Et.
  simpl in Htrim, Hres. subst dirPath.
  rewrite fileOpAt_split.
  destruct (fileOpAt_resolve_frame dirFD path
              (set_log (set_frame s 0) (k_log s ++ [EvCopyInString addr])))
    as (Hw1 & Hf1 & Hch1 & Hcr1 & Hfr1 & Hum1 & Hlim1 & _ & evs1 & Hlog1 & _
        & Hm1).
  rewrite Hres in *. simpl in Hw1, Hf1, Hch1, Hcr1, Hfr1, Hum1, Hlim1, Hlog1.
  pose proof (createAt_fn_dangling fuel flags mode
                (set_LargeFile (linuxToFlags B flags)) root parent name rem
                link rem1 text newParent rem2 s1 Hfuel Hexcl Hnof) as Hfn.
  unfold Credentials_at in *.
  rewrite Hw1, Hch1, Hcr1, Hum1, Hf1, Hlim1 in Hfn.
  specialize (Hfn Hdir Hfl Hsym Hget Hrem1 Hread Hfi Hdir2 Hfl2 Hperm).
  fold npp nn perms cr in Hfn.
  destruct Hfn as (Hw2 & (evs2 & Hlog2 & Hmut2) & Hres2).
  destruct (createAt_fn B fuel flags mode _ root parent name rem s1)
    as [err s2]. simpl in *.
  destruct (release_all_log post s2) as (Hlog3 & Hw3 & Hf3 & Hfr3).
  destruct (release_all post s2) as [u s3]. simpl in *.
  assert (Hfilter0 : forall l : list Event,
             count is_mutation l = 0 -> List.filter is_mutation l = []).
  { intros l Hc. unfold count in Hc.
    destruct (List.filter is_mutation l); [reflexivity|simpl in Hc; lia]. }
  assert (Hrel : List.filter is_mutation (List.map EvRelease post) = []).
  { apply Hfilter0. apply count_map_release. reflexivity. }
  split; [rewrite Hw3; exact Hw2|]. split.
  { exists ([EvCopyInString addr] ++ evs1 ++ evs2 ++ List.map EvRelease post).
    rewrite Hlog3, Hlog2, Hlog1, <- !app_assoc. split; [reflexivity|].
    rewrite !List.filter_app, (Hfilter0 evs1 Hm1), Hmut2, Hrel. reflexivity. }
  split.
  { rewrite Hfr3, Hf3.
    destruct (fst cr) as [newFile|e].
    - destruct (lowest_free (k_fdt s) 0 (k_fdlimit s)) as [fd|].
      + destruct Hres2 as (-> & -> & ->). split; reflexivity.
      + destruct Hres2 as (-> & -> & ->). rewrite Hfr1. split; reflexivity.
    - destruct Hres2 as (-> & -> & ->). rewrite Hfr1. split; reflexivity. }
  intros HC. rewrite Hw3, Hw2.
  destruct (HC (k_world s) root newParent nn
              (set_LargeFile (linuxToFlags B flags)) perms) as [Hkeep Htext].
  split; [apply Hkeep; exact Hfl | apply Htext; exact Hread].
Qed.

End CreateProperties.

(** ** The test double meets the contracts; the theorems at concrete calls *)


Lemma test_lookup_entry_cons w p n d base name x :
  TestFS.lookup_entry w base name = Some x ->
  TestFS.lookup_entry w p n = None ->
  TestFS.lookup_entry (TestFS.set_entries w ((p, n, d) :: TestFS.tw_entries w))
    base name = Some x.
Proof.
  unfold TestFS.lookup_entry. simpl. intros Hx Hnone.
  destruct (bool_decide (p = base) && String.eqb n name) eqn:E; [|exact Hx].
  apply andb_true_iff in E. destruct E as [E1 E2].
  apply bool_decide_eq_true_1 in E1. apply String.eqb_eq in E2. subst.
  rewrite Hx in Hnone. discriminate.
Qed.

Lemma test_create_contract : create_contract TestFS.backend.
Proof.
  intros w root parent name fl perms w'. subst w'. simpl.
  unfold TestFS.t_Create.
  destruct (TestFS.lookup_entry w parent name) eqn:Hnone; simpl.
  - split; intros; assumption.
  - split.
    + intros r rel path rem d rem'. unfold TestFS.t_find.
      repeat break_match; try (intros H; exact H); try discriminate;
        intros H; try discriminate H;
           match goal with
           | H1 : TestFS.lookup_entry w ?b ?n = Some ?x,
             H2 : TestFS.lookup_entry (TestFS.set_next _ _) ?b ?n = ?y |- _ =>
               assert (E : Some x = y)
                 by (etransitivity;
                     [symmetry;
                      exact (test_lookup_entry_cons w parent name
                               (TestFS.tw_next w) b n x H1 Hnone)
                     |exact H2]);
               try discriminate E; inversion E; subst; exact H
           end.
    + intros d text H. exact H.
Qed.

Lemma fileOpOn_references_witness :
  let B := TestFS.backend in
  let s := TestFS.kernel0 in
  let fn := fun (_ _ : Dirent) (_ : Z) => @ret TestFS.TWorld error None in
  let s1 := snd (fileOpOn_lookup B AT_FDCWD "/f" true s) in
  (forall x, 0 <= k_drefs s x) /\
  0 < k_drefs s1 2%nat /\
  (forall x, k_drefs s1 x = k_drefs s x + one_if (bool_decide (x = 2%nat))) /\
  (forall x, k_drefs (snd (fileOpOn B AT_FDCWD "/f" true fn s)) x
             = k_drefs s1 x - one_if (bool_decide (x = 2%nat))).
Proof.
  intros B s fn s1.
  assert (H1 : forall x, 0 <= k_drefs s x) by (intros x; simpl; lia).
  destruct (fileOpOn_references B AT_FDCWD "/f" true fn s H1)
    as (pre & _ & H).
  change (fst (fileOpOn_lookup B AT_FDCWD "/f" true s))
    with (@inl (Dirent * Dirent * Z) Errno (0%nat, 2%nat, 40)) in H.
  cbv zeta iota beta in H.
  destruct H as (Hd & Hentry & _ & _ & _ & _ & Hafter & _).
  repeat split; try assumption.
Defined.

Lemma fileOpOn_anchor_witness :
  let B := TestFS.backend in
  let fn := fun (_ _ : Dirent) (_ : Z) => @ret TestFS.TWorld error None in
  let s := TestFS.kernel1 in
  (* descriptor 9 is not open, descriptor 3 is open on the file /f *)
  fileOpOn B 9 "f" true fn s = (Some EBADF, s) /\
  fst (fileOpOn B 3 "f" true fn s) = Some ENOTDIR /\
  k_log (snd (fileOpOn B 3 "f" true fn s))
  = [EvAcquireFile 7; EvReleaseFile 7] /\
  fileOpOn B 9 "/f" true fn s = fileOpOn B 3 "/f" true fn s /\
  k_log (snd (fileOpOn B 3 "/f" true fn s))
  = [EvAcquire 0%nat; EvFindInode 0%nat None "/f" 40; EvAcquire 2%nat;
     EvRelease 0%nat; EvRelease 2%nat].
Proof.
  intros B fn s.
  destruct (fileOpOn_anchor B 9 "f" true fn s) as [Hrel _].
  destruct (Hrel eq_refl ltac:(discriminate)) as [Hbad _].
  destruct (fileOpOn_anchor B 3 "f" true fn s) as [Hrel3 _].
  destruct (Hrel3 eq_refl ltac:(discriminate)) as [_ Hnd].
  destruct (Hnd _ _ eq_refl eq_refl) as (Hnd1 & Hnd2 & _).
  destruct (fileOpOn_anchor B 3 "/f" true fn s) as [_ Habs].
  destruct (Habs eq_refl) as [Hsame Hlook].
  change (fst (b_FindInode B (k_world s) (k_root s) None "/f"
                 MaxSymlinkTraversals))
    with (@inl Dirent Errno 2%nat) in Hlook.
  cbv iota beta in Hlook.
  destruct Hlook as (s1 & Hlog & _ & _ & _ & _ & _ & _ & Hr).
  split; [apply Hbad; reflexivity|].
  split; [exact Hnd1|]. split; [exact Hnd2|].
  split; [apply Hsame|].
  rewrite Hr. simpl. rewrite Hlog. reflexivity.
Defined.

Lemma createAt_excl_exists_witness :
  let B := TestFS.backend in
  let s := TestFS.kernel0 in
  let r := createAt B 41 AT_FDCWD 3 (O_CREAT + O_EXCL + 1) 420 s in
  IsSymlink (b_StableAttr B (k_world s) 3%nat) = true /\
  fst r = (0, Some EEXIST) /\ k_world (snd r) = k_world s /\
  k_fdt (snd r) = k_fdt s.
Proof.
  intros B s r.
  pose (s1 := snd (fileOpAt_resolve B AT_FDCWD "/l"
                     (snd (copyInPath B 3 false (set_frame s 0))))).
  destruct (createAt_excl_exists B 41 AT_FDCWD 3 (O_CREAT + O_EXCL + 1) 420
              "/l"%string 0%nat 0%nat "l"%string 40 [0%nat] 3%nat s s1)
    as (H1 & H2 & H3 & _).
  - lia.
  - reflexivity.
  - reflexivity.
  - discriminate.
  - reflexivity.
  - vm_compute. reflexivity.
  - reflexivity.
  - reflexivity.
  - split; [reflexivity|]. split; [exact H1|]. split; [exact H2|exact H3].
Defined.

Lemma createAt_dangling_symlink_witness :
  let B := TestFS.backend in
  let s := TestFS.kernel0 in
  let r := Openat B 41 AT_FDCWD 3 (O_CREAT + 1) 420 s in
  fst r = (0, None) /\
  b_FindLink B (k_world (snd r)) 0%nat (Some 0%nat) "new" 39 = (inl 10%nat, 39) /\
  b_FindLink B (k_world (snd r)) 0%nat (Some 0%nat) "l" 40 = (inl 3%nat, 40) /\
  b_Readlink B (k_world (snd r)) 3%nat = inl "new"%string.
Proof.
  intros B s r.
  pose (s1 := snd (fileOpAt_resolve B AT_FDCWD "/l"
                     (snd (copyInPath B 3 false (set_frame s 0))))).
  destruct (createAt_dangling_symlink B 41 AT_FDCWD 3 (O_CREAT + 1) 420
              "/l"%string 0%nat 0%nat "l"%string 40 [0%nat] 3%nat 40
              "new"%string 0%nat 39 s s1)
    as (Hw & _ & Hres & Hkeep).
  - lia.
  - reflexivity.
  - reflexivity.
  - reflexivity.
  - reflexivity.
  - discriminate.
  - reflexivity.
  - vm_compute. reflexivity.
  - reflexivity.
  - reflexivity.
  - reflexivity.
  - reflexivity.
  - lia.
  - reflexivity.
  - reflexivity.
  - reflexivity.
  - reflexivity.
  - reflexivity.
  - destruct (Hkeep test_create_contract) as [Hl Ht].
    subst r. split; [exact (proj1 Hres)|]. split; [|split; [exact Hl|exact Ht]].
    rewrite Hw. reflexivity.
Defined.

(** C3, as stated, fails.  /m is a symlink whose target nodir/x does not
    exist (its directory is missing): the open with O_CREAT creates nothing
    at the target; the lookup of the target's directory fails with ENOENT,
    the loop is left with the parent and the name of the link itself, and
    the creation is asked under the name of the link, which the backend
    refuses with EEXIST.  /n is a symlink to the missing locked/x, in a
    directory the caller may not write: the open fails with the error of
    the permission check and asks for no creation. *)
Lemma createAt_dangling_missing_directory :
  let B := TestFS.backend in
  let s := TestFS.kernel0 in
  let flags := O_CREAT + 1 in
  let r := Openat B 41 AT_FDCWD 9 flags 420 s in
  let r' := Openat B 41 AT_FDCWD 10 flags 420 s in
  has_flag flags O_CREAT = true /\ has_flag flags O_EXCL = false /\
  has_flag flags O_NOFOLLOW = false /\
  (b_FindLink B (k_world s) 0%nat (Some 0%nat) "m" 40 = (inl 6%nat, 40) /\
   IsSymlink (b_StableAttr B (k_world s) 6%nat) = true /\
   b_Readlink B (k_world s) 6%nat = inl "nodir/x"%string /\
   fst (b_FindInode B (k_world s) 0%nat (Some 0%nat) "nodir" 39) = inr ENOENT /\
   fst r = (0, Some EEXIST) /\
   k_world (snd r) = k_world s /\
   List.filter is_mutation (k_log (snd r)) =
     [EvCreate 0%nat "m" (set_LargeFile (linuxToFlags B flags)) 420]) /\
  (b_FindLink B (k_world s) 0%nat (Some 0%nat) "n" 40 = (inl 7%nat, 40) /\
   IsSymlink (b_StableAttr B (k_world s) 7%nat) = true /\
   b_Readlink B (k_world s) 7%nat = inl "locked/x"%string /\
   fst (b_FindLink B (k_world s) 0%nat (Some 4%nat) "x" 39) = inr ENOENT /\
   fst r' = (0, Some EACCES) /\
   k_world (snd r') = k_world s /\
   List.filter is_mutation (k_log (snd r')) = []).
Proof.
  repeat split; vm_compute; reflexivity.
Qed.


Section SizeLimitProperties.
Context {World : Type} (B : Backend World).
Local Abbreviation K := (Kernel World).

Lemma wrap_uint64_small z : 0 <= z < 2 ^ 63 -> wrap_uint64 z = z.
Proof. intros H. unfold wrap_uint64. apply Z.mod_small. lia. Qed.

Lemma wrap_int64_overflow a b :
  0 <= a < 2 ^ 63 -> 0 < b < 2 ^ 63 -> 2 ^ 63 <= a + b ->
  wrap_int64 (a + b) = a + b - 2 ^ 64 /\ wrap_int64 (a + b) < 0.
Proof.
  intros Ha Hb Hov. unfold wrap_int64.
  assert (E : (a + b + 2 ^ 63) mod 2 ^ 64 = a + b + 2 ^ 63 - 2 ^ 64).
  { symmetry. apply (Z.mod_unique_pos _ _ 1). lia. lia. }
  rewrite E. lia.
Qed.

Lemma wrap_int64_small z : - 2 ^ 63 <= z < 2 ^ 63 -> wrap_int64 z = z.
Proof.
  intros H. unfold wrap_int64. rewrite Z.mod_small by lia. lia.
Qed.

(** C8 (as amended).  truncate(2) with a length that is not negative and
    not below the file-size limit of the thread group.  Whatever the path,
    the call resolves nothing and calls no operation of the filesystem.
    When the path copies in as a non-empty string without a trailing slash,
    the call sends SIGXFSZ to the task once and fails with EFBIG; the only
    call it has made is the copy of the path. *)
Theorem Truncate_over_limit addr length (s : K) :
  0 <= length < 2 ^ 63 ->
  k_fsize_cur s <= length ->
  let r := Truncate B addr length s in
  (k_world (snd r) = k_world s /\
   k_log (snd r) = k_log s ++ [EvCopyInString addr] /\
   fst r <> None) /\
  (forall raw,
     b_CopyInString B (k_world s) addr = inl raw ->
     raw <> ""%string ->
     snd (TrimTrailingSlashes B raw) = false ->
     fst r = Some EFBIG /\
     k_signals (snd r) = k_signals s ++ [sigxfsz]).
Proof.
  intros Hlen Hlim r. subst r. unfold Truncate.
  assert (H0 : (length <? 0) = false) by (apply Z.ltb_ge; lia).
  assert (Hcur : (k_fsize_cur s <=? wrap_uint64 length) = true).
  { rewrite wrap_uint64_small by lia. apply Z.leb_le. exact Hlim. }
  rewrite H0. unfold copyInPath. split.
  - repeat (run; break_match); run; rewrite ?Hcur; simpl;
      repeat split; try reflexivity; discriminate.
  - intros raw Hcopy Hne Htrim. run. rewrite Hcopy.
    destruct (String.eqb raw "") eqn:E;
      [apply String.eqb_eq in E; contradiction|].
    simpl. destruct (TrimTrailingSlashes B raw) as [path dirPath].
    simpl in Htrim. subst dirPath. simpl. rewrite Hcur. simpl.
    split; reflexivity.
Qed.

(** C10 (as amended).  fallocate(2) with offset >= 0 and length > 0 whose
    sum does not fit a signed 64-bit integer.  Whatever the descriptor and
    the mode, the call fails, sends no signal and does not call Allocate;
    the filesystem is left as it was.  On an open descriptor of a regular
    file opened for writing, with mode 0, the error is EFBIG.  When the
    sum fits but is not below the file-size limit, the same call sends
    SIGXFSZ once and fails with EFBIG, again without calling Allocate. *)
Theorem Fallocate_overflow fd mode offset length (s : K) :
  0 <= offset < 2 ^ 63 -> 0 < length < 2 ^ 63 ->
  let r := Fallocate B fd mode offset length s in
  let validated :=
    exists file fl, k_fdt s !! fd = Some (file, fl) /\ mode = 0 /\
      ff_Write (f_flags file) = true /\
      IsRegular (b_StableAttr B (k_world s) (f_dirent file)) = true in
  (2 ^ 63 <= offset + length ->
   (fst r <> None /\ k_signals (snd r) = k_signals s /\
    k_world (snd r) = k_world s /\
    exists evs, k_log (snd r) = k_log s ++ evs /\ count is_allocate evs = 0)
   /\ (validated -> fst r = Some EFBIG)) /\
  (offset + length < 2 ^ 63 -> k_fsize_cur s <= offset + length ->
   validated ->
   fst r = Some EFBIG /\ k_signals (snd r) = k_signals s ++ [sigxfsz] /\
   k_world (snd r) = k_world s /\
   exists evs, k_log (snd r) = k_log s ++ evs /\ count is_allocate evs = 0).
Proof.
  intros Hoff Hlen r validated. subst r validated.
  assert (H0 : ((offset <? 0) || (length <=? 0)) = false).
  { apply orb_false_iff. split; [apply Z.ltb_ge|apply Z.leb_gt]; lia. }
  unfold Fallocate. split.
  - intros Hov.
    destruct (wrap_int64_overflow offset length Hoff Hlen Hov) as [_ Hneg].
    assert (Hlt : (wrap_int64 (offset + length) <? 0) = true)
      by (apply Z.ltb_lt; exact Hneg).
    split.
    + repeat (run; rewrite ?H0, ?Hlt; break_match); run; rewrite ?H0, ?Hlt;
        simpl; (split; [discriminate|]); (split; [reflexivity|]);
        (split; [reflexivity|]); log_ext; reflexivity.
    + intros (file & fl & Hfd & Hmode & Hw & Hreg). subst mode.
      run. rewrite Hfd. run. rewrite H0. simpl. rewrite Hw. simpl.
      destruct (b_StableAttr B (k_world s) (f_dirent file)); try discriminate.
      simpl. rewrite Hlt. reflexivity.
  - intros Hfit Hlim (file & fl & Hfd & Hmode & Hw & Hreg). subst mode.
    assert (Hsz : wrap_int64 (offset + length) = offset + length)
      by (apply wrap_int64_small; lia).
    assert (Hlt : (offset + length <? 0) = false) by (apply Z.ltb_ge; lia).
    assert (Hcur : (k_fsize_cur s <=? wrap_uint64 (offset + length)) = true).
    { rewrite wrap_uint64_small by lia. apply Z.leb_le. exact Hlim. }
    run. rewrite Hfd. run. rewrite H0. simpl. rewrite Hw. simpl.
    destruct (b_StableAttr B (k_world s) (f_dirent file)); try discriminate.
    simpl. rewrite Hsz, Hlt. simpl. rewrite Hcur. simpl.
    repeat split; try reflexivity. log_ext. reflexivity.
Qed.

End SizeLimitProperties.

(** C8, as stated, fails: a length above the limit with an empty path gives
    ENOENT and no signal; with a trailing slash, EINVAL and no signal. *)
Lemma Truncate_over_limit_bad_path :
  let B := TestFS.backend in
  let s := TestFS.kernel0 in
  k_fsize_cur s <= 2000 /\
  fst (Truncate B 6 2000 s) = Some ENOENT /\
  k_signals (snd (Truncate B 6 2000 s)) = [] /\
  fst (Truncate B 7 2000 s) = Some EINVAL /\
  k_signals (snd (Truncate B 7 2000 s)) = [].
Proof. repeat split; vm_compute; try reflexivity. discriminate. Qed.

Lemma Truncate_over_limit_witness :
  let B := TestFS.backend in
  let s := TestFS.kernel0 in
  fst (Truncate B 2 2000 s) = Some EFBIG /\
  k_signals (snd (Truncate B 2 2000 s)) = [sigxfsz] /\
  k_world (snd (Truncate B 2 2000 s)) = k_world s.
Proof.
  intros B s.
  destruct (Truncate_over_limit B 2 2000 s) as [(Hw & _) Hsig].
  - lia.
  - simpl. lia.
  - destruct (Hsig "/f"%string eq_refl ltac:(discriminate) eq_refl)
      as [He Hs].
    split; [exact He|]. split; [exact Hs|exact Hw].
Defined.

(** C10, as stated, fails: with a descriptor that is not open the error is
    EBADF, with a non-zero mode ENOTSUP, on a descriptor opened read-only
    EBADF, on a directory EISDIR. *)
Lemma Fallocate_overflow_not_validated :
  let B := TestFS.backend in
  let s := TestFS.kernel1 in
  let big := 2 ^ 62 in
  2 ^ 63 <= big + big /\
  fst (Fallocate B 9 0 big big s) = Some EBADF /\
  fst (Fallocate B 3 1 big big s) = Some ENOTSUP /\
  fst (Fallocate B 5 0 big big s) = Some EBADF.
Proof. repeat split; vm_compute; try reflexivity. discriminate. Qed.

Lemma Fallocate_overflow_witness :
  let B := TestFS.backend in
  let s := TestFS.kernel1 in
  fst (Fallocate B 3 0 (2 ^ 62) (2 ^ 62) s) = Some EFBIG /\
  k_signals (snd (Fallocate B 3 0 (2 ^ 62) (2 ^ 62) s)) = [] /\
  fst (Fallocate B 3 0 600 600 s) = Some EFBIG /\
  k_signals (snd (Fallocate B 3 0 600 600 s)) = [sigxfsz].
Proof.
  intros B s.
  assert (Hval : exists file fl, k_fdt s !! 3 = Some (file, fl) /\ 0 = 0 /\
             ff_Write (f_flags file) = true /\
             IsRegular (b_StableAttr B (k_world s) (f_dirent file)) = true).
  { eexists _, _. split; [vm_compute; reflexivity|]. repeat split. }
  destruct (Fallocate_overflow B 3 0 (2 ^ 62) (2 ^ 62) s) as [Hov _];
    [lia | lia |].
  destruct (Hov ltac:(lia)) as [(_ & Hsig & _) He].
  destruct (Fallocate_overflow B 3 0 600 600 s) as [_ Hin]; [lia | lia |].
  destruct (Hin ltac:(lia) ltac:(simpl; lia) Hval) as (He2 & Hsig2 & _).
  split; [exact (He Hval)|]. split; [exact Hsig|].
  split; [exact He2|exact Hsig2].
Defined.

Section AccessProperties.
Context {World : Type} (B : Backend World).
Local Abbreviation K := (Kernel World).

Lemma lookup_new_cell (h : list Credentials) (c : Credentials) :
  (h ++ [c]) !! List.length h = Some c.
Proof.
  rewrite lookup_app_r by (unfold length; lia).
  replace (List.length h - length h)%nat with 0%nat by (unfold length; lia).
  reflexivity.
Qed.

Lemma store_new_cell (h : list Credentials) (c c' : Credentials) :
  <[List.length h := c']> (h ++ [c]) = h ++ [c'].
Proof.
  induction h as [|x h IH]; simpl; [reflexivity|]. f_equal. exact IH.
Qed.

Lemma lookup_old_cell (h : list Credentials) (c : Credentials) (p : nat) :
  (p < List.length h)%nat -> (h ++ [c]) !! p = h !! p.
Proof. intros H. apply lookup_app_l. exact H. Qed.

Lemma Credentials_at_new (s : K) (h : list Credentials) (c : Credentials) :
  Credentials_at (set_credheap s (h ++ [c])) (List.length h) = c.
Proof. unfold Credentials_at. simpl. rewrite lookup_new_cell. reflexivity. Qed.

(** The closure of accessAt: it builds the view in a fresh credentials
    object, checks the permission against it and leaves every object that
    existed before, the task's included, as it was. *)
Lemma accessAt_fn_view mode root d rem (s : K) :
  let c := Credentials_at s (k_creds s) in
  accessAt_fn B mode root d rem s =
  (b_CheckPermission B (k_world s) (access_view B c) d (access_mask mode),
   set_log (set_credheap s (k_credheap s ++ [access_view B c]))
     (k_log s ++ [EvCheckPermission (access_view B c) d (access_mask mode)])).
Proof.
  intros c. unfold accessAt_fn, Fork, load, store, CheckPermission.
  unfold bind, get, ret, emit. simpl. fold c.
  repeat (rewrite ?store_new_cell, ?Credentials_at_new; simpl).
  unfold access_view, access_mask.
  destruct (KUID_In B (UserNamespace c) (RealKUID c) =? RootUID); simpl;
    rewrite ?store_new_cell, ?Credentials_at_new; reflexivity.
Qed.

Lemma fileOpOn_lookup_no_check dirFD path resolve (s : K) :
  exists evs,
    k_log (snd (fileOpOn_lookup B dirFD path resolve s)) = k_log s ++ evs /\
    Forall (fun ev => is_check_permission ev = false) evs.
Proof.
  unfold fileOpOn_lookup.
  repeat (run; break_match); run; log_ext; repeat constructor.
Qed.

Lemma accessAt_unfold dirFD addr mode (s : K) :
  accessAt B dirFD addr mode s =
  (let (p, s0) := copyInPath B addr false s in
   match p with
   | inr e => (Some e, s0)
   | inl (path, _) =>
       if negb (Z.ldiff mode 7 =? 0) then (Some EINVAL, s0)
       else fileOpOn B dirFD path true (accessAt_fn B mode) s0
   end).
Proof.
  unfold accessAt. unfold bind at 1.
  destruct (copyInPath B addr false s) as [[[path dirPath]|e] s0];
    [|reflexivity].
  change (Z.lor 4 (Z.lor 2 1)) with 7.
  destruct (negb (Z.ldiff mode 7 =? 0)); reflexivity.
Qed.

(** C9.  access(2) and faccessat(2).  The task's credentials pointer and the
    credentials object it points to are the same after the call as before;
    so is every credentials object that existed before.  Every permission
    check the call makes is made against the derived view (effective ids
    set to the real ones, effective capabilities the permitted ones when
    the real uid is root in the namespace and none otherwise) with the mask
    of the requested mode, and when the path resolves the result of the
    call is the result of that check. *)
Theorem accessAt_credentials dirFD addr mode (s : K) :
  (k_creds s < List.length (k_credheap s))%nat ->
  let r := accessAt B dirFD addr mode s in
  let c := Credentials_at s (k_creds s) in
  k_creds (snd r) = k_creds s /\
  (forall p, (p < List.length (k_credheap s))%nat ->
             k_credheap (snd r) !! p = k_credheap s !! p) /\
  Credentials_at (snd r) (k_creds (snd r)) = c /\
  (exists evs, k_log (snd r) = k_log s ++ evs /\
     forall c' d p, In (EvCheckPermission c' d p) evs ->
       c' = access_view B c /\ p = access_mask mode) /\
  (forall raw root d rem s1,
     b_CopyInString B (k_world s) addr = inl raw ->
     raw <> ""%string ->
     Z.ldiff mode 7 = 0 ->
     fileOpOn_lookup B dirFD (fst (TrimTrailingSlashes B raw)) true
       (snd (copyInPath B addr false s)) = (inl (root, d, rem), s1) ->
     fst r = b_CheckPermission B (k_world s) (access_view B c) d
               (access_mask mode)).
Proof.
  intros Hvalid r c.
  assert (Hmain :
    k_creds (snd r) = k_creds s /\
    (forall p, (p < List.length (k_credheap s))%nat ->
               k_credheap (snd r) !! p = k_credheap s !! p) /\
    (exists evs, k_log (snd r) = k_log s ++ evs /\
       forall c' d p, In (EvCheckPermission c' d p) evs ->
         c' = access_view B c /\ p = access_mask mode)).
  { subst r. rewrite accessAt_unfold.
    assert (Hcp : k_creds (snd (copyInPath B addr false s)) = k_creds s /\
                  k_credheap (snd (copyInPath B addr false s)) = k_credheap s /\
                  k_world (snd (copyInPath B addr false s)) = k_world s /\
                  k_log (snd (copyInPath B addr false s))
                  = k_log s ++ [EvCopyInString addr]).
    { unfold copyInPath. repeat (run; break_match); run; repeat split. }
    destruct Hcp as (Hc0 & Hh0 & Hw0 & Hl0).
    destruct (copyInPath B addr false s) as [[[path dirPath]|e] s0];
      simpl in Hc0, Hh0, Hw0, Hl0.
    2: { simpl. rewrite Hc0, Hh0, Hl0.
         repeat split; try reflexivity.
         eexists. split; [reflexivity|]. intros c' d p [H|[]]. discriminate. }
    destruct (negb (Z.ldiff mode 7 =? 0)).
    { simpl. rewrite Hc0, Hh0, Hl0.
      repeat split; try reflexivity.
      eexists. split; [reflexivity|]. intros c' d p [H|[]]. discriminate. }
    rewrite fileOpOn_split.
    destruct (fileOpOn_lookup_frame B dirFD path true s0)
      as (Hw1 & _ & Hh1 & Hc1 & _).
    destruct (fileOpOn_lookup_no_check dirFD path true s0)
      as (evs1 & Hl1 & Hno1).
    pose proof (proj1 (List.Forall_forall _ _) Hno1) as Hno.
    destruct (fileOpOn_lookup B dirFD path true s0)
      as [[[[root d] rem]|e] s1]; simpl in Hw1, Hh1, Hc1, Hl1.
    2: { simpl. rewrite Hc1, Hh1, Hl1, Hc0, Hh0, Hl0.
         repeat split; try reflexivity.
         exists ([EvCopyInString addr] ++ evs1).
         rewrite <- app_assoc. split; [reflexivity|].
         intros c' d p [H|H]; [discriminate|].
         simpl in H. specialize (Hno _ H). discriminate. }
    rewrite accessAt_fn_view. simpl.
    unfold Credentials_at. rewrite Hc1, Hh1, Hc0, Hh0, Hl1, Hl0.
    fold (Credentials_at s (k_creds s)). fold c.
    split; [reflexivity|]. split.
    - intros p Hp. apply lookup_old_cell. exact Hp.
    - exists ([EvCopyInString addr] ++ evs1 ++
              [EvCheckPermission (access_view B c) d (access_mask mode);
               EvRelease d]).
      rewrite <- !app_assoc. split; [reflexivity|].
      intros c' d' p H. rewrite !List.in_app_iff in H. simpl in H.
      destruct H as [[H|[]]|[H|[H|[H|[]]]]]; try discriminate.
      + specialize (Hno _ H). discriminate.
      + inversion H. split; reflexivity. }
  destruct Hmain as (Hcr & Hheap & Hlog).
  split; [exact Hcr|]. split; [exact Hheap|]. split.
  { unfold c, Credentials_at. rewrite Hcr, (Hheap _ Hvalid). reflexivity. }
  split; [exact Hlog|].
  intros raw root d rem s1 Hcopy Hne Hmode Hlook.
  subst r. rewrite accessAt_unfold.
  rewrite (copyInPath_ok B addr false raw s Hcopy) in *
    by (intros E; contradiction).
  simpl in Hlook.
  destruct (TrimTrailingSlashes B raw) as [path dirPath]. simpl in Hlook.
  rewrite Hmode. simpl.
  rewrite fileOpOn_split, Hlook, accessAt_fn_view. simpl.
  destruct (fileOpOn_lookup_frame B dirFD path true
              (set_log s (k_log s ++ [EvCopyInString addr])))
    as (Hw1 & _ & Hh1 & Hc1 & _).
  rewrite Hlook in Hw1, Hh1, Hc1. simpl in Hw1, Hh1, Hc1.
  unfold Credentials_at. rewrite Hw1, Hh1, Hc1. reflexivity.
Qed.

End AccessProperties.

Lemma accessAt_credentials_witness :
  let B := TestFS.backend in
  let s := TestFS.kernel0 in
  (k_creds s < List.length (k_credheap s))%nat /\
  Credentials_at (snd (accessAt B AT_FDCWD 4 2 s)) (k_creds s)
  = TestFS.user_creds /\
  fst (accessAt B AT_FDCWD 4 2 s) = Some EACCES.
Proof.
  intros B s.
  assert (Hv : (k_creds s < List.length (k_credheap s))%nat) by (simpl; lia).
  destruct (accessAt_credentials B AT_FDCWD 4 2 s Hv)
    as (Hp & _ & Hc & _ & Hres).
  split; [exact Hv|]. split.
  - rewrite <- Hp. exact Hc.
  - pose (s1 := snd (fileOpOn_lookup B AT_FDCWD "/locked" true
                       (snd (copyInPath B 4 false s)))).
    rewrite (Hres "/locked"%string 0%nat 4%nat 40 s1 eq_refl
               ltac:(discriminate) eq_refl ltac:(vm_compute; reflexivity)).
    reflexivity.
Defined.

Section ChownProperties.
Context {World : Type} (B : Backend World).
Local Abbreviation K := (Kernel World).

(** What DropSetUIDAndMaybeGID does to each bit of the mode word. *)
Lemma DropSetUIDAndMaybeGID_bits (p : FilePermissions) :
  let q := DropSetUIDAndMaybeGID p in
  Z.testbit q 11 = false /\
  Z.testbit q 10 = Z.testbit p 10 && negb (Z.testbit p 3) /\
  forall n, n <> 10 -> n <> 11 -> Z.testbit q n = Z.testbit p n.
Proof.
  assert (H11 : forall n, Z.testbit ModeSetUID n = (11 =? n)).
  { intros n. change ModeSetUID with (2 ^ 11).
    apply Z.pow2_bits_eqb. lia. }
  assert (H10 : forall n, Z.testbit ModeSetGID n = (10 =? n)).
  { intros n. change ModeSetGID with (2 ^ 10).
    apply Z.pow2_bits_eqb. lia. }
  assert (Hu : forall n, Z.testbit (Z.ldiff p ModeSetUID) n
                         = Z.testbit p n && negb (11 =? n)).
  { intros n. rewrite Z.ldiff_spec, H11. reflexivity. }
  assert (Hg : forall n, Z.testbit (Z.ldiff (Z.ldiff p ModeSetUID) ModeSetGID) n
                         = Z.testbit p n && negb (11 =? n) && negb (10 =? n)).
  { intros n. rewrite Z.ldiff_spec, Hu, H10. reflexivity. }
  unfold DropSetUIDAndMaybeGID. cbv zeta.
  rewrite (Hu 3). change (negb (11 =? 3)) with true. rewrite andb_true_r.
  destruct (Z.testbit p 3).
  - split; [|split].
    + rewrite Hg. change (11 =? 11) with true. cbn [negb].
      rewrite andb_false_r. reflexivity.
    + rewrite Hg. change (10 =? 10) with true. cbn [negb].
      rewrite !andb_false_r. reflexivity.
    + intros n Hn10 Hn11. rewrite Hg.
      destruct (11 =? n) eqn:E1; [apply Z.eqb_eq in E1; congruence|].
      destruct (10 =? n) eqn:E2; [apply Z.eqb_eq in E2; congruence|].
      cbn [negb]. rewrite !andb_true_r. reflexivity.
  - split; [|split].
    + rewrite Hu. change (11 =? 11) with true. cbn [negb].
      apply andb_false_r.
    + rewrite Hu. change (11 =? 10) with false. cbn [negb].
      rewrite !andb_true_r. reflexivity.
    + intros n _ Hn11. rewrite Hu.
      destruct (11 =? n) eqn:E1; [apply Z.eqb_eq in E1; congruence|].
      cbn [negb]. apply andb_true_r.
Qed.

(** C7.  chown, for an inode whose attributes can be read.
    (1) A request that names a uid succeeds only if the caller has
    CAP_CHOWN on the inode, or owns the file and the uid named is the
    current one.  (2) Such a no-op request by the owner, naming no gid, is
    not refused for want of the capability: the owner is handed to the
    backend and the result is the backend's.  (3) When the uid or the gid
    named differs from the current one, the setuid or setgid bit is set,
    the inode is not a directory and chown succeeds, the backend has been
    asked, after the change of owner, to set the permissions
    DropSetUIDAndMaybeGID makes of the current ones, and has accepted; with
    a backend that stores the permissions it accepts, the inode then has
    the setuid bit cleared, the setgid bit cleared when the group may
    execute and kept when it may not, and every other bit as it was. *)
Theorem chown_policy d uid gid uattr (s : K) :
  b_UnstableAttr B (k_world s) d = inl uattr ->
  let w := k_world s in
  let c := Credentials_at s (k_creds s) in
  let hasCap := b_CheckCapability B w c d CAP_CHOWN in
  let isOwner := ua_Owner_UID uattr =? EffectiveKUID c in
  let kuid := MapToKUID B (UserNamespace c) uid in
  let r := chown B d uid gid s in
  (id_Ok uid = true -> fst r = None ->
   hasCap = true \/ (isOwner = true /\ ua_Owner_UID uattr = kuid)) /\
  (id_Ok uid = true -> id_Ok gid = false -> id_Ok kuid = true ->
   isOwner = true -> ua_Owner_UID uattr = kuid ->
   let owner := {| o_UID := kuid; o_GID := NoID |} in
   fst r = fst (b_SetOwner B w d owner) /\
   k_world (snd r) = snd (b_SetOwner B w d owner) /\
   k_log (snd r) = k_log s ++ [EvSetOwner d owner]) /\
  (owner_changes B c uattr uid gid = true ->
   HasSetUIDOrGID (ua_Perms uattr) = true ->
   let owner := chown_owner B c uid gid in
   let so := b_SetOwner B w d owner in
   let perms := DropSetUIDAndMaybeGID (ua_Perms uattr) in
   let sp := b_SetPermissions B (snd so) d perms in
   IsDir (b_StableAttr B (snd so) d) = false ->
   (* refused before anything is changed *)
   (fst r <> None /\ snd r = s) \/
   (* the backend does not set the owner *)
   (fst so <> None /\ fst r = fst so /\ k_world (snd r) = snd so /\
    k_log (snd r) = k_log s ++ [EvSetOwner d owner]) \/
   (* the owner is set: the permissions follow *)
   (fst so = None /\
    fst r = (if fst sp then None else Some EPERM) /\
    k_world (snd r) = snd sp /\
    k_log (snd r) = k_log s ++ [EvSetOwner d owner; EvSetPermissions d perms] /\
    (perms_contract B -> fst r = None ->
     exists ua,
       b_UnstableAttr B (k_world (snd r)) d = inl ua /\
       ua_Perms ua = perms /\
       Z.testbit (ua_Perms ua) 11 = false /\
       Z.testbit (ua_Perms ua) 10
       = Z.testbit (ua_Perms uattr) 10 && negb (Z.testbit (ua_Perms uattr) 3)
       /\
       forall n, n <> 10 -> n <> 11 ->
         Z.testbit (ua_Perms ua) n = Z.testbit (ua_Perms uattr) n))).
Proof.
  intros Hattr w c hasCap isOwner kuid r.
  assert (Hun : r =
    (let r1 : Errno + FileOwner * bool :=
       if id_Ok uid then
         if negb (id_Ok kuid) then inl EINVAL else
         if negb (hasCap || (isOwner && (ua_Owner_UID uattr =? kuid)))
         then inl EPERM else
         inr ({| o_UID := kuid; o_GID := NoID |},
              negb (ua_Owner_UID uattr =? kuid))
       else inr ({| o_UID := NoID; o_GID := NoID |}, false) in
     match r1 with
     | inl e => (Some e, s)
     | inr (owner, clearPrivilege) =>
         let kgid := MapToKGID B (UserNamespace c) gid in
         let r2 : Errno + FileOwner * bool :=
           if id_Ok gid then
             if negb (id_Ok kgid) then inl EINVAL else
             if negb (hasCap
                      || (isOwner && ((ua_Owner_GID uattr =? kgid)
                                      || InGroup B c kgid)))
             then inl EPERM else
             inr ({| o_UID := o_UID owner; o_GID := kgid |},
                  if negb (ua_Owner_GID uattr =? kgid) then true
                  else clearPrivilege)
           else inr (owner, clearPrivilege) in
         match r2 with
         | inl e => (Some e, s)
         | inr (owner, clearPrivilege) =>
             let so := b_SetOwner B w d owner in
             let s1 := set_world (set_log s (k_log s ++ [EvSetOwner d owner]))
                         (snd so) in
             match fst so with
             | Some e => (Some e, s1)
             | None =>
                 if clearPrivilege && HasSetUIDOrGID (ua_Perms uattr)
                    && negb (IsDir (b_StableAttr B (snd so) d)) then
                   let perms := DropSetUIDAndMaybeGID (ua_Perms uattr) in
                   let sp := b_SetPermissions B (snd so) d perms in
                   (if negb (fst sp) then Some EPERM else None,
                    set_world
                      (set_log s1 (k_log s1 ++ [EvSetPermissions d perms]))
                      (snd sp))
                 else (None, s1)
             end
         end
     end)).
  { subst r w hasCap isOwner kuid c. unfold chown. run. rewrite Hattr. run.
    repeat (break_match; run; try reflexivity). }
  clearbody r. subst r. split; [|split].
  - intros Huid Hok. rewrite Huid in Hok.
    destruct (negb (id_Ok kuid)); [discriminate Hok|].
    destruct (hasCap || (isOwner && (ua_Owner_UID uattr =? kuid))) eqn:E;
      [|discriminate Hok].
    apply orb_true_iff in E. destruct E as [E|E]; [left; exact E|right].
    apply andb_true_iff in E. destruct E as [E1 E2].
    split; [exact E1|]. apply Z.eqb_eq. exact E2.
  - intros Huid Hgid Hkuid Hown Hnoop owner.
    rewrite Huid, Hgid, Hkuid, Hown. simpl.
    assert (En : (ua_Owner_UID uattr =? kuid) = true) by (apply Z.eqb_eq; exact Hnoop).
    rewrite En, orb_true_r. simpl.
    fold owner. destruct (fst (b_SetOwner B w d owner)); simpl;
      repeat split; reflexivity.
  - intros Hchg Hbits owner so perms sp Hndir.
    unfold owner_changes in Hchg. subst sp so owner perms.
    unfold chown_owner in *. subst w hasCap isOwner kuid c.
    destruct (id_Ok uid) eqn:Huid; destruct (id_Ok gid) eqn:Hgid;
      simpl in *; try discriminate Hchg.
    all: repeat (match goal with
                 | |- context [if ?b then _ else _] =>
                     simple_scrut b;
                     lazymatch b with
                     | context [b_SetPermissions] => fail
                     | _ => destruct b eqn:?; simpl in *
                     end
                 | |- context [match ?x with _ => _ end] =>
                     simple_scrut x;
                     lazymatch x with
                     | context [b_SetPermissions] => fail
                     | _ => destruct x eqn:?; simpl in *
                     end
                 end).
    all: try (left; split; [discriminate|reflexivity]).
    all: try (right; left; repeat split; try reflexivity; discriminate).
    all: rewrite ?Hbits, ?Hndir in *; simpl in *.
    all: repeat match type of Hchg with
           | context [?a =? ?b] => destruct (a =? b) eqn:?; simpl in *
           end; try discriminate; try congruence.
    all: try match goal with
             | H : negb true = true |- _ => discriminate H
             | H : negb false = false |- _ => discriminate H
             end.
    all: right; right; (split; [reflexivity|]);
      (split; [destruct (fst (b_SetPermissions _ _ _ _)); reflexivity|]);
      (split; [reflexivity|]); (split; [rewrite <- app_assoc; reflexivity|]).
    all: intros HP Hok;
      match goal with
      | |- context [b_SetPermissions ?B0 ?w1 ?d0 ?p] =>
          destruct (fst (b_SetPermissions B0 w1 d0 p)) eqn:Hsp;
          [|discriminate Hok];
          destruct (HP w1 d0 p Hsp) as (ua & Hua & Hp);
          exists ua; split; [exact Hua|]; split; [exact Hp|];
          rewrite Hp; apply DropSetUIDAndMaybeGID_bits
      end.
Qed.

End ChownProperties.

Lemma test_perms_contract : perms_contract TestFS.backend.
Proof.
  intros w d p _. simpl. eexists. split; [reflexivity|].
  unfold TestFS.attr_of, TestFS.assoc. simpl.
  rewrite bool_decide_eq_true_2 by reflexivity. reflexivity.
Qed.

Lemma chown_policy_witness :
  let B := TestFS.backend in
  (* the owner, without capability, naming the current uid *)
  fst (chown B 2%nat 1000 NoID TestFS.kernel0) = None /\
  (* the owner, without capability, naming another uid *)
  fst (chown B 2%nat 0 NoID TestFS.kernel0) <> None /\
  (* root giving the file away: the setuid bit of mode 04744 goes *)
  fst (chown B 2%nat 1 NoID TestFS.kernel_root) = None /\
  exists ua,
    b_UnstableAttr B
      (k_world (snd (chown B 2%nat 1 NoID TestFS.kernel_root))) 2%nat
    = inl ua /\
    ua_Perms ua = 484 /\ Z.testbit (ua_Perms ua) 11 = false.
Proof.
  intros B.
  destruct (chown_policy B 2%nat 1000 NoID (TestFS.attr_of TestFS.world0 2%nat)
              TestFS.kernel0 eq_refl) as (_ & Hnoop & _).
  destruct (Hnoop eq_refl eq_refl eq_refl eq_refl eq_refl) as (Hres & _).
  destruct (chown_policy B 2%nat 0 NoID (TestFS.attr_of TestFS.world0 2%nat)
              TestFS.kernel0 eq_refl) as (Honly & _).
  destruct (chown_policy B 2%nat 1 NoID (TestFS.attr_of TestFS.world0 2%nat)
              TestFS.kernel_root eq_refl) as (_ & _ & Hclear).
  destruct (Hclear eq_refl eq_refl eq_refl)
    as [(Hno & _)|[(Hno & _)|(_ & Hok & _ & _ & Hbits)]].
  { exfalso. apply Hno. vm_compute. reflexivity. }
  { exfalso. apply Hno. reflexivity. }
  split; [exact Hres|]. split.
  - intros Hnone. destruct (Honly eq_refl Hnone) as [Hcap|[_ Huid]];
      [discriminate Hcap|discriminate Huid].
  - split; [exact Hok|].
    destruct (Hbits test_perms_contract Hok) as (ua & Hua & Hp & H11 & _).
    exists ua. split; [exact Hua|]. split; [exact Hp|exact H11].
Defined.

(** C7, as stated, fails: chown(/f, 1, -1) by a task with CAP_CHOWN, /f
    being a regular file of uid 1000 with mode 02744 (setgid set, no
    execute permission for the group).  The call succeeds, the uid changes
    and the setgid bit is still set. *)
Lemma chown_keeps_setgid :
  let B := TestFS.backend in
  let w := snd (TestFS.t_SetPermissions TestFS.world0 2%nat 1508) in
  let s := set_world TestFS.kernel_root w in
  let r := chown B 2%nat 1 NoID s in
  b_StableAttr B w 2%nat = RegularFile /\
  (exists ua, b_UnstableAttr B w 2%nat = inl ua /\
              ua_Owner_UID ua = 1000 /\ ua_Perms ua = 1508 /\
              HasSetUIDOrGID (ua_Perms ua) = true) /\
  fst r = None /\
  exists ua, b_UnstableAttr B (k_world (snd r)) 2%nat = inl ua /\
             ua_Owner_UID ua = 1 /\ ua_Perms ua = 1508 /\
             HasSetUIDOrGID (ua_Perms ua) = true /\
             Z.testbit (ua_Perms ua) 10 = true.
Proof.
  cbv zeta. split; [reflexivity|]. split.
  - eexists. split; [reflexivity|]. repeat split.
  - split; [vm_compute; reflexivity|].
    eexists. split; [vm_compute; reflexivity|]. repeat split.
Qed.

(** * Properties of the other operations *)

(** ** The other operations *)

Ltac run2 :=
  cbv [world_op task_creds CheckOwnership Dirent_MayDelete
       Dirent_CreateDirectory Dirent_CreateFifo Dirent_CreateLink
       Dirent_CreateHardLink Dirent_Remove Dirent_RemoveDirectory
       Inode_SetTimestamps CopyOutBytes] in *;
  run.

(** Closes a goal [same_task s s'] or [same_state s s'] once [s'] is an
    explicit update of [s]. *)
Ltac same_tac :=
  unfold same_state, same_task; simpl;
  repeat match goal with |- _ /\ _ => split end;
  try reflexivity;
  intros; unfold bump; repeat case_decide; subst; try congruence; try lia.

(** Decides the tests at the head of a hypothesis stated by cases. *)
Ltac decide_if H :=
  repeat match type of H with
         | (if ?c then _ else _) =>
             let v := eval vm_compute in c in
             change c with v in H; cbv iota in H
         end.

(** The same for a hypothesis stated by cases on a value. *)
Ltac decide_match H :=
  lazymatch type of H with
  | match ?c with _ => _ end =>
      let v := eval vm_compute in c in
      change c with v in H; cbv iota in H
  end.

Section Frames.
Context {World : Type} (B : Backend World).
Local Abbreviation K := (Kernel World).

Lemma same_task_refl (s : K) : same_task s s.
Proof. same_tac. Qed.

Lemma same_task_trans (s1 s2 s3 : K) :
  same_task s1 s2 -> same_task s2 s3 -> same_task s1 s3.
Proof.
  unfold same_task. intros H1 H2.
  destruct H1 as (?&?&?&?&?&?&?&?&?&?&Hd1&Hf1).
  destruct H2 as (?&?&?&?&?&?&?&?&?&?&Hd2&Hf2).
  repeat split; congruence.
Qed.

Lemma same_task_log (s : K) l : same_task s (set_log s l).
Proof. same_tac. Qed.

Lemma occ_cons x y l :
  occ x (y :: l) = one_if (bool_decide (y = x)) + occ x l.
Proof.
  unfold occ, one_if. simpl. case_bool_decide; simpl; lia.
Qed.

(** Releasing a list of references takes each of them off its count and
    changes nothing else. *)
Lemma release_all_exit ds (s : K) :
  let s' := snd (release_all ds s) in
  k_world s' = k_world s /\ k_fdt s' = k_fdt s /\ k_fdlimit s' = k_fdlimit s /\
  k_root s' = k_root s /\ k_wd s' = k_wd s /\ k_umask s' = k_umask s /\
  k_credheap s' = k_credheap s /\ k_creds s' = k_creds s /\
  k_fsize_cur s' = k_fsize_cur s /\ k_signals s' = k_signals s /\
  k_frame s' = k_frame s /\
  (forall x, k_drefs s' x = k_drefs s x - occ x ds) /\
  (forall f, k_frefs s' f = k_frefs s f).
Proof.
  revert s. induction ds as [|d rest IH]; intros s.
  - simpl. repeat split; try reflexivity. intros x. unfold occ. simpl. lia.
  - simpl. unfold bind. run.
    specialize (IH (set_log (set_drefs s (bump d (-1) (k_drefs s)))
                      (k_log s ++ [EvRelease d]))).
    simpl in IH.
    destruct IH as (H1&H2&H3&H4&H5&H6&H7&H8&H9&H10&H11&Hd&Hf).
    repeat split; try assumption.
    intros x. rewrite Hd, occ_cons. unfold bump, one_if.
    case_decide; case_bool_decide; subst; try congruence; lia.
Qed.

(** What the resolution part of fileOpAt leaves behind: one more reference
    on each dirent it hands over for release, the root among its results,
    and nothing else changed. *)
Lemma fileOpAt_resolve_exit dirFD path (s : K) :
  let r := fst (fileOpAt_resolve B dirFD path s) in
  let s1 := snd (fileOpAt_resolve B dirFD path s) in
  let post := match r with inl (_, _, _, _, post) => post | inr _ => [] end in
  k_world s1 = k_world s /\ k_fdt s1 = k_fdt s /\ k_fdlimit s1 = k_fdlimit s /\
  k_root s1 = k_root s /\ k_wd s1 = k_wd s /\ k_umask s1 = k_umask s /\
  k_credheap s1 = k_credheap s /\ k_creds s1 = k_creds s /\
  k_fsize_cur s1 = k_fsize_cur s /\ k_signals s1 = k_signals s /\
  k_frame s1 = k_frame s /\
  (forall x, k_drefs s1 x = k_drefs s x + occ x post) /\
  (forall f, k_frefs s1 f = k_frefs s f) /\
  match r with
  | inl (root, parent, _, _, post) => root = k_root s /\ In parent post
  | inr _ => True
  end.
Proof.
  unfold fileOpAt_resolve, fileOpOn_lookup.
  repeat (run; break_match); run.
  all: repeat (split; [reflexivity|]).
  all: split; [intros ?; unfold occ, bump; simpl;
               repeat case_bool_decide; repeat case_decide; simpl; subst;
               try congruence; lia|].
  all: split; [intros ?; unfold bump; repeat case_decide; lia|].
  all: first [exact I | split; [reflexivity|simpl; auto]].
Qed.

(** X1.  References of the parent+name resolver.  When the resolution fails,
    fileOpAt returns its error without calling the closure and changes
    nothing but the log.  Otherwise the closure is called with the task's
    root and the parent, on which the resolver holds a reference: the dirents
    it holds are the root on the first fast path, the working directory and
    the root on the second, and the parent alone on the general path, where
    the reference on the root was given back before the closure runs.  Each
    of them is released once after the closure, whatever its result, and
    the file counts are never touched. *)
Theorem fileOpAt_references dirFD path fn (s : K) :
  let r := fst (fileOpAt_resolve B dirFD path s) in
  let s1 := snd (fileOpAt_resolve B dirFD path s) in
  match r with
  | inr e => fileOpAt B dirFD path fn s = (Some e, s1) /\ same_state s s1
  | inl (root, parent, name, rem, post) =>
      let s2 := snd (fn root parent name rem s1) in
      let s' := snd (fileOpAt B dirFD path fn s) in
      root = k_root s /\
      post = (if String.eqb (fst (SplitLast B path)) "/" then [root]
              else if String.eqb (fst (SplitLast B path)) "."
                      && (dirFD =? AT_FDCWD)
                   then [k_wd s; root] else [parent]) /\
      In parent post /\
      (forall x, k_drefs s1 x = k_drefs s x + occ x post) /\
      (forall f, k_frefs s1 f = k_frefs s f) /\
      fst (fileOpAt B dirFD path fn s) = fst (fn root parent name rem s1) /\
      k_log s' = k_log s2 ++ List.map EvRelease post /\
      (forall x, k_drefs s' x = k_drefs s2 x - occ x post) /\
      (forall f, k_frefs s' f = k_frefs s2 f)
  end.
Proof.
  intros r s1.
  pose proof (fileOpAt_resolve_exit dirFD path s) as Hex.
  pose proof (fileOpAt_split B dirFD path fn s) as Hsplit.
  assert (Hpost : match r with
                  | inl (root, parent, _, _, post) =>
                      post = (if String.eqb (fst (SplitLast B path)) "/"
                              then [root]
                              else if String.eqb (fst (SplitLast B path)) "."
                                      && (dirFD =? AT_FDCWD)
                                   then [k_wd s; root] else [parent])
                  | inr _ => True
                  end).
  { subst r. unfold fileOpAt_resolve.
    destruct (String.eqb _ "/"); [run; reflexivity|].
    destruct (String.eqb _ "." && _); [run; reflexivity|].
    unfold bind. destruct (fileOpOn_lookup B dirFD _ true s)
      as [[[[root d] rem]|e] s0]; run; [reflexivity|exact I]. }
  subst r s1.
  destruct (fileOpAt_resolve B dirFD path s) as [r s1]. simpl in *.
  destruct Hex as (H1&H2&H3&H4&H5&H6&H7&H8&H9&H10&H11&Hd&Hf&Hr).
  destruct r as [[[[[root parent] name] rem] post]|e].
  - destruct Hr as [Hroot Hin].
    destruct (fn root parent name rem s1) as [err s2] eqn:Efn.
    rewrite Hsplit. simpl.
    destruct (release_all_exit post s2)
      as (_&_&_&_&_&_&_&_&_&_&_&Hd'&Hf').
    destruct (release_all_log post s2) as (Hlog&_).
    repeat split; try assumption.
  - split; [exact Hsplit|].
    unfold same_state, same_task. repeat split; try assumption.
    intros x. rewrite Hd. unfold occ. simpl. lia.
Qed.

(** A closure that leaves the task's side of the state as it was makes a
    call of fileOpAt that does. *)
Lemma fileOpAt_same_task dirFD path fn (s : K) :
  (forall root d name rem s1,
     same_task s1 (snd (fn root d name rem s1))) ->
  same_task s (snd (fileOpAt B dirFD path fn s)).
Proof.
  intros Hfn. rewrite (fileOpAt_split B).
  pose proof (fileOpAt_resolve_exit dirFD path s) as Hex.
  destruct (fileOpAt_resolve B dirFD path s) as [r s1]. simpl in Hex.
  destruct Hex as (H1&H2&H3&H4&H5&H6&H7&H8&H9&H10&H11&Hd&Hf&Hr).
  destruct r as [[[[[root parent] name] rem] post]|e].
  - specialize (Hfn root parent name rem s1).
    destruct (fn root parent name rem s1) as [err s2]. simpl in *.
    destruct (release_all_exit post s2)
      as (_&G2&G3&G4&G5&G6&G7&G8&G9&G10&G11&Gd&Gf).
    destruct Hfn as (F2&F3&F4&F5&F6&F7&F8&F9&F10&F11&Fd&Ff).
    unfold same_task. repeat split; try congruence.
    intros x. rewrite Gd, Fd, Hd. lia.
  - simpl. unfold same_task. repeat split; try assumption.
    intros x. rewrite Hd. unfold occ. simpl. lia.
Qed.

(** The state of the collaborators after fileOpAt is the one its closure
    leaves. *)
Lemma fileOpAt_world dirFD path fn (s : K) :
  k_world (snd (fileOpAt B dirFD path fn s)) =
  match fst (fileOpAt_resolve B dirFD path s) with
  | inl (root, d, name, rem, _) =>
      k_world (snd (fn root d name rem
                      (snd (fileOpAt_resolve B dirFD path s))))
  | inr _ => k_world s
  end.
Proof.
  rewrite (fileOpAt_split B).
  pose proof (fileOpAt_resolve_exit dirFD path s) as Hex.
  destruct (fileOpAt_resolve B dirFD path s) as [r s1]. simpl in *.
  destruct Hex as (H1&_).
  destruct r as [[[[[root parent] name] rem] post]|e]; [|exact H1].
  destruct (fn root parent name rem s1) as [err s2]. simpl.
  apply release_all_exit.
Qed.

Lemma fileOpOn_same_task dirFD path resolve fn (s : K) :
  (forall root d rem s1, same_task s1 (snd (fn root d rem s1))) ->
  same_task s (snd (fileOpOn B dirFD path resolve fn s)).
Proof.
  intros Hfn. rewrite (fileOpOn_split B).
  pose proof (fileOpOn_lookup_exit B dirFD path resolve s) as Hex.
  pose proof (fileOpOn_lookup_frame B dirFD path resolve s) as Hfr.
  destruct (fileOpOn_lookup B dirFD path resolve s) as [r s1]. simpl in *.
  destruct Hex as (Hd&Hf&_).
  destruct Hfr as (H1&H2&H3&H4&H5&H6&H7&H8&H9&H10&H11).
  destruct r as [[[root d] rem]|e].
  - specialize (Hfn root d rem s1).
    destruct (fn root d rem s1) as [err s2]. simpl in *.
    destruct Hfn as (F2&F3&F4&F5&F6&F7&F8&F9&F10&F11&Fd&Ff).
    unfold same_task. run. repeat split; try congruence.
    intros x. unfold bump. rewrite Fd, Hd. unfold one_if.
    case_decide; case_bool_decide; subst; try congruence; lia.
  - simpl. unfold same_task. repeat split; try assumption.
    intros x. rewrite Hd. rewrite bool_decide_eq_false_2 by done.
    simpl. lia.
Qed.

Lemma fileOpOn_world dirFD path resolve fn (s : K) :
  k_world (snd (fileOpOn B dirFD path resolve fn s)) =
  match fst (fileOpOn_lookup B dirFD path resolve s) with
  | inl (root, d, rem) =>
      k_world (snd (fn root d rem
                      (snd (fileOpOn_lookup B dirFD path resolve s))))
  | inr _ => k_world s
  end.
Proof.
  rewrite (fileOpOn_split B).
  pose proof (fileOpOn_lookup_frame B dirFD path resolve s) as Hfr.
  destruct (fileOpOn_lookup B dirFD path resolve s) as [r s1]. simpl in *.
  destruct Hfr as (H1&_).
  destruct r as [[[root d] rem]|e]; [|exact H1].
  destruct (fn root d rem s1) as [err s2]. reflexivity.
Qed.

(** copyInPath reads the task's memory and changes nothing. *)
Lemma copyInPath_same_state addr allowEmpty (s : K) :
  same_state s (snd (copyInPath B addr allowEmpty s)) /\
  k_log (snd (copyInPath B addr allowEmpty s))
  = k_log s ++ [EvCopyInString addr].
Proof.
  unfold copyInPath. repeat (run; break_match); run; split;
    first [reflexivity | same_tac].
Qed.

End Frames.

Section NodeCreation.
Context {World : Type} (B : Backend World) (X : Ops World).
Local Abbreviation K := (Kernel World).

Lemma copyInPath_at addr path dirPath (s : K) :
  path_at B s addr path dirPath ->
  copyInPath B addr false s = (inl (path, dirPath), copied addr s).
Proof.
  intros (raw & Hcopy & Hne & Htrim).
  rewrite (copyInPath_ok B addr false raw s Hcopy) by (intros E; contradiction).
  rewrite Htrim. reflexivity.
Qed.

(** Once the parent resolves, fileOpAt is the closure at the state the
    resolution leaves, followed by the releases. *)
Lemma fileOpAt_at dirFD path fn root d name rem post (s0 s1 : K) :
  fileOpAt_resolve B dirFD path s0 = (inl (root, d, name, rem, post), s1) ->
  fileOpAt B dirFD path fn s0 =
    (fst (fn root d name rem s1),
     snd (release_all post (snd (fn root d name rem s1)))) /\
  k_world s1 = k_world s0 /\ k_umask s1 = k_umask s0 /\
  creds_of s1 = creds_of s0.
Proof.
  intros Hres. rewrite (fileOpAt_split B), Hres.
  pose proof (fileOpAt_resolve_exit B dirFD path s0) as Hex.
  rewrite Hres in Hex. simpl in Hex.
  destruct Hex as (H1&_&_&_&_&H6&H7&H8&_).
  destruct (fn root d name rem s1) as [err s2]. simpl.
  split; [reflexivity|]. split; [exact H1|]. split; [exact H6|].
  unfold creds_of, Credentials_at. rewrite H7, H8. reflexivity.
Qed.

Lemma release_all_world ds (s : K) :
  k_world (snd (release_all ds s)) = k_world s.
Proof. apply release_all_exit. Qed.

(** *** mknodAt *)

Lemma mknodAt_fn_same_task mode root d name rem (s : K) :
  same_task s (snd (mknodAt_fn B X mode root d name rem s)).
Proof.
  unfold mknodAt_fn. repeat (run2; break_match); run2; same_tac.
Qed.

Lemma mknodAt_fn_world mode root d name rem (s : K) :
  k_world (snd (mknodAt_fn B X mode root d name rem s)) <> k_world s ->
  FileType mode = 0 \/ FileType mode = ModeRegular \/
  FileType mode = ModeNamedPipe.
Proof.
  unfold mknodAt_fn.
  destruct (FileType mode =? 0) eqn:E0;
    [intros _; left; apply Z.eqb_eq; exact E0|].
  destruct (FileType mode =? ModeRegular) eqn:E1;
    [intros _; right; left; apply Z.eqb_eq; exact E1|].
  destruct (FileType mode =? ModeNamedPipe) eqn:E2;
    [intros _; right; right; apply Z.eqb_eq; exact E2|].
  repeat (run2; break_match); run2; intros H; contradiction H; reflexivity.
Qed.

(** X2.  What mknod leaves behind.  For every call and every mode, the
    descriptor table and every reference count are as before the call: the
    file a regular creation returns is released at once.  The state of the
    filesystem changes only when the file type of the mode is 0, regular or
    named pipe: sockets, devices and any other type are refused without a
    request to the backend. *)
Theorem mknodAt_effects dirFD addr mode (s : K) :
  let r := mknodAt B X dirFD addr mode s in
  same_task s (snd r) /\
  (k_world (snd r) <> k_world s ->
   FileType mode = 0 \/ FileType mode = ModeRegular \/
   FileType mode = ModeNamedPipe) /\
  ((FileType mode =? 0) || (FileType mode =? ModeRegular)
   || (FileType mode =? ModeNamedPipe) = false -> fst r <> None).
Proof.
  intros r. subst r. unfold mknodAt, bind.
  destruct (copyInPath_same_state B addr false s) as [[Hw Ht] _].
  destruct (copyInPath B addr false s) as [[[path dirPath]|e] s0];
    simpl in *.
  2: { run. split; [exact Ht|]. split; [intros H; congruence|discriminate]. }
  destruct dirPath.
  { run. split; [exact Ht|]. split; [intros H; congruence|discriminate]. }
  split; [|split].
  - eapply same_task_trans; [exact Ht|].
    apply fileOpAt_same_task. intros. apply mknodAt_fn_same_task.
  - rewrite fileOpAt_world.
    pose proof (fileOpAt_resolve_exit B dirFD path s0) as Hex.
    destruct (fileOpAt_resolve B dirFD path s0) as [[[[[[root d] name] rem] post]|e] s1];
      simpl in *; [|intros H; congruence].
    destruct Hex as (Hw1 & _). rewrite <- Hw, <- Hw1.
    apply mknodAt_fn_world.
  - intros Hty. rewrite (fileOpAt_split B).
    destruct (fileOpAt_resolve B dirFD path s0) as [[[[[[root d] name] rem] post]|e] s1];
      simpl; [|discriminate].
    apply orb_false_elim in Hty. destruct Hty as [Hty E2].
    apply orb_false_elim in Hty. destruct Hty as [E0 E1].
    unfold mknodAt_fn. rewrite E0, E1, E2.
    repeat (run2; break_match); run2; discriminate.
Qed.

(** X3.  The dispatch of mknod on the file type, once the parent resolves to
    a directory the caller may write and search.  Type 0 and regular ask the
    backend for a file with the permissions [mode &^ umask]; a named pipe
    asks for a fifo with the same permissions; a socket is refused with
    EOPNOTSUPP, a character or block device with EPERM and anything else
    with EINVAL, the filesystem being left as it was. *)
Theorem mknodAt_dispatch dirFD addr mode path root d name rem post
    (s s1 : K) :
  path_at B s addr path false ->
  fileOpAt_resolve B dirFD path (copied addr s)
    = (inl (root, d, name, rem, post), s1) ->
  IsDir (b_StableAttr B (k_world s) d) = true ->
  b_CheckPermission B (k_world s) (creds_of s) d write_exec = None ->
  let r := mknodAt B X dirFD addr mode s in
  let w := k_world s in
  let perms := new_perms B s mode in
  let ft := FileType mode in
  if (ft =? 0) || (ft =? ModeRegular) then
    let c := b_Create B w root d name
               {| ff_Read := true; ff_Write := true; ff_Directory := false;
                  ff_LargeFile := false; ff_Truncate := false;
                  ff_Append := false; ff_NonBlocking := false |} perms in
    fst r = match fst c with inl _ => None | inr e => Some e end /\
    k_world (snd r) = snd c
  else if ft =? ModeNamedPipe then
    fst r = fst (o_CreateFifo X w root d name perms) /\
    k_world (snd r) = snd (o_CreateFifo X w root d name perms)
  else
    fst r = Some (if ft =? ModeSocket then EOPNOTSUPP
                  else if (ft =? ModeCharacterDevice)
                          || (ft =? ModeBlockDevice) then EPERM
                  else EINVAL) /\
    k_world (snd r) = k_world s.
Proof.
  intros Hpath Hres Hdir Hperm r w perms ft. subst r w perms ft.
  unfold mknodAt, bind. rewrite (copyInPath_at addr path false s Hpath).
  destruct (fileOpAt_at dirFD path (mknodAt_fn B X mode) root d name rem post
              (copied addr s) s1 Hres) as (Hcall & Hw & Hu & Hc).
  rewrite Hcall. simpl. rewrite release_all_world.
  change (creds_of (copied addr s)) with (creds_of s) in Hc.
  change (k_world (copied addr s)) with (k_world s) in Hw.
  change (k_umask (copied addr s)) with (k_umask s) in Hu.
  unfold new_perms. unfold creds_of, write_exec in *.
  rewrite <- Hw, <- Hu in *. rewrite <- Hc in Hperm.
  unfold mknodAt_fn. run2. rewrite Hdir. simpl. rewrite Hperm. simpl.
  destruct (FileType mode =? 0); simpl.
  { destruct (b_Create B _ root d name _ _) as [[f|e] w']; simpl;
      split; reflexivity. }
  destruct (FileType mode =? ModeRegular); simpl.
  { destruct (b_Create B _ root d name _ _) as [[f|e] w']; simpl;
      split; reflexivity. }
  destruct (FileType mode =? ModeNamedPipe); simpl.
  { split; reflexivity. }
  destruct (FileType mode =? ModeSocket); simpl; [split; reflexivity|].
  destruct ((FileType mode =? ModeCharacterDevice)
            || (FileType mode =? ModeBlockDevice)); simpl; split; reflexivity.
Qed.

End NodeCreation.

Lemma mknodAt_dispatch_witness :
  let B := TestOps.backend in
  let X := TestOps.ops in
  let s := TestOps.kernel in
  (* mknod("/f2", S_IFIFO | 0666) and mknod("/f2", S_IFSOCK | 0666) *)
  fst (mknodAt B X AT_FDCWD 11 (ModeNamedPipe + 438) s) = None /\
  b_StableAttr B (k_world (snd (mknodAt B X AT_FDCWD 11
                                  (ModeNamedPipe + 438) s))) 10%nat = Pipe /\
  fst (mknodAt B X AT_FDCWD 11 (ModeSocket + 438) s) = Some EOPNOTSUPP /\
  k_world (snd (mknodAt B X AT_FDCWD 11 (ModeSocket + 438) s)) = k_world s.
Proof.
  intros B X s.
  pose (s1 := snd (fileOpAt_resolve B AT_FDCWD "/f2" (copied 11 s))).
  assert (Hp : path_at B s 11 "/f2" false).
  { exists "/f2"%string. repeat split; [discriminate]. }
  pose proof (mknodAt_dispatch B X AT_FDCWD 11 (ModeNamedPipe + 438) "/f2"
                0%nat 0%nat "f2" 40 [0%nat] s s1 Hp
                ltac:(vm_compute; reflexivity) eq_refl eq_refl) as H1.
  pose proof (mknodAt_dispatch B X AT_FDCWD 11 (ModeSocket + 438) "/f2"
                0%nat 0%nat "f2" 40 [0%nat] s s1 Hp
                ltac:(vm_compute; reflexivity) eq_refl eq_refl) as H2.
  cbv zeta in H1, H2. decide_if H1. decide_if H2.
  destruct H1 as [H1 H1'], H2 as [H2 H2'].
  split; [exact H1|]. split; [rewrite H1'; reflexivity|].
  split; [exact H2|exact H2'].
Defined.

Section DirectoryEntries.
Context {World : Type} (B : Backend World) (X : Ops World).
Local Abbreviation K := (Kernel World).

(** *** mkdirAt *)

Lemma mkdirAt_fn_same_task mode root d name rem (s : K) :
  same_task s (snd (mkdirAt_fn B X mode root d name rem s)).
Proof.
  unfold mkdirAt_fn. repeat (run2; break_match); run2; same_tac.
Qed.

(** X4.  mkdir on a parent that resolves to a directory.  The name is looked
    up under the parent with a fresh traversal budget, whatever the
    resolution of the parent has used, and trailing slashes of the path play
    no part.  A name that exists gives EEXIST and a lookup that fails with
    EACCES gives EACCES, the filesystem being left as it was.  Every other
    lookup error, not only a missing name, leads on: the caller needs write
    and search permission on the parent, and the backend is then asked for a
    directory with the permissions [mode &^ umask].  In every case the
    reference counts are back to their values: the reference on a node found
    is given back. *)
Theorem mkdirAt_lookup dirFD addr mode path dirPath root d name rem post
    (s s1 : K) :
  path_at B s addr path dirPath ->
  fileOpAt_resolve B dirFD path (copied addr s)
    = (inl (root, d, name, rem, post), s1) ->
  IsDir (b_StableAttr B (k_world s) d) = true ->
  let r := mkdirAt B X dirFD addr mode s in
  let w := k_world s in
  same_task s (snd r) /\
  match fst (b_FindInode B w root (Some d) name MaxSymlinkTraversals) with
  | inl f => fst r = Some EEXIST /\ k_world (snd r) = w
  | inr err =>
      if bool_decide (err = EACCES)
      then fst r = Some EACCES /\ k_world (snd r) = w
      else match b_CheckPermission B w (creds_of s) d write_exec with
           | Some e => fst r = Some e /\ k_world (snd r) = w
           | None =>
               let c := o_CreateDirectory X w root d name
                          (new_perms B s mode) in
               fst r = fst c /\ k_world (snd r) = snd c
           end
  end.
Proof.
  intros Hpath Hres Hdir r w. subst r w.
  split.
  { unfold mkdirAt, bind.
    destruct (copyInPath_same_state B addr false s) as [[_ Ht] _].
    destruct (copyInPath B addr false s) as [[[p dp]|e] s0]; simpl in *;
      [|exact Ht].
    eapply same_task_trans; [exact Ht|].
    apply fileOpAt_same_task. intros. apply mkdirAt_fn_same_task. }
  unfold mkdirAt, bind. rewrite (copyInPath_at B addr path dirPath s Hpath).
  destruct (fileOpAt_at B dirFD path (mkdirAt_fn B X mode) root d name rem
              post (copied addr s) s1 Hres) as (Hcall & Hw & Hu & Hc).
  rewrite Hcall. simpl. rewrite release_all_world.
  change (creds_of (copied addr s)) with (creds_of s) in Hc.
  change (k_world (copied addr s)) with (k_world s) in Hw.
  change (k_umask (copied addr s)) with (k_umask s) in Hu.
  unfold new_perms. unfold creds_of, write_exec in *.
  rewrite <- Hw, <- Hu in *. rewrite <- Hc.
  unfold mkdirAt_fn. run2. rewrite Hdir. simpl.
  destruct (b_FindInode B (k_world s1) root (Some d) name
              MaxSymlinkTraversals) as [[f|err] rem']; simpl.
  { split; reflexivity. }
  destruct (bool_decide (err = EACCES)) eqn:Eacc.
  { apply bool_decide_eq_true in Eacc. subst err. split; reflexivity. }
  simpl.
  destruct (b_CheckPermission B (k_world s1) _ d _); simpl;
    split; reflexivity.
Qed.

(** *** symlinkAt *)

Lemma symlinkAt_fn_same_task oldPath root d name rem (s : K) :
  same_task s (snd (symlinkAt_fn B X oldPath root d name rem s)).
Proof.
  unfold symlinkAt_fn. repeat (run2; break_match); run2; same_tac.
Qed.

(** X5.  The two paths of symlink.  A new path with a trailing slash fails
    with ENOENT before the old path is read.  Otherwise the old path is read
    as it stands in memory: an empty one fails with ENOENT before any
    resolution, and any other one is the text handed to the backend,
    untrimmed, once the parent of the new path resolves to a directory the
    caller may write and search. *)
Theorem symlinkAt_paths dirFD newAddr oldAddr path dirPath (s : K) :
  path_at B s newAddr path dirPath ->
  let r := symlinkAt B X dirFD newAddr oldAddr s in
  let w := k_world s in
  if dirPath then r = (Some ENOENT, copied newAddr s)
  else
    match b_CopyInString B w oldAddr with
    | inr e => r = (Some e, copied oldAddr (copied newAddr s))
    | inl oldPath =>
        if String.eqb oldPath ""
        then r = (Some ENOENT, copied oldAddr (copied newAddr s))
        else
          same_task s (snd r) /\
          forall root d name rem post s1,
            fileOpAt_resolve B dirFD path (copied oldAddr (copied newAddr s))
              = (inl (root, d, name, rem, post), s1) ->
            IsDir (b_StableAttr B w d) = true ->
            b_CheckPermission B w (creds_of s) d write_exec = None ->
            fst r = fst (o_CreateLink X w root d oldPath name) /\
            k_world (snd r) = snd (o_CreateLink X w root d oldPath name)
    end.
Proof.
  intros Hpath r w.
  assert (Hr : r =
    if dirPath then (Some ENOENT, copied newAddr s)
    else match b_CopyInString B (k_world s) oldAddr with
         | inr e => (Some e, copied oldAddr (copied newAddr s))
         | inl oldPath =>
             if String.eqb oldPath ""
             then (Some ENOENT, copied oldAddr (copied newAddr s))
             else fileOpAt B dirFD path (symlinkAt_fn B X oldPath)
                    (copied oldAddr (copied newAddr s))
         end).
  { subst r. unfold symlinkAt, bind.
    rewrite (copyInPath_at B newAddr path dirPath s Hpath).
    destruct dirPath; [reflexivity|]. run.
    destruct (b_CopyInString B (k_world s) oldAddr) as [oldPath|e];
      [|reflexivity].
    destruct (String.eqb oldPath ""); reflexivity. }
  subst w. rewrite Hr. clear Hr r.
  destruct dirPath; [reflexivity|].
  destruct (b_CopyInString B (k_world s) oldAddr) as [oldPath|e];
    [|reflexivity].
  destruct (String.eqb oldPath "") eqn:Eold; [reflexivity|].
  split.
  { eapply same_task_trans;
      [|apply fileOpAt_same_task; intros; apply symlinkAt_fn_same_task].
    same_tac. }
  intros root d name rem post s1 Hres Hdir Hperm.
  destruct (fileOpAt_at B dirFD path (symlinkAt_fn B X oldPath) root d name
              rem post _ s1 Hres) as (Hcall & Hw & Hu & Hc).
  rewrite Hcall. simpl. rewrite release_all_world.
  change (creds_of (copied oldAddr (copied newAddr s))) with (creds_of s) in Hc.
  change (k_world (copied oldAddr (copied newAddr s))) with (k_world s) in Hw.
  unfold creds_of, write_exec in *.
  rewrite <- Hw in *. rewrite <- Hc in Hperm.
  unfold symlinkAt_fn. run2. rewrite Hdir. simpl. rewrite Hperm. simpl.
  split; reflexivity.
Qed.

(** *** unlinkAt *)

Lemma unlinkAt_fn_same_task dirPath root d name rem (s : K) :
  same_task s (snd (unlinkAt_fn B X dirPath root d name rem s)).
Proof.
  unfold unlinkAt_fn. repeat (run2; break_match); run2; same_tac.
Qed.

(** X6.  unlink asks before it removes.  Once the parent resolves to a
    directory, the backend's "may delete" check is made first: when it
    fails, its error is returned and the filesystem is left as it was;
    when it passes, the removal of the name is asked of the backend, which
    is told whether the path had trailing slashes, and its result is
    returned.  The reference counts and descriptors are as before. *)
Theorem unlinkAt_may_delete dirFD addr path dirPath root d name rem post
    (s s1 : K) :
  path_at B s addr path dirPath ->
  fileOpAt_resolve B dirFD path (copied addr s)
    = (inl (root, d, name, rem, post), s1) ->
  IsDir (b_StableAttr B (k_world s) d) = true ->
  let r := unlinkAt B X dirFD addr s in
  let w := k_world s in
  same_task s (snd r) /\
  match o_MayDelete X w (creds_of s) root d name with
  | Some e => fst r = Some e /\ k_world (snd r) = w
  | None =>
      fst r = fst (o_Remove X w root d name dirPath) /\
      k_world (snd r) = snd (o_Remove X w root d name dirPath)
  end.
Proof.
  intros Hpath Hres Hdir r w. subst r w.
  split.
  { unfold unlinkAt, bind.
    destruct (copyInPath_same_state B addr false s) as [[_ Ht] _].
    destruct (copyInPath B addr false s) as [[[p dp]|e] s0]; simpl in *;
      [|exact Ht].
    eapply same_task_trans; [exact Ht|].
    apply fileOpAt_same_task. intros. apply unlinkAt_fn_same_task. }
  unfold unlinkAt, bind. rewrite (copyInPath_at B addr path dirPath s Hpath).
  destruct (fileOpAt_at B dirFD path (unlinkAt_fn B X dirPath) root d name rem
              post (copied addr s) s1 Hres) as (Hcall & Hw & Hu & Hc).
  rewrite Hcall. simpl. rewrite release_all_world.
  change (creds_of (copied addr s)) with (creds_of s) in Hc.
  change (k_world (copied addr s)) with (k_world s) in Hw.
  unfold creds_of in *. rewrite <- Hw in *. rewrite <- Hc.
  unfold unlinkAt_fn. run2. rewrite Hdir. simpl.
  destruct (o_MayDelete X (k_world s1) _ root d name); simpl;
    split; reflexivity.
Qed.

End DirectoryEntries.

Lemma mkdirAt_lookup_witness :
  let B := TestOps.backend in
  let X := TestOps.ops in
  let s := TestOps.kernel in
  (* mkdir("/d/", 0755) on the directory that exists, mkdir("/g", 0755) *)
  fst (mkdirAt B X AT_FDCWD 12 493 s) = Some EEXIST /\
  k_world (snd (mkdirAt B X AT_FDCWD 12 493 s)) = k_world s /\
  fst (mkdirAt B X AT_FDCWD 18 493 s) = None /\
  b_StableAttr B (k_world (snd (mkdirAt B X AT_FDCWD 18 493 s))) 10%nat
  = Directory.
Proof.
  intros B X s.
  pose proof (mkdirAt_lookup B X AT_FDCWD 12 493 "/d" true
                0%nat 0%nat "d" 40 [0%nat] s
                (snd (fileOpAt_resolve B AT_FDCWD "/d" (copied 12 s)))
                ltac:(exists "/d/"%string; repeat split; discriminate)
                ltac:(vm_compute; reflexivity) eq_refl) as H1.
  pose proof (mkdirAt_lookup B X AT_FDCWD 18 493 "/g" false
                0%nat 0%nat "g" 40 [0%nat] s
                (snd (fileOpAt_resolve B AT_FDCWD "/g" (copied 18 s)))
                ltac:(exists "/g"%string; repeat split; discriminate)
                ltac:(vm_compute; reflexivity) eq_refl) as H2.
  cbv zeta in H1, H2. destruct H1 as [_ H1], H2 as [_ H2].
  destruct H1 as [H1 H1']. destruct H2 as [H2 H2'].
  split; [exact H1|]. split; [exact H1'|]. split; [exact H2|].
  rewrite H2'. reflexivity.
Defined.

Lemma symlinkAt_paths_witness :
  let B := TestOps.backend in
  let X := TestOps.ops in
  let s := TestOps.kernel in
  (* symlink("target/", "/g"): the text keeps its trailing slash;
     symlink("target/", "/d/") fails before the text is read *)
  fst (symlinkAt B X AT_FDCWD 18 17 s) = None /\
  b_Readlink B (k_world (snd (symlinkAt B X AT_FDCWD 18 17 s))) 10%nat
  = inl "target/"%string /\
  symlinkAt B X AT_FDCWD 12 17 s = (Some ENOENT, copied 12 s).
Proof.
  intros B X s.
  pose proof (symlinkAt_paths B X AT_FDCWD 18 17 "/g" false s
                ltac:(exists "/g"%string; repeat split; discriminate)) as H1.
  pose proof (symlinkAt_paths B X AT_FDCWD 12 17 "/d" true s
                ltac:(exists "/d/"%string; repeat split; discriminate)) as H2.
  cbv zeta iota in H1, H2.
  change (b_CopyInString B (k_world s) 17) with (@inl string Errno "target/"%string) in H1.
  cbv iota in H1. decide_if H1.
  destruct H1 as [_ H1].
  destruct (H1 0%nat 0%nat "g"%string 40 [0%nat]
              (snd (fileOpAt_resolve B AT_FDCWD "/g" (copied 17 (copied 18 s))))
              ltac:(vm_compute; reflexivity) eq_refl eq_refl) as [Ha Hb].
  split; [exact Ha|]. split; [rewrite Hb; reflexivity|exact H2].
Defined.

Lemma unlinkAt_may_delete_witness :
  let B := TestOps.backend in
  let X := TestOps.ops in
  let s := TestOps.kernel in
  (* unlink("/f2"), a name that does not exist, and unlink("/f") *)
  fst (unlinkAt B X AT_FDCWD 11 s) = Some ENOENT /\
  k_world (snd (unlinkAt B X AT_FDCWD 11 s)) = k_world s /\
  fst (unlinkAt B X AT_FDCWD 2 s) = None /\
  fst (b_FindLink B (k_world (snd (unlinkAt B X AT_FDCWD 2 s))) 0%nat None
         "/f" 40) = inr ENOENT.
Proof.
  intros B X s.
  pose proof (unlinkAt_may_delete B X AT_FDCWD 11 "/f2" false
                0%nat 0%nat "f2" 40 [0%nat] s
                (snd (fileOpAt_resolve B AT_FDCWD "/f2" (copied 11 s)))
                ltac:(exists "/f2"%string; repeat split; discriminate)
                ltac:(vm_compute; reflexivity) eq_refl) as H1.
  pose proof (unlinkAt_may_delete B X AT_FDCWD 2 "/f" false
                0%nat 0%nat "f" 40 [0%nat] s
                (snd (fileOpAt_resolve B AT_FDCWD "/f" (copied 2 s)))
                ltac:(exists "/f"%string; repeat split; discriminate)
                ltac:(vm_compute; reflexivity) eq_refl) as H2.
  cbv zeta in H1, H2. destruct H1 as [_ [H1 H1']], H2 as [_ [H2 H2']].
  split; [exact H1|]. split; [exact H1'|]. split; [exact H2|].
  rewrite H2'. reflexivity.
Defined.

Section DescriptorCalls.
Context {World : Type} (B : Backend World) (X : Ops World).
Local Abbreviation K := (Kernel World).

(** *** Ftruncate *)

(** X7.  The checks of ftruncate.  For every call: the descriptor table and
    every reference count are as before; the permissions of the inode are
    never consulted, the write flag of the open file standing for them; a
    descriptor open for writing on anything that is not a file, a directory
    included, gives EINVAL; a signal is sent only together with EFBIG and an
    untouched filesystem, and it is SIGXFSZ; and the filesystem changes only
    if the descriptor is open for writing on a file and the length is
    non-negative and below the file-size limit. *)
Theorem Ftruncate_checks fd length (s : K) :
  let r := Ftruncate B fd length s in
  k_fdt (snd r) = k_fdt s /\
  (forall x, k_drefs (snd r) x = k_drefs s x) /\
  (forall f, k_frefs (snd r) f = k_frefs s f) /\
  (exists evs, k_log (snd r) = k_log s ++ evs /\
               count is_check_permission evs = 0) /\
  (forall file fl, k_fdt s !! fd = Some (file, fl) ->
     ff_Write (f_flags file) = true ->
     IsFile (b_StableAttr B (k_world s) (f_dirent file)) = false ->
     fst r = Some EINVAL) /\
  (k_signals (snd r) = k_signals s \/
   k_signals (snd r) = k_signals s ++ [sigxfsz] /\
   fst r = Some EFBIG /\ k_world (snd r) = k_world s) /\
  (k_world (snd r) <> k_world s ->
   exists file fl, k_fdt s !! fd = Some (file, fl) /\
     ff_Write (f_flags file) = true /\
     IsFile (b_StableAttr B (k_world s) (f_dirent file)) = true /\
     0 <= length /\ wrap_uint64 length < k_fsize_cur s).
Proof.
  intros r. subst r. unfold Ftruncate. run.
  assert (Hpre : forall file fl,
            k_fdt s !! fd = Some (file, fl) ->
            ff_Write (f_flags file) = true ->
            IsFile (b_StableAttr B (k_world s) (f_dirent file)) = true ->
            (length <? 0) = false ->
            (k_fsize_cur s <=? wrap_uint64 length) = false ->
            exists file0 fl0, k_fdt s !! fd = Some (file0, fl0) /\
              ff_Write (f_flags file0) = true /\
              IsFile (b_StableAttr B (k_world s) (f_dirent file0)) = true /\
              0 <= length /\ wrap_uint64 length < k_fsize_cur s).
  { intros file fl H1 H2 H3 H4 H5. exists file, fl.
    repeat split; try assumption; lia. }
  destruct (k_fdt s !! fd) as [[file fl]|] eqn:Efd; run.
  2: { split; [|split; [|split; [|split; [|split; [|split]]]]];
         try reflexivity.
       - exists []. rewrite app_nil_r. split; reflexivity.
       - intros ? ? H. discriminate H.
       - left. reflexivity.
       - intros H. contradiction H. reflexivity. }
  specialize (Hpre file fl eq_refl).
  destruct (ff_Write (f_flags file)) eqn:Ew; run;
    [destruct (IsFile (b_StableAttr B (k_world s) (f_dirent file))) eqn:Ety;
     run;
     [destruct (length <? 0) eqn:Elen; run;
      [|destruct (k_fsize_cur s <=? wrap_uint64 length) eqn:Elim; run;
        [|destruct (b_Truncate B (k_world s) (f_dirent file) length)
            as [[e|] w'] eqn:Etr; run]]|]|].
  all: split; [|split; [|split; [|split; [|split; [|split]]]]];
    try reflexivity.
  all: try (intros ?; unfold bump; repeat case_decide; lia).
  all: try (log_ext; reflexivity).
  all: try (intros ? ? H; intros; inversion H; subst; congruence).
  all: try (left; reflexivity).
  all: try (right; repeat split; reflexivity).
  all: try (intros H; contradiction H; reflexivity).
  all: intros _; apply Hpre; reflexivity.
Qed.

(** *** Fadvise64 *)

(** X8.  fadvise64 only validates.  No call changes anything but the log:
    the filesystem, the descriptor table, the signals and every reference
    count are as before.  The call succeeds exactly when the length is not
    negative, the descriptor is open on something that is not a pipe, and
    the advice is one of the six known values; the offset plays no part. *)
Theorem Fadvise64_validates fd length advice (s : K) :
  let r := Fadvise64 B fd length advice s in
  same_state s (snd r) /\
  (fst r = None <->
   0 <= length /\
   (exists file fl, k_fdt s !! fd = Some (file, fl) /\
      IsPipe (b_StableAttr B (k_world s) (f_dirent file)) = false) /\
   POSIX_FADV_NORMAL <= advice <= POSIX_FADV_NOREUSE).
Proof.
  intros r. subst r. unfold Fadvise64.
  unfold POSIX_FADV_NORMAL, POSIX_FADV_RANDOM, POSIX_FADV_SEQUENTIAL,
    POSIX_FADV_WILLNEED, POSIX_FADV_DONTNEED, POSIX_FADV_NOREUSE.
  destruct (length <? 0) eqn:Elen; run.
  { split; [same_tac|]. split; [discriminate|]. intros (H & _). lia. }
  destruct (k_fdt s !! fd) as [[file fl]|] eqn:Efd; run.
  2: { split; [same_tac|]. split; [discriminate|].
       intros (_ & (f & l & H & _) & _). discriminate H. }
  destruct (IsPipe (b_StableAttr B (k_world s) (f_dirent file))) eqn:Ety; run.
  { split; [same_tac|]. split; [discriminate|].
    intros (_ & (f & l & H & Hp) & _). inversion H; subst. congruence. }
  destruct ((advice =? 0) || (advice =? 1) || (advice =? 2) || (advice =? 3)
            || (advice =? 4) || (advice =? 5)) eqn:Eadv; run.
  - split; [same_tac|]. split; [|reflexivity]. intros _.
    split; [lia|]. split; [exists file, fl; split; [reflexivity|exact Ety]|].
    repeat (apply orb_prop in Eadv; destruct Eadv as [Eadv|Eadv]); lia.
  - split; [same_tac|]. split; [discriminate|]. intros (_ & _ & Ha).
    repeat (apply orb_false_elim in Eadv; destruct Eadv as [Eadv ?]). lia.
Qed.

(** *** Fchown and Fchownat *)

(** X9.  The flags of fchownat.  For every call, a flag other than
    AT_EMPTY_PATH and AT_SYMLINK_NOFOLLOW gives EINVAL before anything is
    read, whatever the path in memory.  With valid flags, an empty path in
    memory and a path helper that keeps the empty path empty: under
    AT_EMPTY_PATH the call is fchown on the descriptor, after the read of
    the path; without it the call fails with ENOENT and the descriptor is
    not looked at. *)
Theorem Fchownat_empty_path dirFD addr uid gid flags (s : K) :
  let r := Fchownat B dirFD addr uid gid flags s in
  if negb (Z.ldiff flags (Z.lor AT_EMPTY_PATH AT_SYMLINK_NOFOLLOW) =? 0)
  then r = (Some EINVAL, s)
  else
    b_CopyInString B (k_world s) addr = inl ""%string ->
    fst (TrimTrailingSlashes B "") = ""%string ->
    if Z.land flags AT_EMPTY_PATH =? 0
    then r = (Some ENOENT, copied addr s)
    else r = Fchown B dirFD uid gid (copied addr s).
Proof.
  intros r. subst r. unfold Fchownat.
  destruct (negb (Z.ldiff flags _ =? 0)); [reflexivity|].
  intros Hcopy Htrim.
  unfold chownAt, bind at 1. unfold copyInPath, bind at 1.
  unfold CopyInString. run. rewrite Hcopy. simpl.
  destruct (Z.land flags AT_EMPTY_PATH =? 0); simpl; [reflexivity|].
  destruct (TrimTrailingSlashes B "") as [p dp]. simpl in Htrim. subst p.
  simpl. unfold Fchown. reflexivity.
Qed.

End DescriptorCalls.

Lemma Fchownat_empty_path_witness :
  let B := TestOps.backend in
  let s := TestOps.kernel_fds in
  (* fchownat(3, "", -1, -1, AT_EMPTY_PATH), the same without the flag, and
     fchownat(AT_FDCWD, "/f", -1, -1, 1), whose flag is not known *)
  Fchownat B 3 6 NoID NoID AT_EMPTY_PATH s = Fchown B 3 NoID NoID (copied 6 s)
  /\ Fchownat B 3 6 NoID NoID 0 s = (Some ENOENT, copied 6 s)
  /\ Fchownat B AT_FDCWD 2 NoID NoID 1 s = (Some EINVAL, s).
Proof.
  intros B s.
  pose proof (Fchownat_empty_path B 3 6 NoID NoID AT_EMPTY_PATH s) as H1.
  pose proof (Fchownat_empty_path B 3 6 NoID NoID 0 s) as H2.
  pose proof (Fchownat_empty_path B AT_FDCWD 2 NoID NoID 1 s) as H3.
  cbv zeta in H1, H2, H3. decide_if H1. decide_if H2. decide_if H3.
  specialize (H1 eq_refl eq_refl). specialize (H2 eq_refl eq_refl).
  decide_if H1. decide_if H2.
  split; [exact H1|]. split; [exact H2|exact H3].
Defined.

Section Attributes.
Context {World : Type} (B : Backend World) (X : Ops World).
Local Abbreviation K := (Kernel World).

(** Once the path resolves, fileOpOn is the closure at the state the lookup
    leaves, followed by the release of the node. *)
Lemma fileOpOn_at dirFD path resolve fn root d rem (s0 s1 : K) :
  fileOpOn_lookup B dirFD path resolve s0 = (inl (root, d, rem), s1) ->
  fileOpOn B dirFD path resolve fn s0 =
    (fst (fn root d rem s1), snd (DecRef d (snd (fn root d rem s1)))) /\
  k_world s1 = k_world s0 /\ creds_of s1 = creds_of s0 /\
  k_frame s1 = k_frame s0.
Proof.
  intros Hres. rewrite (fileOpOn_split B), Hres.
  pose proof (fileOpOn_lookup_frame B dirFD path resolve s0) as Hfr.
  rewrite Hres in Hfr. simpl in Hfr.
  destruct Hfr as (H1&_&H3&H4&_&H6&_).
  destruct (fn root d rem s1) as [err s2]. simpl.
  split; [reflexivity|]. split; [exact H1|].
  split; [|exact H6].
  unfold creds_of, Credentials_at. rewrite H3, H4. reflexivity.
Qed.

(** *** chmod *)

Lemma chmod_same_task d mode (s : K) :
  same_task s (snd (chmod B X d mode s)).
Proof.
  unfold chmod. repeat (run2; break_match); run2; same_tac.
Qed.

(** X10.  chmod needs ownership.  On a path that resolves, symlinks
    followed: a caller who does not own the node gets EPERM and the backend
    is not asked anything; an owner's request is handed to the backend with
    the permissions of the mode, a refusal of the backend gives EPERM, and
    the attribute-change notification is sent only after a change that
    succeeded.  The reference counts are as before in every case. *)
Theorem chmodAt_ownership fd addr mode path dirPath root d rem (s s1 : K) :
  path_at B s addr path dirPath ->
  fileOpOn_lookup B fd path true (copied addr s) = (inl (root, d, rem), s1) ->
  let r := chmodAt B X fd addr mode s in
  let w := k_world s in
  let p := FilePermsFromMode B mode in
  same_task s (snd r) /\
  if o_CheckOwnership X w (creds_of s) d then
    k_world (snd r) = snd (b_SetPermissions B w d p) /\
    fst r = (if fst (b_SetPermissions B w d p) then None else Some EPERM) /\
    k_log (snd r) =
      k_log s1 ++ [EvSetPermissions d p]
        ++ (if fst (b_SetPermissions B w d p)
            then [EvInotify d IN_ATTRIB] else [])
        ++ [EvRelease d]
  else
    fst r = Some EPERM /\ k_world (snd r) = w /\
    k_log (snd r) = k_log s1 ++ [EvRelease d].
Proof.
  intros Hpath Hres r w p. subst r w p.
  split.
  { unfold chmodAt, bind.
    destruct (copyInPath_same_state B addr false s) as [[_ Ht] _].
    destruct (copyInPath B addr false s) as [[[p dp]|e] s0]; simpl in *;
      [|exact Ht].
    eapply same_task_trans; [exact Ht|].
    apply fileOpOn_same_task. intros. apply chmod_same_task. }
  unfold chmodAt, bind. rewrite (copyInPath_at B addr path dirPath s Hpath).
  destruct (fileOpOn_at fd path true (fun _ d _ => chmod B X d mode)
              root d rem (copied addr s) s1 Hres) as (Hcall & Hw & Hc & _).
  rewrite Hcall. clear Hcall.
  change (creds_of (copied addr s)) with (creds_of s) in Hc.
  change (k_world (copied addr s)) with (k_world s) in Hw.
  unfold creds_of in *. rewrite <- Hw, <- Hc.
  unfold chmod. run2.
  destruct (o_CheckOwnership X (k_world s1) _ d); simpl.
  2: { repeat split; reflexivity. }
  destruct (b_SetPermissions B (k_world s1) d (FilePermsFromMode B mode))
    as [[|] w']; simpl; repeat split; try reflexivity;
    rewrite <- ?app_assoc; reflexivity.
Qed.

(** *** utimes *)

Lemma setTimestamp_same_task ts root d rem (s : K) :
  same_task s (snd (setTimestamp B X ts root d rem s)).
Proof.
  unfold setTimestamp. repeat (run2; break_match); run2; same_tac.
Qed.

(** utimes on a path that resolves is the closure at the state the lookup
    leaves. *)
Lemma utimes_enter dirFD addr ts resolve path dirPath root d rem (s s1 : K) :
  (addr =? 0) && negb (dirFD =? AT_FDCWD) = false ->
  path_at B s addr path dirPath ->
  fileOpOn_lookup B dirFD path resolve (copied addr s)
    = (inl (root, d, rem), s1) ->
  utimes B X dirFD addr ts resolve s =
    (fst (setTimestamp B X ts root d rem s1),
     snd (DecRef d (snd (setTimestamp B X ts root d rem s1)))) /\
  k_world s1 = k_world s /\ creds_of s1 = creds_of s.
Proof.
  intros Hbr Hpath Hres. unfold utimes. rewrite Hbr.
  unfold bind. rewrite (copyInPath_at B addr path dirPath s Hpath).
  destruct (fileOpOn_at dirFD path resolve (setTimestamp B X ts)
              root d rem (copied addr s) s1 Hres) as (Hcall & Hw & Hc & _).
  split; [exact Hcall|]. split; [exact Hw|exact Hc].
Qed.

(** X11.  Who may set timestamps.  On a path that resolves: the owner's
    request goes to the backend without a permission check.  A caller who
    does not own the node is refused with EPERM when neither side asks for
    the system time (each is omitted or explicit); as soon as one side asks
    for the system time, write permission is all that is needed, and the
    whole request, explicit times included, goes to the backend.  A call
    that is refused leaves the filesystem as it was. *)
Theorem utimes_policy dirFD addr ts resolve path dirPath root d rem
    (s s1 : K) :
  (addr =? 0) && negb (dirFD =? AT_FDCWD) = false ->
  path_at B s addr path dirPath ->
  fileOpOn_lookup B dirFD path resolve (copied addr s)
    = (inl (root, d, rem), s1) ->
  let r := utimes B X dirFD addr ts resolve s in
  let w := k_world s in
  let set := o_SetTimestamps X w d ts in
  same_task s (snd r) /\
  if o_CheckOwnership X w (creds_of s) d then
    fst r = fst set /\ k_world (snd r) = snd set /\
    exists evs, k_log (snd r) = k_log s1 ++ evs /\
                count is_check_permission evs = 0
  else if sets_no_system_time ts then
    fst r = Some EPERM /\ k_world (snd r) = w
  else match b_CheckPermission B w (creds_of s) d write_only with
       | Some e => fst r = Some e /\ k_world (snd r) = w
       | None => fst r = fst set /\ k_world (snd r) = snd set
       end.
Proof.
  intros Hbr Hpath Hres r w set. subst r w set.
  split.
  { unfold utimes. rewrite Hbr. unfold bind.
    destruct (copyInPath_same_state B addr false s) as [[_ Ht] _].
    destruct (copyInPath B addr false s) as [[[p dp]|e] s0]; simpl in *;
      [|exact Ht].
    eapply same_task_trans; [exact Ht|].
    apply fileOpOn_same_task. intros. apply setTimestamp_same_task. }
  destruct (utimes_enter dirFD addr ts resolve path dirPath root d rem s s1
              Hbr Hpath Hres) as (Hcall & Hw & Hc).
  rewrite Hcall. clear Hcall.
  unfold creds_of, write_only, sets_no_system_time in *.
  rewrite <- Hw, <- Hc.
  unfold setTimestamp. run2.
  destruct (o_CheckOwnership X (k_world s1) _ d); simpl.
  { destruct (o_SetTimestamps X (k_world s1) d ts) as [[e|] w']; simpl;
      repeat split; try reflexivity; log_ext; reflexivity. }
  destruct ((ATimeOmit ts || negb (ATimeSetSystemTime ts))
            && (MTimeOmit ts || negb (MTimeSetSystemTime ts))); simpl.
  { split; reflexivity. }
  destruct (b_CheckPermission B (k_world s1) _ d _); simpl.
  { split; reflexivity. }
  destruct (o_SetTimestamps X (k_world s1) d ts) as [[e|] w']; simpl;
    split; reflexivity.
Qed.

(** *** Utimensat *)

(** X12.  The screening of utimensat's times.  With a pair of times in
    memory: a nanosecond field of 10^9 or more that is neither UTIME_NOW nor
    UTIME_OMIT, on either side, gives EINVAL; there is no lower bound, a
    negative field passes.  When both fields are UTIME_OMIT the call
    succeeds at once: neither the path nor the descriptor is looked at and
    the state is left as it was.  In both cases nothing is read but the
    times. *)
Theorem Utimensat_screening dirFD pathnameAddr timesAddr flags t0 t1 (s : K) :
  timesAddr <> 0 ->
  o_CopyTimespecSliceIn X (k_world s) timesAddr = inl (t0, t1) ->
  let r := Utimensat B X dirFD pathnameAddr timesAddr flags s in
  let special t := ts_Nsec t = UTIME_OMIT \/ ts_Nsec t = UTIME_NOW in
  ((1000000000 <= ts_Nsec t0 /\ ~ special t0) \/
   (1000000000 <= ts_Nsec t1 /\ ~ special t1) -> r = (Some EINVAL, s)) /\
  (ts_Nsec t0 = UTIME_OMIT -> ts_Nsec t1 = UTIME_OMIT -> r = (None, s)) /\
  (ts_Nsec t0 < 0 -> ts_Nsec t1 < 0 ->
   exists ts, r = utimes B X dirFD pathnameAddr ts
                    (Z.land flags AT_SYMLINK_NOFOLLOW =? 0) s).
Proof.
  intros Hne Hcopy r special. subst r special.
  unfold Utimensat, bind at 1.
  apply Z.eqb_neq in Hne. rewrite Hne. simpl. run. rewrite Hcopy.
  unfold timespecIsValid, UTIME_OMIT, UTIME_NOW.
  split; [|split].
  - intros [[H1 H2]|[H1 H2]].
    + assert (E1 : (ts_Nsec t0 =? 1073741822) = false)
        by (apply Z.eqb_neq; intros E; apply H2; left; exact E).
      assert (E2 : (ts_Nsec t0 =? 1073741823) = false)
        by (apply Z.eqb_neq; intros E; apply H2; right; exact E).
      assert (E3 : (ts_Nsec t0 <? 1000000000) = false)
        by (apply Z.ltb_ge; exact H1).
      rewrite E1, E2, E3. reflexivity.
    + assert (E1 : (ts_Nsec t1 =? 1073741822) = false)
        by (apply Z.eqb_neq; intros E; apply H2; left; exact E).
      assert (E2 : (ts_Nsec t1 =? 1073741823) = false)
        by (apply Z.eqb_neq; intros E; apply H2; right; exact E).
      assert (E3 : (ts_Nsec t1 <? 1000000000) = false)
        by (apply Z.ltb_ge; exact H1).
      rewrite E1, E2, E3. rewrite orb_true_r. reflexivity.
  - intros H0 H1. rewrite H0, H1. reflexivity.
  - intros H0 H1.
    assert (E0 : (ts_Nsec t0 <? 1000000000) = true) by (apply Z.ltb_lt; lia).
    assert (E1 : (ts_Nsec t1 <? 1000000000) = true) by (apply Z.ltb_lt; lia).
    assert (E2 : (ts_Nsec t0 =? 1073741822) = false) by (apply Z.eqb_neq; lia).
    rewrite E0, E1, E2, !orb_true_r. simpl.
    eexists. reflexivity.
Qed.

(** X13.  Which times utimensat asks for.  With a pair of valid times that
    are not both omitted, on a path that resolves to a node the caller
    owns, the backend is asked to set the timestamps with this request: the
    access side as given, the modification time as given, and the
    modification time taken from the system clock exactly when the ACCESS
    time's nanosecond field is UTIME_NOW.  The nanosecond field of the
    modification time does not decide it. *)
Theorem Utimensat_system_time dirFD pathnameAddr timesAddr flags t0 t1 path
    dirPath root d rem (s s1 : K) :
  timesAddr <> 0 ->
  pathnameAddr <> 0 ->
  o_CopyTimespecSliceIn X (k_world s) timesAddr = inl (t0, t1) ->
  timespecIsValid t0 = true -> timespecIsValid t1 = true ->
  (ts_Nsec t0 =? UTIME_OMIT) && (ts_Nsec t1 =? UTIME_OMIT) = false ->
  path_at B s pathnameAddr path dirPath ->
  fileOpOn_lookup B dirFD path (Z.land flags AT_SYMLINK_NOFOLLOW =? 0)
    (copied pathnameAddr s) = (inl (root, d, rem), s1) ->
  o_CheckOwnership X (k_world s) (creds_of s) d = true ->
  let r := Utimensat B X dirFD pathnameAddr timesAddr flags s in
  let ts := {| ATime := FromTimespec X t0;
               ATimeOmit := ts_Nsec t0 =? UTIME_OMIT;
               ATimeSetSystemTime := ts_Nsec t0 =? UTIME_NOW;
               MTime := FromTimespec X t1;
               MTimeOmit := ts_Nsec t1 =? UTIME_OMIT;
               MTimeSetSystemTime := ts_Nsec t0 =? UTIME_NOW |} in
  fst r = fst (o_SetTimestamps X (k_world s) d ts) /\
  k_world (snd r) = snd (o_SetTimestamps X (k_world s) d ts).
Proof.
  intros Hne Hpne Hcopy Hv0 Hv1 Homit Hpath Hres Hown r ts.
  assert (Hr : r = utimes B X dirFD pathnameAddr ts
                     (Z.land flags AT_SYMLINK_NOFOLLOW =? 0) s).
  { subst r. unfold Utimensat, bind at 1.
    apply Z.eqb_neq in Hne. rewrite Hne. simpl. run. rewrite Hcopy.
    rewrite Hv0, Hv1. simpl. rewrite Homit. reflexivity. }
  rewrite Hr.
  assert (Hbr : (pathnameAddr =? 0) && negb (dirFD =? AT_FDCWD) = false).
  { apply Z.eqb_neq in Hpne. rewrite Hpne. reflexivity. }
  destruct (utimes_enter dirFD pathnameAddr ts _ path dirPath root d rem
              s s1 Hbr Hpath Hres) as (Hcall & Hw & Hc).
  rewrite Hcall. clear Hcall. unfold creds_of in *.
  rewrite <- Hw. rewrite <- Hw, <- Hc in Hown.
  unfold setTimestamp. run2. rewrite Hown. simpl.
  destruct (o_SetTimestamps X (k_world s1) d ts) as [[e|] w']; simpl;
    split; reflexivity.
Qed.

End Attributes.

Lemma chmodAt_ownership_witness :
  let B := TestOps.backend in
  let X := TestOps.ops in
  let s := TestOps.kernel in
  (* chmod("/f", 0600) by the owner of /f, chmod("/d", 0700) by a stranger *)
  fst (chmodAt B X AT_FDCWD 2 384 s) = None /\
  b_UnstableAttr B (k_world (snd (chmodAt B X AT_FDCWD 2 384 s))) 2%nat
  = inl {| ua_Owner_UID := 1000; ua_Owner_GID := 1000; ua_Perms := 384;
           ua_Size := 10 |} /\
  fst (chmodAt B X AT_FDCWD 1 448 s) = Some EPERM /\
  k_world (snd (chmodAt B X AT_FDCWD 1 448 s)) = k_world s.
Proof.
  intros B X s.
  pose proof (chmodAt_ownership B X AT_FDCWD 2 384 "/f" false 0%nat 2%nat 40
                s (snd (fileOpOn_lookup B AT_FDCWD "/f" true (copied 2 s)))
                ltac:(exists "/f"%string; repeat split; discriminate)
                ltac:(vm_compute; reflexivity)) as H1.
  pose proof (chmodAt_ownership B X AT_FDCWD 1 448 "/d" false 0%nat 1%nat 40
                s (snd (fileOpOn_lookup B AT_FDCWD "/d" true (copied 1 s)))
                ltac:(exists "/d"%string; repeat split; discriminate)
                ltac:(vm_compute; reflexivity)) as H2.
  cbv zeta in H1, H2. destruct H1 as [_ H1], H2 as [_ H2].
  decide_if H1. decide_if H2.
  destruct H1 as (H1 & H1' & _), H2 as (H2 & H2' & _).
  split; [rewrite H1'; reflexivity|]. split; [rewrite H1; reflexivity|].
  split; [exact H2|exact H2'].
Defined.

Lemma utimes_policy_witness :
  let B := TestOps.backend in
  let X := TestOps.ops in
  let s := TestOps.kernel in
  let mixed := {| ATime := 0; ATimeOmit := false; ATimeSetSystemTime := true;
                  MTime := 5; MTimeOmit := false;
                  MTimeSetSystemTime := false |} in
  let explicit := {| ATime := 4; ATimeOmit := false;
                     ATimeSetSystemTime := false;
                     MTime := 5; MTimeOmit := false;
                     MTimeSetSystemTime := false |} in
  (* on /d, which the caller does not own but may write *)
  o_CheckOwnership X (k_world s) (creds_of s) 1%nat = false /\
  fst (utimes B X AT_FDCWD 1 explicit true s) = Some EPERM /\
  fst (utimes B X AT_FDCWD 1 mixed true s) = None /\
  TestOps.tw_times (k_world (snd (utimes B X AT_FDCWD 1 mixed true s)))
  = [(1%nat, mixed)].
Proof.
  intros B X s mixed explicit.
  pose proof (utimes_policy B X AT_FDCWD 1 explicit true "/d" false 0%nat
                1%nat 40 s
                (snd (fileOpOn_lookup B AT_FDCWD "/d" true (copied 1 s)))
                eq_refl
                ltac:(exists "/d"%string; repeat split; discriminate)
                ltac:(vm_compute; reflexivity)) as H1.
  pose proof (utimes_policy B X AT_FDCWD 1 mixed true "/d" false 0%nat
                1%nat 40 s
                (snd (fileOpOn_lookup B AT_FDCWD "/d" true (copied 1 s)))
                eq_refl
                ltac:(exists "/d"%string; repeat split; discriminate)
                ltac:(vm_compute; reflexivity)) as H2.
  cbv zeta in H1, H2. destruct H1 as [_ H1], H2 as [_ H2].
  decide_if H1. decide_if H2.
  change (b_CheckPermission B (k_world s) (creds_of s) 1%nat write_only)
    with (@None Errno) in H2. cbv iota in H2.
  destruct H1 as [H1 _], H2 as [H2 H2'].
  split; [reflexivity|]. split; [exact H1|]. split; [exact H2|].
  rewrite H2'. reflexivity.
Defined.

Lemma Utimensat_screening_witness :
  let B := TestOps.backend in
  let X := TestOps.ops in
  let s := TestOps.kernel in
  (* both times UTIME_OMIT, on a descriptor that is not open and a path that
     cannot be read *)
  k_fdt s !! 9 = None /\ b_CopyInString B (k_world s) 99 = inr EFAULT /\
  Utimensat B X 9 99 101 0 s = (None, s).
Proof.
  intros B X s.
  pose proof (Utimensat_screening B X 9 99 101 0
                {| ts_Sec := 0; ts_Nsec := UTIME_OMIT |}
                {| ts_Sec := 0; ts_Nsec := UTIME_OMIT |} s
                ltac:(discriminate) eq_refl) as H.
  cbv zeta in H. destruct H as (_ & H & _).
  split; [reflexivity|]. split; [reflexivity|].
  apply H; reflexivity.
Defined.

Lemma Utimensat_system_time_witness :
  let B := TestOps.backend in
  let X := TestOps.ops in
  let s := TestOps.kernel in
  (* on /f, owned by the caller: an explicit access time with the
     modification time UTIME_NOW (times at 103), and the converse (at 100) *)
  TestOps.tw_times (k_world (snd (Utimensat B X AT_FDCWD 2 103 0 s)))
  = [(2%nat, {| ATime := 5000000011; ATimeOmit := false;
                ATimeSetSystemTime := false;
                MTime := 7000000000 + UTIME_NOW; MTimeOmit := false;
                MTimeSetSystemTime := false |})] /\
  TestOps.tw_times (k_world (snd (Utimensat B X AT_FDCWD 2 100 0 s)))
  = [(2%nat, {| ATime := 5000000000 + UTIME_NOW; ATimeOmit := false;
                ATimeSetSystemTime := true;
                MTime := 7000000099; MTimeOmit := false;
                MTimeSetSystemTime := true |})].
Proof.
  intros B X s.
  pose proof (Utimensat_system_time B X AT_FDCWD 2 103 0
                {| ts_Sec := 5; ts_Nsec := 11 |}
                {| ts_Sec := 7; ts_Nsec := UTIME_NOW |} "/f" false
                0%nat 2%nat 40 s
                (snd (fileOpOn_lookup B AT_FDCWD "/f" true (copied 2 s)))
                ltac:(discriminate) ltac:(discriminate) eq_refl eq_refl
                eq_refl eq_refl
                ltac:(exists "/f"%string; repeat split; discriminate)
                ltac:(vm_compute; reflexivity) eq_refl) as H1.
  pose proof (Utimensat_system_time B X AT_FDCWD 2 100 0
                {| ts_Sec := 5; ts_Nsec := UTIME_NOW |}
                {| ts_Sec := 7; ts_Nsec := 99 |} "/f" false
                0%nat 2%nat 40 s
                (snd (fileOpOn_lookup B AT_FDCWD "/f" true (copied 2 s)))
                ltac:(discriminate) ltac:(discriminate) eq_refl eq_refl
                eq_refl eq_refl
                ltac:(exists "/f"%string; repeat split; discriminate)
                ltac:(vm_compute; reflexivity) eq_refl) as H2.
  cbv zeta in H1, H2. destruct H1 as [_ H1], H2 as [_ H2].
  split; [rewrite H1; reflexivity|rewrite H2; reflexivity].
Defined.

Section Links.
Context {World : Type} (B : Backend World) (X : Ops World).
Local Abbreviation K := (Kernel World).

(** *** linkAt *)

Lemma copyInPath_at_any addr allowEmpty path dirPath (s : K) :
  path_at B s addr path dirPath ->
  copyInPath B addr allowEmpty s = (inl (path, dirPath), copied addr s).
Proof.
  intros (raw & Hcopy & Hne & Htrim).
  rewrite (copyInPath_ok B addr allowEmpty raw s Hcopy)
    by (intros E; contradiction).
  rewrite Htrim. reflexivity.
Qed.

Lemma mayLinkAt_same_state target (s : K) :
  same_state s (snd (mayLinkAt B X target s)) /\
  fst (mayLinkAt B X target s)
  = if may_link B X s target then None else Some EPERM.
Proof.
  unfold mayLinkAt, may_link, creds_of, read_write. run2.
  destruct (o_CheckOwnership X _ _ target); simpl; [split; [same_tac|reflexivity]|].
  destruct (IsRegular (b_StableAttr B (k_world s) target)); simpl;
    [|split; [same_tac|reflexivity]].
  destruct (b_CheckPermission B (k_world s) _ target _) eqn:E; simpl.
  - split; [same_tac|].
    rewrite ?bool_decide_eq_false_2 by discriminate. reflexivity.
  - split; [same_tac|].
    rewrite ?bool_decide_eq_true_2 by reflexivity. reflexivity.
Qed.

Lemma linkAt_fn_same_task target root np name rem (s : K) :
  same_task s (snd (linkAt_fn B X target root np name rem s)).
Proof.
  unfold linkAt_fn. repeat (run2; break_match); run2; same_tac.
Qed.

Lemma link_closure_same_task newDirFD newPath target (s : K) :
  same_task s
    (snd ((e <- mayLinkAt B X target ;;
           match e with
           | Some e => ret (Some e)
           | None => fileOpAt B newDirFD newPath (linkAt_fn B X target)
           end) s)).
Proof.
  unfold bind. destruct (mayLinkAt_same_state target s) as [[_ Ht] _].
  destruct (mayLinkAt B X target s) as [[e|] s0]; simpl in *; [exact Ht|].
  eapply same_task_trans; [exact Ht|].
  apply fileOpAt_same_task. intros. apply linkAt_fn_same_task.
Qed.

(** X14.  The hard-link policy.  With both paths in memory, the old one not
    empty, the new one without trailing slash, and an old path that
    resolves to a target: unless the caller owns the target, or the target
    is a regular file the caller may read and write, the call fails with
    EPERM (also when the permission check failed with another error), the
    new path is not resolved and the filesystem is left as it was.
    Otherwise the new path is resolved from the state the first resolution
    left, and once its parent is a directory the caller may write and
    search, the backend is asked for the link.  The reference counts are
    back to their values after the two nested resolutions. *)
Theorem linkAt_policy oldDirFD oldAddr newDirFD newAddr resolve allowEmpty
    oldPath odp newPath root target rem (s s1 : K) :
  path_at B s oldAddr oldPath odp ->
  oldPath <> ""%string ->
  path_at B s newAddr newPath false ->
  fileOpOn_lookup B oldDirFD oldPath resolve (copied newAddr (copied oldAddr s))
    = (inl (root, target, rem), s1) ->
  let r := linkAt B X oldDirFD oldAddr newDirFD newAddr resolve allowEmpty s in
  let w := k_world s in
  same_task s (snd r) /\
  if may_link B X s target then
    forall root' np name rem' post s2,
      fileOpAt_resolve B newDirFD newPath (snd (mayLinkAt B X target s1))
        = (inl (root', np, name, rem', post), s2) ->
      IsDir (b_StableAttr B w np) = true ->
      b_CheckPermission B w (creds_of s) np write_exec = None ->
      fst r = fst (o_CreateHardLink X w root' np target name) /\
      k_world (snd r) = snd (o_CreateHardLink X w root' np target name)
  else
    fst r = Some EPERM /\ k_world (snd r) = w /\
    exists evs, k_log (snd r) = k_log s1 ++ evs ++ [EvRelease target] /\
                Forall (fun ev => is_check_permission ev = true) evs.
Proof.
  intros Hold Hne Hnew Hres r w.
  assert (Hr : r = fileOpOn B oldDirFD oldPath resolve
                     (fun root target _ =>
                        e <- mayLinkAt B X target ;;
                        match e with
                        | Some e => ret (Some e)
                        | None => fileOpAt B newDirFD newPath
                                    (linkAt_fn B X target)
                        end)
                     (copied newAddr (copied oldAddr s))).
  { subst r. unfold linkAt. unfold bind at 1.
    rewrite (copyInPath_at_any oldAddr allowEmpty oldPath odp s Hold).
    unfold bind at 1.
    rewrite (copyInPath_at_any newAddr false newPath false (copied oldAddr s))
      by exact Hnew.
    apply String.eqb_neq in Hne. rewrite Hne, andb_false_r. reflexivity. }
  subst w. rewrite Hr. clear Hr r.
  split.
  { eapply same_task_trans;
      [|apply fileOpOn_same_task; intros; apply link_closure_same_task].
    same_tac. }
  match goal with
  | |- context [fileOpOn B _ _ _ ?fn _] =>
      destruct (fileOpOn_at B oldDirFD oldPath resolve fn root target rem
                  _ s1 Hres) as (Hcall & Hw & Hc & _)
  end.
  rewrite Hcall. clear Hcall.
  change (creds_of (copied newAddr (copied oldAddr s))) with (creds_of s) in Hc.
  change (k_world (copied newAddr (copied oldAddr s))) with (k_world s) in Hw.
  assert (Hml : may_link B X s1 target = may_link B X s target).
  { unfold may_link. rewrite Hw, Hc. reflexivity. }
  unfold bind.
  destruct (mayLinkAt_same_state target s1) as [[Hw0 Ht0] He0].
  assert (Hlog0 : exists evs,
             k_log (snd (mayLinkAt B X target s1)) = k_log s1 ++ evs /\
             Forall (fun ev => is_check_permission ev = true) evs).
  { unfold mayLinkAt. repeat (run2; break_match); run2;
      first [exists []; rewrite app_nil_r; split; [reflexivity|constructor]
            |eexists; split; [reflexivity|repeat constructor]]. }
  assert (Hc0 : creds_of (snd (mayLinkAt B X target s1)) = creds_of s1).
  { destruct Ht0 as (_&_&_&_&_&H6&H7&_).
    unfold creds_of, Credentials_at. rewrite H6, H7. reflexivity. }
  destruct (mayLinkAt B X target s1) as [e0 s0] eqn:Eml. simpl in *.
  rewrite Hml in He0. subst e0.
  destruct (may_link B X s target); simpl.
  2: { split; [reflexivity|]. split; [congruence|].
       destruct Hlog0 as (evs & Hl & Hall). exists evs.
       split; [|exact Hall]. run. rewrite Hl, <- app_assoc. reflexivity. }
  intros root' np name rem' post s2 Hres2 Hdir Hperm.
  destruct (fileOpAt_at B newDirFD newPath (linkAt_fn B X target) root' np
              name rem' post s0 s2 Hres2) as (Hcall & Hw2 & _ & Hc2).
  rewrite Hcall. simpl. rewrite release_all_world.
  rewrite <- Hc, <- Hc0, <- Hc2 in Hperm.
  rewrite <- Hw, <- Hw0, <- Hw2 in *.
  unfold creds_of, write_exec in *.
  unfold linkAt_fn. run2. rewrite Hdir. simpl. rewrite Hperm. simpl.
  split; reflexivity.
Qed.

(** *** readlinkAt *)

Lemma substring_0_prefix n s : String.prefix (String.substring 0 n s) s = true.
Proof.
  revert s. induction n as [|n IH]; intros [|c s]; simpl; try reflexivity.
  rewrite IH. destruct (ascii_dec c c); [reflexivity|contradiction].
Qed.

Lemma substring_0_length n s :
  String.length (String.substring 0 n s) = Nat.min n (String.length s).
Proof.
  revert s. induction n as [|n IH]; intros [|c s]; simpl; try reflexivity.
  rewrite IH. reflexivity.
Qed.

Lemma prefix_refl s : String.prefix s s = true.
Proof.
  induction s as [|c s IH]; simpl; [reflexivity|].
  destruct (ascii_dec c c); [exact IH|contradiction].
Qed.

(** X15.  What readlink copies out.  On a path without trailing slash whose
    last component is found, not followed, and may be read by the caller:
    a node that is not a link (ENOLINK from the backend) gives EINVAL, any
    other error is returned as it is, and nothing is written.  With a link
    text, the bytes copied to the buffer are its first min(size, length)
    bytes, never more than [size], and the call returns the count and the
    error of that copy. *)
Theorem readlinkAt_buffer dirFD addr bufAddr size path root d rem (s s1 : K) :
  0 <= size ->
  path_at B s addr path false ->
  fileOpOn_lookup B dirFD path false (copied addr (set_frame s 0))
    = (inl (root, d, rem), s1) ->
  b_CheckPermission B (k_world s) (creds_of s) d read_only = None ->
  let r := readlinkAt B X dirFD addr bufAddr size s in
  let w := k_world s in
  match b_Readlink B w d with
  | inr e =>
      fst r = (0, Some (if bool_decide (e = ENOLINK) then EINVAL else e)) /\
      k_world (snd r) = w
  | inl text =>
      exists buffer,
        String.prefix buffer text = true /\
        Z.of_nat (String.length buffer)
        = Z.min size (Z.of_nat (String.length text)) /\
        fst r = (wrap_uint64 (fst (fst (o_CopyOutBytes X w bufAddr buffer))),
                 snd (fst (o_CopyOutBytes X w bufAddr buffer))) /\
        k_world (snd r) = snd (o_CopyOutBytes X w bufAddr buffer)
  end.
Proof.
  intros Hsize Hpath Hres Hperm r w.
  destruct (fileOpOn_at B dirFD path false (readlinkAt_fn B X bufAddr size)
              root d rem _ s1 Hres) as (Hcall & Hw & Hc & Hfr).
  assert (Hr : r =
    let c := readlinkAt_fn B X bufAddr size root d rem s1 in
    ((k_frame (snd c), fst c), snd (DecRef d (snd c)))).
  { subst r. unfold readlinkAt. unfold bind at 1. unfold set_result at 1.
    unfold bind at 1.
    rewrite (copyInPath_at B addr path false (set_frame s 0)) by exact Hpath.
    unfold bind at 1. rewrite Hcall. reflexivity. }
  subst w. rewrite Hr. clear Hr Hcall r.
  change (creds_of (copied addr (set_frame s 0))) with (creds_of s) in Hc.
  change (k_world (copied addr (set_frame s 0))) with (k_world s) in Hw.
  change (k_frame (copied addr (set_frame s 0))) with 0 in Hfr.
  unfold creds_of, read_only in *.
  rewrite <- Hw in *. rewrite <- Hc in Hperm.
  unfold readlinkAt_fn. run2. rewrite Hperm. simpl.
  destruct (b_Readlink B (k_world s1) d) as [text|e]; simpl.
  2: { destruct (bool_decide (e = ENOLINK)); simpl; rewrite Hfr;
         split; reflexivity. }
  destruct (size <? Z.of_nat (String.length text)) eqn:Elt.
  - apply Z.ltb_lt in Elt.
    exists (String.substring 0 (Z.to_nat size) text).
    split; [apply substring_0_prefix|].
    split; [rewrite substring_0_length; lia|].
    split; reflexivity.
  - apply Z.ltb_ge in Elt. exists text.
    split; [apply prefix_refl|]. split; [lia|]. split; reflexivity.
Qed.

End Links.

Lemma linkAt_policy_witness :
  let B := TestOps.backend in
  let X := TestOps.ops in
  let s := TestOps.kernel in
  (* link("/f", "/g") on a file the caller owns; link("/d", "/g") on a
     directory the caller does not own *)
  fst (Link B X 2 18 s) = None /\
  fst (b_FindLink B (k_world (snd (Link B X 2 18 s))) 0%nat None "/g" 40)
  = inl 2%nat /\
  fst (Link B X 1 18 s) = Some EPERM /\
  k_world (snd (Link B X 1 18 s)) = k_world s.
Proof.
  intros B X s.
  pose proof (linkAt_policy B X AT_FDCWD 2 AT_FDCWD 18 false false "/f" false
                "/g" 0%nat 2%nat 40 s
                (snd (fileOpOn_lookup B AT_FDCWD "/f" false
                        (copied 18 (copied 2 s))))
                ltac:(exists "/f"%string; repeat split; discriminate)
                ltac:(discriminate)
                ltac:(exists "/g"%string; repeat split; discriminate)
                ltac:(vm_compute; reflexivity)) as H1.
  pose proof (linkAt_policy B X AT_FDCWD 1 AT_FDCWD 18 false false "/d" false
                "/g" 0%nat 1%nat 40 s
                (snd (fileOpOn_lookup B AT_FDCWD "/d" false
                        (copied 18 (copied 1 s))))
                ltac:(exists "/d"%string; repeat split; discriminate)
                ltac:(discriminate)
                ltac:(exists "/g"%string; repeat split; discriminate)
                ltac:(vm_compute; reflexivity)) as H2.
  cbv zeta in H1, H2. destruct H1 as [_ H1], H2 as [_ H2].
  decide_if H1. decide_if H2.
  destruct (H1 0%nat 0%nat "g"%string 40 [0%nat]
              (snd (fileOpAt_resolve B AT_FDCWD "/g"
                      (snd (mayLinkAt B X 2%nat
                              (snd (fileOpOn_lookup B AT_FDCWD "/f" false
                                      (copied 18 (copied 2 s))))))))
              ltac:(vm_compute; reflexivity) eq_refl eq_refl) as [Ha Hb].
  destruct H2 as (H2 & H2' & _).
  split; [exact Ha|]. split; [unfold Link; rewrite Hb; reflexivity|].
  split; [exact H2|exact H2'].
Defined.

Lemma readlinkAt_buffer_witness :
  let B := TestOps.backend in
  let X := TestOps.ops in
  let s := TestOps.kernel in
  (* readlink("/m", buf, 3) on the link to "nodir/x"; readlink("/f", buf, 3)
     on a regular file *)
  fst (readlinkAt B X AT_FDCWD 9 500 3 s) = (3, None) /\
  TestOps.tw_out (k_world (snd (readlinkAt B X AT_FDCWD 9 500 3 s)))
  = [(500, "nod"%string)] /\
  fst (readlinkAt B X AT_FDCWD 2 500 3 s) = (0, Some EINVAL).
Proof.
  intros B X s.
  pose proof (readlinkAt_buffer B X AT_FDCWD 9 500 3 "/m" 0%nat 6%nat 40 s
                (snd (fileOpOn_lookup B AT_FDCWD "/m" false
                        (copied 9 (set_frame s 0))))
                ltac:(lia)
                ltac:(exists "/m"%string; repeat split; discriminate)
                ltac:(vm_compute; reflexivity) eq_refl) as H1.
  pose proof (readlinkAt_buffer B X AT_FDCWD 2 500 3 "/f" 0%nat 2%nat 40 s
                (snd (fileOpOn_lookup B AT_FDCWD "/f" false
                        (copied 2 (set_frame s 0))))
                ltac:(lia)
                ltac:(exists "/f"%string; repeat split; discriminate)
                ltac:(vm_compute; reflexivity) eq_refl) as H2.
  cbv zeta in H1, H2.
  change (b_Readlink B (k_world s) 6%nat)
    with (@inl string Errno "nodir/x"%string) in H1.
  change (b_Readlink B (k_world s) 2%nat)
    with (@inr string Errno ENOLINK) in H2.
  cbv iota in H1, H2. destruct H2 as [H2 _].
  split; [vm_compute; reflexivity|].
  split; [vm_compute; reflexivity|exact H2].
Defined.

Section Descriptors.
Context {World : Type} (B : Backend World) (X : Ops World).
Local Abbreviation K := (Kernel World).

(** *** Dup *)

Lemma lowest_free_free (t : gmap Z (File * FDFlags)) from limit n :
  lowest_free t from limit = Some n -> t !! n = None /\ from <= n.
Proof.
  unfold lowest_free. intros H. apply List.find_some in H.
  destruct H as [_ H]. apply andb_prop in H. destruct H as [H1 H2].
  split; [|apply Z.leb_le; exact H1].
  apply negb_true_iff in H2. apply bool_decide_eq_false in H2.
  destruct (t !! n) eqn:E; [|reflexivity].
  exfalso. apply H2. eexists. reflexivity.
Qed.

(** X16.  dup.  A descriptor that is not open gives EBADF and leaves the
    state as it was.  On an open one, any failure to install is reported as
    EMFILE, with the table and the counts as before; a success returns a
    number that was free, which now names the same open file with
    close-on-exec cleared, every other descriptor being as before, and the
    file has gained exactly one reference, the table's.  The filesystem
    and the dirent counts are never touched. *)
Theorem Dup_duplicates fd (s : K) :
  let r := Dup fd s in
  match k_fdt s !! fd with
  | None => r = ((0, Some EBADF), s)
  | Some (file, fl) =>
      k_world (snd r) = k_world s /\
      (forall x, k_drefs (snd r) x = k_drefs s x) /\
      match snd (fst r) with
      | None =>
          let n := fst (fst r) in
          k_fdt s !! n = None /\ 0 <= n /\
          k_fdt (snd r) = <[n := (file, {| CloseOnExec := false |})]> (k_fdt s)
          /\
          forall f, k_frefs (snd r) f
                    = k_frefs s f + one_if (bool_decide (f = f_id file))
      | Some e =>
          fst r = (0, Some EMFILE) /\ k_fdt (snd r) = k_fdt s /\
          forall f, k_frefs (snd r) f = k_frefs s f
      end
  end.
Proof.
  intros r. subst r. unfold Dup, NewFDFrom. run.
  destruct (k_fdt s !! fd) as [[file fl]|] eqn:Efd; run; [|reflexivity].
  destruct (lowest_free (k_fdt s) 0 (k_fdlimit s)) as [n|] eqn:Elf; run.
  - apply lowest_free_free in Elf. destruct Elf as [Hfree Hn].
    repeat split; try assumption; try reflexivity.
    intros f. unfold bump, one_if.
    repeat case_decide; case_bool_decide; subst; try congruence; lia.
  - repeat split; try reflexivity.
    intros f. unfold bump. repeat case_decide; lia.
Qed.

(** X17.  Equal descriptors.  dup3 with the same number twice fails with
    EINVAL before it looks the descriptor up, whether it is open or not.
    dup2 with the same number twice looks it up: EBADF, with the state as
    it was, when it is not open; otherwise the number is returned and
    nothing has changed but the log, the reference taken for the lookup
    being given back. *)
Theorem Dup2_same_descriptor fd flags (s : K) :
  Dup3 X fd fd flags s = ((0, Some EINVAL), s) /\
  match k_fdt s !! fd with
  | None => Dup2 X fd fd s = ((0, Some EBADF), s)
  | Some _ =>
      fst (Dup2 X fd fd s) = (wrap_uint64 fd, None) /\
      same_state s (snd (Dup2 X fd fd s))
  end.
Proof.
  unfold Dup3, Dup2. rewrite Z.eqb_refl. split; [reflexivity|]. run.
  destruct (k_fdt s !! fd) as [[file fl]|]; run; [|reflexivity].
  split; [reflexivity|same_tac].
Qed.

(** *** Chdir, Fchdir, Chroot *)

(** X18.  The working directory after chdir and fchdir.  Neither call
    changes the filesystem, the descriptor table, the root or a file count.
    After a failure the working directory and every dirent count are as
    before.  After a success the working directory is a directory on which
    the caller has search permission, and the counts differ only by the
    reference of the task's context, taken on the new directory and given
    back on the old one. *)
Theorem Chdir_outcome addr fd (s : K) :
  moved_to B k_wd s (Chdir B addr s) /\
  k_root (snd (Chdir B addr s)) = k_root s /\
  moved_to B k_wd s (Fchdir B fd s) /\
  k_root (snd (Fchdir B fd s)) = k_root s.
Proof.
  split; [|split; [|split]].
  - unfold Chdir, bind at 1.
    destruct (copyInPath_same_state B addr false s)
      as [(Hw0 & Hf0 & _ & Hr0 & Hwd0 & _ & Hh0 & Hc0 & _ & _ & _ & Hd0 & Hfr0) _].
    destruct (copyInPath B addr false s) as [[[path dp]|e] s0]; simpl in *.
    2: { unfold moved_to. run. repeat split; assumption. }
    rewrite (fileOpOn_split B).
    pose proof (fileOpOn_lookup_exit B AT_FDCWD path true s0) as Hex.
    pose proof (fileOpOn_lookup_frame B AT_FDCWD path true s0) as Hfr.
    destruct (fileOpOn_lookup B AT_FDCWD path true s0) as [[[[root d] rem]|e] s1].
    2: { simpl in *. destruct Hex as (Hd & Hf & _).
         destruct Hfr as (H1&H2&_&_&_&_&_&H8&_).
         unfold moved_to. simpl. repeat split; try congruence.
         intros x. rewrite Hd, Hd0. simpl. lia. }
    simpl in Hex, Hfr. destruct Hex as (Hd & Hf & _).
    destruct Hfr as (H1&H2&H3&H4&_&_&_&H8&_).
    assert (Hcr : creds_of s1 = creds_of s).
    { unfold creds_of, Credentials_at. rewrite H3, H4, Hh0, Hc0. reflexivity. }
    unfold creds_of in Hcr.
    unfold SetWorkingDirectory. run.
    destruct (IsDir (b_StableAttr B (k_world s1) d)) eqn:Edir; run.
    2: { unfold moved_to. simpl. repeat split; try congruence.
         intros x. unfold bump. rewrite Hd, Hd0. unfold one_if.
         case_decide; case_bool_decide; subst; try congruence; lia. }
    destruct (b_CheckPermission B (k_world s1) _ d exec_only) eqn:Eperm; run.
    { unfold moved_to. simpl. repeat split; try congruence.
      intros x. unfold bump. rewrite Hd, Hd0. unfold one_if.
      case_decide; case_bool_decide; subst; try congruence; lia. }
    unfold moved_to. simpl. unfold creds_of.
    rewrite <- Hw0, <- H1, <- Hcr.
    repeat split; try congruence.
    intros x. unfold bump. rewrite Hd, Hd0, H8, Hwd0. unfold one_if.
    repeat case_decide; repeat case_bool_decide; subst; try congruence; lia.
  - unfold Chdir, bind at 1.
    destruct (copyInPath_same_state B addr false s)
      as [(_ & _ & _ & Hr0 & _) _].
    destruct (copyInPath B addr false s) as [[[path dp]|e] s0]; simpl in *;
      [|exact Hr0].
    rewrite (fileOpOn_split B).
    pose proof (fileOpOn_lookup_frame B AT_FDCWD path true s0) as Hfr.
    destruct (fileOpOn_lookup B AT_FDCWD path true s0) as [[[[root d] rem]|e] s1];
      simpl in *; destruct Hfr as (_&_&_&_&_&_&H7&_); [|congruence].
    unfold SetWorkingDirectory.
    repeat (run; break_match); run; congruence.
  - unfold Fchdir, SetWorkingDirectory, moved_to, creds_of. run.
    destruct (k_fdt s !! fd) as [[file fl]|]; run;
      [|repeat split; reflexivity].
    destruct (IsDir (b_StableAttr B (k_world s) (f_dirent file))) eqn:Edir; run.
    2: { repeat split; try reflexivity.
         intros f. unfold bump. repeat case_decide; lia. }
    destruct (b_CheckPermission B (k_world s) _ (f_dirent file) exec_only)
      eqn:Eperm; run.
    { repeat split; try reflexivity.
      intros f. unfold bump. repeat case_decide; lia. }
    repeat split; try assumption; try reflexivity.
    + intros f. unfold bump. repeat case_decide; lia.
    + intros x. unfold bump, one_if.
      repeat case_decide; repeat case_bool_decide; subst; try congruence; lia.
  - unfold Fchdir, SetWorkingDirectory.
    repeat (run; break_match); run; reflexivity.
Qed.

(** X19.  chroot.  Without CAP_SYS_CHROOT the call fails with EPERM before
    the path is read, the state being left as it was.  No call changes the
    working directory; the root changes only on success, to a directory on
    which the caller has search permission, and a failure leaves every
    count as before. *)
Theorem Chroot_outcome addr (s : K) :
  let r := Chroot B X addr s in
  (o_HasCapability X (creds_of s) CAP_SYS_CHROOT = false ->
   r = (Some EPERM, s)) /\
  (fst r = None -> o_HasCapability X (creds_of s) CAP_SYS_CHROOT = true) /\
  moved_to B k_root s r /\
  k_wd (snd r) = k_wd s.
Proof.
  intros r. subst r. unfold Chroot, task_creds, creds_of. run.
  destruct (o_HasCapability X _ CAP_SYS_CHROOT) eqn:Ecap; simpl.
  2: { split; [reflexivity|]. split; [discriminate|].
       split; [|reflexivity]. unfold moved_to. simpl.
       repeat split; reflexivity. }
  split; [discriminate|]. split; [reflexivity|].
  destruct (copyInPath_same_state B addr false s)
    as [(Hw0 & Hf0 & _ & Hr0 & Hwd0 & _ & Hh0 & Hc0 & _ & _ & _ & Hd0 & Hfr0) _].
  destruct (copyInPath B addr false s) as [[[path dp]|e] s0]; simpl in *.
  2: { unfold moved_to. run. repeat split; assumption. }
  rewrite (fileOpOn_split B).
  pose proof (fileOpOn_lookup_exit B AT_FDCWD path true s0) as Hex.
  pose proof (fileOpOn_lookup_frame B AT_FDCWD path true s0) as Hfr.
  destruct (fileOpOn_lookup B AT_FDCWD path true s0) as [[[[root d] rem]|e] s1].
  2: { simpl in *. destruct Hex as (Hd & Hf & _).
       destruct Hfr as (H1&H2&_&_&_&_&H7&H8&_).
       unfold moved_to. simpl. split; [|congruence].
       repeat split; try congruence.
       intros x. rewrite Hd, Hd0. simpl. lia. }
  simpl in Hex, Hfr. destruct Hex as (Hd & Hf & _).
  destruct Hfr as (H1&H2&H3&H4&_&_&H7&H8&_).
  assert (Hcr : creds_of s1 = creds_of s).
  { unfold creds_of, Credentials_at. rewrite H3, H4, Hh0, Hc0. reflexivity. }
  unfold creds_of in Hcr.
  unfold SetRootDirectory. run.
  destruct (IsDir (b_StableAttr B (k_world s1) d)) eqn:Edir; run.
  2: { unfold moved_to. simpl. split; [|congruence].
       repeat split; try congruence.
       intros x. unfold bump. rewrite Hd, Hd0. unfold one_if.
       case_decide; case_bool_decide; subst; try congruence; lia. }
  destruct (b_CheckPermission B (k_world s1) _ d exec_only) eqn:Eperm; run.
  { unfold moved_to. simpl. split; [|congruence].
    repeat split; try congruence.
    intros x. unfold bump. rewrite Hd, Hd0. unfold one_if.
    case_decide; case_bool_decide; subst; try congruence; lia. }
  unfold moved_to. simpl. unfold creds_of.
  rewrite <- Hw0, <- H1, <- Hcr. split; [|congruence].
  repeat split; try congruence.
  intros x. unfold bump. rewrite Hd, Hd0, H7, Hr0. unfold one_if.
  repeat case_decide; repeat case_bool_decide; subst; try congruence; lia.
Qed.

End Descriptors.

Section WiderErrors.
Context {World : Type} (B : Backend World) (X : Ops World).
Local Abbreviation K := (Kernel World).

(** fileOpAtX on a closure with errors in Errno is fileOpAt. *)
Lemma fileOpAtX_widen dirFD path fn (s : K) :
  fileOpAtX B dirFD path
    (fun root d name rem => e <- fn root d name rem ;; ret (widen e)) s =
  (widen (fst (fileOpAt B dirFD path fn s)),
   snd (fileOpAt B dirFD path fn s)).
Proof.
  rewrite (fileOpAt_split B). unfold fileOpAtX, bind.
  destruct (fileOpAt_resolve B dirFD path s)
    as [[[[[[root d] name] rem] post]|e] s1]; [|reflexivity].
  destruct (fn root d name rem s1) as [err s2]. simpl.
  destruct (release_all post s2). reflexivity.
Qed.

Lemma fileOpAtX_at dirFD path fn root d name rem post (s0 s1 : K) :
  fileOpAt_resolve B dirFD path s0 = (inl (root, d, name, rem, post), s1) ->
  fileOpAtX B dirFD path fn s0 =
    (fst (fn root d name rem s1),
     snd (release_all post (snd (fn root d name rem s1)))) /\
  k_world s1 = k_world s0 /\ creds_of s1 = creds_of s0.
Proof.
  intros Hres. unfold fileOpAtX, bind. rewrite Hres.
  pose proof (fileOpAt_resolve_exit B dirFD path s0) as Hex.
  rewrite Hres in Hex. simpl in Hex.
  destruct Hex as (H1&_&_&_&_&_&H7&H8&_).
  destruct (fn root d name rem s1) as [err s2]. simpl.
  destruct (release_all post s2) as [u s3] eqn:Er. simpl.
  split; [reflexivity|]. split; [exact H1|].
  unfold creds_of, Credentials_at. rewrite H7, H8. reflexivity.
Qed.

Lemma fileOpAtX_same_task dirFD path fn (s : K) :
  (forall root d name rem s1,
     same_task s1 (snd (fn root d name rem s1))) ->
  same_task s (snd (fileOpAtX B dirFD path fn s)).
Proof.
  intros Hfn. unfold fileOpAtX, bind.
  pose proof (fileOpAt_resolve_exit B dirFD path s) as Hex.
  destruct (fileOpAt_resolve B dirFD path s) as [r s1]. simpl in Hex.
  destruct Hex as (H1&H2&H3&H4&H5&H6&H7&H8&H9&H10&H11&Hd&Hf&Hr).
  destruct r as [[[[[root parent] name] rem] post]|e].
  - specialize (Hfn root parent name rem s1).
    destruct (fn root parent name rem s1) as [err s2]. simpl in *.
    destruct (release_all_exit post s2)
      as (_&G2&G3&G4&G5&G6&G7&G8&G9&G10&G11&Gd&Gf).
    destruct (release_all post s2) as [u s3]. simpl in *.
    destruct Hfn as (F2&F3&F4&F5&F6&F7&F8&F9&F10&F11&Fd&Ff).
    unfold same_task. repeat split; try congruence.
    intros x. rewrite Gd, Fd, Hd. lia.
  - simpl. unfold same_task. repeat split; try assumption.
    intros x. rewrite Hd. unfold occ. simpl. lia.
Qed.

(** *** rmdirAt *)

Lemma rmdirAt_fn_same_task root d name rem (s : K) :
  same_task s (snd (rmdirAt_fn B X root d name rem s)).
Proof.
  unfold rmdirAt_fn. repeat (run2; break_match); run2; same_tac.
Qed.

(** X20.  What rmdir refuses by itself.  The path that is exactly the root
    fails with EBUSY before any resolution.  Otherwise, on a parent that
    resolves to a directory: a last component [.] fails with EINVAL and
    [..] with ENOTEMPTY, the backend not being asked anything; for any
    other name the backend's "may delete" check comes first, its error is
    returned with the filesystem untouched, and only when it passes is the
    removal of the directory asked.  The reference counts and descriptors
    are as before in every case. *)
Theorem rmdirAt_refusals dirFD addr path dirPath (s : K) :
  path_at B s addr path dirPath ->
  let r := rmdirAt B X dirFD addr s in
  let w := k_world s in
  same_task s (snd r) /\
  if String.eqb path "/" then r = (Some (inr EBUSY), copied addr s)
  else
    forall root d name rem post s1,
      fileOpAt_resolve B dirFD path (copied addr s)
        = (inl (root, d, name, rem, post), s1) ->
      IsDir (b_StableAttr B w d) = true ->
      if String.eqb name "."
      then fst r = Some (inl EINVAL) /\ k_world (snd r) = w
      else if String.eqb name ".."
      then fst r = Some (inr ENOTEMPTY) /\ k_world (snd r) = w
      else match o_MayDelete X w (creds_of s) root d name with
           | Some e => fst r = Some (inl e) /\ k_world (snd r) = w
           | None =>
               fst r = fst (o_RemoveDirectory X w root d name) /\
               k_world (snd r) = snd (o_RemoveDirectory X w root d name)
           end.
Proof.
  intros Hpath r w.
  assert (Hr : r = if String.eqb path "/"
                   then (Some (inr EBUSY), copied addr s)
                   else fileOpAtX B dirFD path (rmdirAt_fn B X)
                          (copied addr s)).
  { subst r. unfold rmdirAt, bind.
    rewrite (copyInPath_at B addr path dirPath s Hpath).
    destruct (String.eqb path "/"); reflexivity. }
  subst w. rewrite Hr. clear Hr r.
  destruct (String.eqb path "/").
  { split; [same_tac|reflexivity]. }
  split.
  { eapply same_task_trans;
      [|apply fileOpAtX_same_task; intros; apply rmdirAt_fn_same_task].
    same_tac. }
  intros root d name rem post s1 Hres Hdir.
  destruct (fileOpAtX_at dirFD path (rmdirAt_fn B X) root d name rem post
              (copied addr s) s1 Hres) as (Hcall & Hw & Hc).
  rewrite Hcall. simpl. rewrite release_all_world.
  change (creds_of (copied addr s)) with (creds_of s) in Hc.
  change (k_world (copied addr s)) with (k_world s) in Hw.
  unfold creds_of in *. rewrite <- Hw in *. rewrite <- Hc.
  unfold rmdirAt_fn. run2. rewrite Hdir. simpl.
  destruct (String.eqb name "."); [split; reflexivity|].
  destruct (String.eqb name ".."); [split; reflexivity|].
  destruct (o_MayDelete X (k_world s1) _ root d name); simpl;
    split; reflexivity.
Qed.

(** *** renameAt *)

Lemma rename_new_same_task oldParent oldName root np nname (s : K) :
  same_task s
    (snd ((ty <- StableAttr B np ;;
           if negb (IsDir ty) then ret (Some (inl ENOTDIR)) else
           if is_dot_name nname then ret (Some (inr EBUSY)) else
           world_op (fun w => o_Rename X w root oldParent oldName np nname))
            s)).
Proof.
  repeat (run2; break_match); run2; same_tac.
Qed.

(** X21.  What rename refuses by itself.  The new path is read before the
    old one; the old path is resolved first.  On an old parent that
    resolves to a directory, a last component that is empty, [.] or [..]
    fails with EBUSY and the new path is not resolved.  Otherwise the new
    path is resolved from the state the first resolution left; on a new
    parent that is a directory, the same three names fail with EBUSY, and
    any other pair of names is handed to the backend's rename, whose result
    is returned: the layer makes no permission check of its own.  The
    filesystem is untouched by a refusal and the reference counts are back
    to their values after the nested resolutions. *)
Theorem renameAt_busy oldDirFD oldAddr newDirFD newAddr newPath ndp oldPath
    odp root op oname rem post (s s1 : K) :
  path_at B s newAddr newPath ndp ->
  path_at B s oldAddr oldPath odp ->
  fileOpAt_resolve B oldDirFD oldPath (copied oldAddr (copied newAddr s))
    = (inl (root, op, oname, rem, post), s1) ->
  IsDir (b_StableAttr B (k_world s) op) = true ->
  let r := renameAt B X oldDirFD oldAddr newDirFD newAddr s in
  let w := k_world s in
  same_task s (snd r) /\
  if is_dot_name oname then
    fst r = Some (inr EBUSY) /\ k_world (snd r) = w /\
    k_log (snd r) = k_log s1 ++ List.map EvRelease post
  else
    forall root' np nname rem' post' s2,
      fileOpAt_resolve B newDirFD newPath s1
        = (inl (root', np, nname, rem', post'), s2) ->
      IsDir (b_StableAttr B w np) = true ->
      if is_dot_name nname
      then fst r = Some (inr EBUSY) /\ k_world (snd r) = w
      else fst r = fst (o_Rename X w root' op oname np nname) /\
           k_world (snd r) = snd (o_Rename X w root' op oname np nname).
Proof.
  intros Hnew Hold Hres Hdir r w.
  set (inner := fun (oldParent : Dirent) (oldName : string) =>
         fun (root newParent : Dirent) (newName : string) (_ : Z) =>
           ty <- StableAttr B newParent ;;
           if negb (IsDir ty) then ret (Some (inl ENOTDIR)) else
           if is_dot_name newName then ret (Some (inr EBUSY)) else
           world_op (fun w => o_Rename X w root oldParent oldName
                                newParent newName)).
  set (outer := fun (root oldParent : Dirent) (oldName : string) (_ : Z) =>
         ty <- StableAttr B oldParent ;;
         if negb (IsDir ty) then ret (Some (inl ENOTDIR)) else
         if is_dot_name oldName then ret (Some (inr EBUSY)) else
         fileOpAtX B newDirFD newPath (inner oldParent oldName)).
  assert (Hr : r = fileOpAtX B oldDirFD oldPath outer
                     (copied oldAddr (copied newAddr s))).
  { subst r. unfold renameAt. unfold bind at 1.
    rewrite (copyInPath_at B newAddr newPath ndp s Hnew).
    unfold bind at 1.
    rewrite (copyInPath_at B oldAddr oldPath odp (copied newAddr s))
      by exact Hold.
    reflexivity. }
  subst w. rewrite Hr. clear Hr r.
  assert (Houter : forall root d name rem s0,
            same_task s0 (snd (outer root d name rem s0))).
  { intros root0 d0 name0 rem0 s0. unfold outer. run.
    destruct (negb (IsDir (b_StableAttr B (k_world s0) d0))); run;
      [same_tac|].
    destruct (is_dot_name name0); run; [same_tac|].
    apply fileOpAtX_same_task. intros.
    apply rename_new_same_task. }
  split.
  { eapply same_task_trans; [|apply fileOpAtX_same_task; exact Houter].
    same_tac. }
  destruct (fileOpAtX_at oldDirFD oldPath outer root op oname rem post
              _ s1 Hres) as (Hcall & Hw & Hc).
  rewrite Hcall. clear Hcall. simpl. rewrite release_all_world.
  change (k_world (copied oldAddr (copied newAddr s))) with (k_world s) in Hw.
  rewrite <- Hw in *.
  assert (Ho : outer root op oname rem s1 =
               if is_dot_name oname then (Some (inr EBUSY), s1)
               else fileOpAtX B newDirFD newPath (inner op oname) s1).
  { unfold outer, bind, StableAttr, get, ret. simpl. rewrite Hdir. simpl.
    destruct (is_dot_name oname); reflexivity. }
  rewrite Ho. clear Ho.
  destruct (is_dot_name oname); simpl.
  { split; [reflexivity|]. split; [reflexivity|].
    destruct (release_all_log post s1) as (Hlog & _). exact Hlog. }
  intros root' np nname rem' post' s2 Hres2 Hdir2.
  destruct (fileOpAtX_at newDirFD newPath (inner op oname) root' np nname
              rem' post' s1 s2 Hres2) as (Hcall & Hw2 & _).
  rewrite Hcall. clear Hcall. simpl. rewrite !release_all_world.
  rewrite <- Hw2 in *.
  unfold inner. run2. rewrite Hdir2. simpl.
  destruct (is_dot_name nname); simpl; split; reflexivity.
Qed.

(** *** Getcwd *)

(** X22.  The buffer of getcwd.  The name written is the full name of the
    working directory under the root, with the prefix [(unreachable)] when
    the root does not reach it.  A buffer that cannot hold the name and its
    terminator (size <= length) gives ERANGE and nothing is written.
    Otherwise the name is copied out, then a NUL byte right after the bytes
    copied, and the call returns their count plus one with the error of the
    second copy; an error of the first copy is returned with a count of 0.
    The references taken on the two directories are given back in every
    case. *)
Theorem Getcwd_buffer addr size (s : K) :
  let r := Getcwd X addr size s in
  let w := k_world s in
  let fn := o_FullName X w (k_wd s) (k_root s) in
  let name := if snd fn then fst fn
              else ("(unreachable)" ++ fst fn)%string in
  same_task s (snd r) /\
  if size <=? Z.of_nat (String.length name) then
    fst r = (0, Some (inr ERANGE)) /\ k_world (snd r) = w
  else
    let c := o_CopyOutBytes X w addr name in
    match snd (fst c) with
    | Some e => fst r = (0, Some (inl e)) /\ k_world (snd r) = snd c
    | None =>
        let c2 := o_CopyOutBytes X (snd c) (wrap_uint64 (addr + fst (fst c)))
                    (String Ascii.zero EmptyString) in
        fst r = (wrap_uint64 (fst (fst c) + 1), widen (snd (fst c2))) /\
        k_world (snd r) = snd c2
    end.
Proof.
  intros r w fn name. subst r w fn name. unfold Getcwd. run2.
  destruct (size <=? _) eqn:Esz; run2.
  { split; [same_tac|]. split; reflexivity. }
  destruct (o_CopyOutBytes X (k_world s) addr _) as [[n [e|]] w1] eqn:Ec;
    run2.
  { split; [same_tac|]. split; reflexivity. }
  split; [same_tac|]. split; reflexivity.
Qed.

(** *** Flock *)

(** X23.  The operations of flock.  LOCK_NB is taken off the operation
    before it is looked at.  What is left has to be exactly LOCK_EX,
    LOCK_SH or LOCK_UN: anything else, a combination of them included,
    gives EINVAL and touches no lock.  LOCK_UN always succeeds.  LOCK_EX
    asks for a write lock and LOCK_SH for a read lock on the whole file,
    with a blocker exactly when LOCK_NB was not given; a lock that is
    refused gives EWOULDBLOCK under LOCK_NB and EINTR without it.  A
    descriptor that is not open gives EBADF, and the reference on the file
    is given back in every case. *)
Theorem Flock_operations fd operation (s : K) :
  let r := Flock X fd operation s in
  let w := k_world s in
  let op := Z.ldiff operation LOCK_NB in
  let nb := negb (Z.land operation LOCK_NB =? 0) in
  same_task s (snd r) /\
  match k_fdt s !! fd with
  | None => fst r = Some (inl EBADF) /\ k_world (snd r) = w
  | Some (file, _) =>
      (op <> LOCK_EX -> op <> LOCK_SH -> op <> LOCK_UN ->
       fst r = Some (inl EINVAL) /\ k_world (snd r) = w) /\
      (op = LOCK_UN ->
       fst r = None /\ k_world (snd r) = o_UnlockRegionBSD X w file) /\
      (forall ty, op = LOCK_EX /\ ty = WriteLock \/
                  op = LOCK_SH /\ ty = ReadLock ->
       let l := o_LockRegionBSD X w file ty (negb nb) in
       k_world (snd r) = snd l /\
       fst r = if fst l then None
               else Some (if nb then inr EWOULDBLOCK else inl EINTR))
  end.
Proof.
  intros r w op nb. subst r w op nb. unfold Flock.
  unfold LOCK_EX, LOCK_SH, LOCK_UN. run2.
  destruct (k_fdt s !! fd) as [[file fl]|]; run2.
  2: { split; [same_tac|]. split; reflexivity. }
  destruct (Z.ldiff operation LOCK_NB =? 2) eqn:E2.
  { apply Z.eqb_eq in E2. run2.
    destruct (o_LockRegionBSD X (k_world s) file WriteLock _)
      as [ok w1] eqn:El; destruct ok; run2.
    all: split; [same_tac|]; split; [intros; lia|]; split; [intros; lia|].
    all: intros ty [[_ Hty]|[Hop _]]; [subst ty|lia].
    all: rewrite El; split; reflexivity. }
  destruct (Z.ldiff operation LOCK_NB =? 1) eqn:E1.
  { apply Z.eqb_eq in E1. run2.
    destruct (o_LockRegionBSD X (k_world s) file ReadLock _)
      as [ok w1] eqn:El; destruct ok; run2.
    all: split; [same_tac|]; split; [intros; lia|]; split; [intros; lia|].
    all: intros ty [[Hop _]|[_ Hty]]; [lia|subst ty].
    all: rewrite El; split; reflexivity. }
  apply Z.eqb_neq in E2, E1.
  destruct (Z.ldiff operation LOCK_NB =? 8) eqn:E8; run2.
  { split; [same_tac|]. split; [intros; apply Z.eqb_eq in E8; lia|].
    split; [intros _; split; reflexivity|].
    intros ty [[Hop _]|[Hop _]]; lia. }
  apply Z.eqb_neq in E8.
  split; [same_tac|]. split; [intros; split; reflexivity|].
  split; [intros; lia|]. intros ty [[Hop _]|[Hop _]]; lia.
Qed.

End WiderErrors.

Lemma rmdirAt_refusals_witness :
  let B := TestOps.backend in
  let X := TestOps.ops in
  let s := TestOps.kernel in
  (* rmdir("/"), rmdir("/d/."), rmdir("/d/.."), rmdir("/d") *)
  rmdirAt B X AT_FDCWD 15 s = (Some (inr EBUSY), copied 15 s) /\
  fst (rmdirAt B X AT_FDCWD 13 s) = Some (inl EINVAL) /\
  fst (rmdirAt B X AT_FDCWD 14 s) = Some (inr ENOTEMPTY) /\
  fst (rmdirAt B X AT_FDCWD 1 s) = None /\
  fst (b_FindLink B (k_world (snd (rmdirAt B X AT_FDCWD 1 s))) 0%nat None
         "/d" 40) = inr ENOENT.
Proof.
  intros B X s.
  pose proof (rmdirAt_refusals B X AT_FDCWD 15 "/" false s
                ltac:(exists "/"%string; repeat split; discriminate)) as H1.
  pose proof (rmdirAt_refusals B X AT_FDCWD 13 "/d/." false s
                ltac:(exists "/d/."%string; repeat split; discriminate)) as H2.
  pose proof (rmdirAt_refusals B X AT_FDCWD 14 "/d/.." false s
                ltac:(exists "/d/.."%string; repeat split; discriminate))
    as H3.
  pose proof (rmdirAt_refusals B X AT_FDCWD 1 "/d" false s
                ltac:(exists "/d"%string; repeat split; discriminate)) as H4.
  cbv zeta in H1, H2, H3, H4.
  destruct H1 as [_ H1], H2 as [_ H2], H3 as [_ H3], H4 as [_ H4].
  decide_if H1. decide_if H2. decide_if H3. decide_if H4.
  specialize (H2 0%nat 1%nat "."%string 40 [1%nat]
                (snd (fileOpAt_resolve B AT_FDCWD "/d/." (copied 13 s)))
                ltac:(vm_compute; reflexivity) eq_refl).
  specialize (H3 0%nat 1%nat ".."%string 40 [1%nat]
                (snd (fileOpAt_resolve B AT_FDCWD "/d/.." (copied 14 s)))
                ltac:(vm_compute; reflexivity) eq_refl).
  specialize (H4 0%nat 0%nat "d"%string 40 [0%nat]
                (snd (fileOpAt_resolve B AT_FDCWD "/d" (copied 1 s)))
                ltac:(vm_compute; reflexivity) eq_refl).
  decide_if H2. decide_if H3. decide_if H4.
  change (o_MayDelete X (k_world s) (creds_of s) 0%nat 0%nat "d")
    with (@None Errno) in H4. cbv iota in H4.
  destruct H2 as [H2 _], H3 as [H3 _], H4 as [H4 H4'].
  split; [exact H1|]. split; [exact H2|]. split; [exact H3|].
  split; [rewrite H4; reflexivity|rewrite H4'; reflexivity].
Defined.

Lemma renameAt_busy_witness :
  let B := TestOps.backend in
  let X := TestOps.ops in
  let s := TestOps.kernel in
  (* rename("/f", "/g") and rename("/d/.", "/g") *)
  fst (renameAt B X AT_FDCWD 2 AT_FDCWD 18 s) = None /\
  fst (b_FindLink B (k_world (snd (renameAt B X AT_FDCWD 2 AT_FDCWD 18 s)))
         0%nat None "/g" 40) = inl 2%nat /\
  fst (b_FindLink B (k_world (snd (renameAt B X AT_FDCWD 2 AT_FDCWD 18 s)))
         0%nat None "/f" 40) = inr ENOENT /\
  fst (renameAt B X AT_FDCWD 13 AT_FDCWD 18 s) = Some (inr EBUSY) /\
  k_world (snd (renameAt B X AT_FDCWD 13 AT_FDCWD 18 s)) = k_world s.
Proof.
  intros B X s.
  pose (s1 := snd (fileOpAt_resolve B AT_FDCWD "/f" (copied 2 (copied 18 s)))).
  pose proof (renameAt_busy B X AT_FDCWD 2 AT_FDCWD 18 "/g" false "/f" false
                0%nat 0%nat "f" 40 [0%nat] s s1
                ltac:(exists "/g"%string; repeat split; discriminate)
                ltac:(exists "/f"%string; repeat split; discriminate)
                ltac:(vm_compute; reflexivity) eq_refl) as H1.
  pose proof (renameAt_busy B X AT_FDCWD 13 AT_FDCWD 18 "/g" false "/d/."
                false 0%nat 1%nat "." 40 [1%nat] s
                (snd (fileOpAt_resolve B AT_FDCWD "/d/."
                        (copied 13 (copied 18 s))))
                ltac:(exists "/g"%string; repeat split; discriminate)
                ltac:(exists "/d/."%string; repeat split; discriminate)
                ltac:(vm_compute; reflexivity) eq_refl) as H2.
  cbv zeta in H1, H2. destruct H1 as [_ H1], H2 as [_ H2].
  decide_if H1. decide_if H2.
  specialize (H1 0%nat 0%nat "g"%string 40 [0%nat]
                (snd (fileOpAt_resolve B AT_FDCWD "/g" s1))
                ltac:(vm_compute; reflexivity) eq_refl).
  decide_if H1. destruct H1 as [H1 H1'], H2 as (H2 & H2' & _).
  split; [rewrite H1; reflexivity|].
  split; [rewrite H1'; reflexivity|].
  split; [rewrite H1'; reflexivity|].
  split; [exact H2|exact H2'].
Defined.

Section CreatOpen.
Context {World : Type} (B : Backend World).
Local Abbreviation K := (Kernel World).

(** *** Open and Creat *)

Lemma createAt_loop_creat fuel root parent name rem ds (s : K) :
  createAt_loop B fuel (Z.lor O_WRONLY O_TRUNC) root parent name rem ds s =
  createAt_loop B fuel (Z.lor O_CREAT (Z.lor O_WRONLY O_TRUNC)) root parent
    name rem ds s.
Proof.
  revert parent name rem ds s.
  induction fuel as [|fuel IH]; intros parent name rem ds s; [reflexivity|].
  simpl. unfold bind.
  change (createAt_step B (Z.lor O_CREAT (Z.lor O_WRONLY O_TRUNC)))
    with (createAt_step B (Z.lor O_WRONLY O_TRUNC)).
  destruct (createAt_step B _ root parent name rem s) as [[[st rem'] ds'] s1].
  destruct st; try reflexivity. apply IH.
Qed.

(** X24.  creat is open with O_CREAT|O_WRONLY|O_TRUNC.  Provided the two
    flag conversions do not look at O_CREAT, creat(path, mode) returns the
    same descriptor and error and leaves the same state as
    open(path, O_CREAT|O_WRONLY|O_TRUNC, mode): the create-or-open engine
    itself never reads that bit. *)
Theorem Creat_is_open fuel addr mode (s : K) :
  flagsToPermissions B (Z.lor O_CREAT (Z.lor O_WRONLY O_TRUNC))
  = flagsToPermissions B (Z.lor O_WRONLY O_TRUNC) ->
  linuxToFlags B (Z.lor O_CREAT (Z.lor O_WRONLY O_TRUNC))
  = linuxToFlags B (Z.lor O_WRONLY O_TRUNC) ->
  Creat B fuel addr mode s
  = Open B fuel addr (Z.lor O_CREAT (Z.lor O_WRONLY O_TRUNC)) mode s.
Proof.
  intros Hperm Hflags. unfold Creat, Open.
  change (has_flag (Z.lor O_CREAT (Z.lor O_WRONLY O_TRUNC)) O_CREAT)
    with true. cbv iota.
  unfold createAt, bind. rewrite Hflags.
  destruct (set_result 0 s) as [u s0].
  destruct (copyInPath B addr false s0) as [[[path dirPath]|e] s1];
    [|reflexivity].
  destruct dirPath; [reflexivity|].
  rewrite !(fileOpAt_split B).
  destruct (fileOpAt_resolve B AT_FDCWD path s1)
    as [[[[[[root parent] name] rem] post]|e] s2]; [|reflexivity].
  assert (Hfn : createAt_fn B fuel (Z.lor O_WRONLY O_TRUNC) mode
                  (set_LargeFile (linuxToFlags B (Z.lor O_WRONLY O_TRUNC)))
                  root parent name rem s2
                = createAt_fn B fuel (Z.lor O_CREAT (Z.lor O_WRONLY O_TRUNC))
                    mode
                    (set_LargeFile (linuxToFlags B (Z.lor O_WRONLY O_TRUNC)))
                    root parent name rem s2).
  { unfold createAt_fn, bind. rewrite createAt_loop_creat.
    destruct (createAt_loop B fuel _ root parent name rem [] s2)
      as [[[ex ds]|] s3]; [|reflexivity].
    destruct ex as [e|res parent' name']; [reflexivity|].
    assert (Hfin : createAt_finish B (Z.lor O_WRONLY O_TRUNC) mode
                     (set_LargeFile
                        (linuxToFlags B (Z.lor O_WRONLY O_TRUNC)))
                     root res parent' name' s3
                   = createAt_finish B
                       (Z.lor O_CREAT (Z.lor O_WRONLY O_TRUNC)) mode
                       (set_LargeFile
                          (linuxToFlags B (Z.lor O_WRONLY O_TRUNC)))
                       root res parent' name' s3).
    { unfold createAt_finish. rewrite Hperm. reflexivity. }
    rewrite Hfin. reflexivity. }
  rewrite Hfn. reflexivity.
Qed.

End CreatOpen.

Lemma Creat_is_open_witness :
  let B := TestOps.backend in
  let s := TestOps.kernel in
  (* creat("/g", 0644) *)
  Creat B 41 18 420 s = Open B 41 18 577 420 s /\
  fst (Creat B 41 18 420 s) = (0, None).
Proof.
  intros B s.
  pose proof (Creat_is_open B 41 18 420 s eq_refl eq_refl) as H.
  split; [exact H|]. rewrite H. vm_compute. reflexivity.
Defined.

(** ** lisafs: the tracker of donated descriptors *)

Section Tracker.
Import Lisafs.
Variable grow : nat -> nat.

Lemma array_at_insert (h : Heap) a v :
  (a < length h)%nat -> array_at (<[a := v]> h) a = v.
Proof.
  intros Ha. unfold array_at.
  rewrite list_lookup_insert_eq by exact Ha. reflexivity.
Qed.

Lemma array_at_new (h : Heap) v : array_at (h ++ [v]) (length h) = v.
Proof.
  unfold array_at. rewrite lookup_app_r by lia.
  replace (length h - length h)%nat with 0%nat by lia. reflexivity.
Qed.

Lemma elements_length (h : Heap) sl :
  wf h sl -> length (elements h sl) = sl_len sl.
Proof.
  intros [Hle Hcap]. unfold elements. rewrite length_take.
  destruct (sl_cap sl) as [|c] eqn:Ec.
  - lia.
  - destruct Hcap as [_ Hlen]; [lia|]. rewrite Hlen. lia.
Qed.

(** append adds the element at the end of what the slice shows. *)
Lemma append_elements (h : Heap) sl x :
  wf h sl ->
  elements (snd (append grow h sl x)) (fst (append grow h sl x))
  = elements h sl ++ [x] /\
  wf (snd (append grow h sl x)) (fst (append grow h sl x)).
Proof.
  intros Hwf. pose proof (elements_length h sl Hwf) as Hel.
  destruct Hwf as [Hle Hcap]. unfold append.
  destruct (sl_len sl <? sl_cap sl)%nat eqn:Elt.
  - apply Nat.ltb_lt in Elt. destruct Hcap as [Ha Hlen]; [lia|].
    simpl. unfold elements. simpl. rewrite array_at_insert by exact Ha.
    split.
    + rewrite (take_S_r _ _ x).
      * rewrite take_insert_ge by lia. reflexivity.
      * apply list_lookup_insert_eq. lia.
    + split; simpl; [lia|]. intros _.
      rewrite length_insert, array_at_insert by exact Ha.
      rewrite length_insert. split; assumption.
  - apply Nat.ltb_ge in Elt. simpl. unfold elements at 1. simpl.
    rewrite array_at_new. split.
    + rewrite take_app_ge by lia. rewrite Hel.
      replace (S (sl_len sl) - sl_len sl)%nat with 1%nat by lia.
      reflexivity.
    + split; simpl; [lia|]. intros _. rewrite array_at_new.
      rewrite length_app. simpl. rewrite length_app. simpl.
      rewrite Hel, length_replicate. lia.
Qed.

Lemma AddDonationFD_elements (st : State) fd :
  wf (fst st) (fds (snd st)) ->
  let st' := AddDonationFD grow st fd in
  elements (fst st') (fds (snd st')) = elements (fst st) (fds (snd st)) ++ [fd]
  /\ wf (fst st') (fds (snd st')).
Proof.
  intros Hwf. unfold AddDonationFD. simpl.
  apply append_elements. exact Hwf.
Qed.

Lemma donations_elements fdl : forall (st : State),
  wf (fst st) (fds (snd st)) ->
  let st' := fold_left (AddDonationFD grow) fdl st in
  elements (fst st') (fds (snd st')) = elements (fst st) (fds (snd st)) ++ fdl
  /\ wf (fst st') (fds (snd st')).
Proof.
  induction fdl as [|fd rest IH]; intros st Hwf; simpl.
  - rewrite app_nil_r. split; [reflexivity|exact Hwf].
  - destruct (AddDonationFD_elements st fd Hwf) as [He Hw].
    destruct (IH (AddDonationFD grow st fd) Hw) as [He' Hw'].
    split; [|exact Hw']. rewrite He', He, <- app_assoc. reflexivity.
Qed.

(** X25.  Donations come back in order, once.  From a tracker whose slice
    agrees with the heap, after any sequence of donations, ReleaseFDs
    returns a slice that shows what the tracker held before followed by the
    donations in the order they were made; the tracker then holds nothing,
    and a second ReleaseFDs returns an empty slice. *)
Theorem ReleaseFDs_order (st : State) (fdl : list Z) :
  wf (fst st) (fds (snd st)) ->
  let r := ReleaseFDs (fold_left (AddDonationFD grow) fdl st) in
  let h := fst (snd r) in
  elements h (fst r) = elements (fst st) (fds (snd st)) ++ fdl /\
  elements h (fds (snd (snd r))) = [] /\
  elements h (fst (ReleaseFDs (snd r))) = [].
Proof.
  intros Hwf r h. subst r h.
  destruct (donations_elements fdl st Hwf) as [He _].
  unfold ReleaseFDs. simpl. split; [exact He|].
  split; reflexivity.
Qed.

(** X26.  The slice ReleaseFDs returns shares its array with the tracker.
    From a tracker that holds at least one descriptor and whose slice
    agrees with the heap: the slice returned by ReleaseFDs shows the
    descriptors held, but the tracker keeps the same array with length 0,
    so the next donation is written into that array and the returned slice
    then shows the new descriptor in place of its first element. *)
Theorem ReleaseFDs_shares_array (st : State) (fd : Z) :
  wf (fst st) (fds (snd st)) ->
  (0 < sl_len (fds (snd st)))%nat ->
  let r := ReleaseFDs st in
  let st' := AddDonationFD grow (snd r) fd in
  sl_array (fds (snd st')) = sl_array (fst r) /\
  elements (fst st') (fst r) = fd :: tail (elements (fst st) (fst r)).
Proof.
  intros [Hle Hcap] Hpos r st'. subst r st'.
  unfold ReleaseFDs, AddDonationFD, append, reslice0. simpl.
  assert (Hlt : (0 <? sl_cap (fds st.2))%nat = true)
    by (apply Nat.ltb_lt; lia).
  rewrite Hlt. simpl. split; [reflexivity|].
  destruct Hcap as [Ha Hlen]; [lia|].
  unfold elements. rewrite array_at_insert by exact Ha.
  destruct (array_at st.1 (sl_array (fds st.2))) as [|a0 rest];
    [simpl in Hlen; lia|].
  destruct (sl_len (fds st.2)) as [|n]; [lia|]. reflexivity.
Qed.

End Tracker.

Lemma ReleaseFDs_order_witness :
  let r := Lisafs.ReleaseFDs
             (fold_left (Lisafs.AddDonationFD Lisafs.double) [7; 8; 9]
                Lisafs.new_tracker) in
  Lisafs.elements (fst (snd r)) (fst r) = [7; 8; 9] /\
  Lisafs.elements (fst (snd r)) (Lisafs.fds (snd (snd r))) = [].
Proof.
  destruct (ReleaseFDs_order Lisafs.double Lisafs.new_tracker [7; 8; 9])
    as (H1 & H2 & _).
  - split; simpl; [lia|]. intros H. inversion H.
  - split; [exact H1|exact H2].
Defined.

Lemma ReleaseFDs_shares_array_witness :
  let st := fold_left (Lisafs.AddDonationFD Lisafs.double) [7; 8; 9]
              Lisafs.new_tracker in
  let r := Lisafs.ReleaseFDs st in
  let st' := Lisafs.AddDonationFD Lisafs.double (snd r) 5 in
  Lisafs.elements (fst st) (fst r) = [7; 8; 9] /\
  Lisafs.elements (fst st') (fst r) = [5; 8; 9].
Proof.
  intros st r st'.
  destruct (ReleaseFDs_shares_array Lisafs.double st 5) as [_ H].
  - split; simpl; [lia|]. intros _. split; [lia|reflexivity].
  - simpl. lia.
  - split; [reflexivity|exact H].
Defined.

Section MoreCalls.
Context {World : Type} (B : Backend World) (X : Ops World).
Local Abbreviation K := (Kernel World).

(** *** Futimesat *)

(** X27.  futimesat sets explicit times, so it is for owners.  With a pair
    of times in memory, a microsecond field outside [0, 10^6) on either
    side gives EINVAL before anything else is looked at.  Otherwise the
    path is resolved with symlinks followed and the request names both
    times explicitly: the owner's request goes to the backend, and a caller
    who does not own the node gets EPERM, write permission or not, the
    filesystem being left as it was. *)
Theorem Futimesat_explicit dirFD pathnameAddr timesAddr t0 t1 (s : K) :
  timesAddr <> 0 ->
  o_CopyTimevalSliceIn X (k_world s) timesAddr = inl (t0, t1) ->
  let r := Futimesat B X dirFD pathnameAddr timesAddr s in
  let w := k_world s in
  let ts := {| ATime := FromTimeval X t0; ATimeOmit := false;
               ATimeSetSystemTime := false;
               MTime := FromTimeval X t1; MTimeOmit := false;
               MTimeSetSystemTime := false |} in
  if (1000000 <=? tv_Usec t0) || (tv_Usec t0 <? 0)
     || (1000000 <=? tv_Usec t1) || (tv_Usec t1 <? 0)
  then r = (Some EINVAL, s)
  else
    forall path dirPath root d rem s1,
      pathnameAddr <> 0 ->
      path_at B s pathnameAddr path dirPath ->
      fileOpOn_lookup B dirFD path true (copied pathnameAddr s)
        = (inl (root, d, rem), s1) ->
      if o_CheckOwnership X w (creds_of s) d
      then fst r = fst (o_SetTimestamps X w d ts) /\
           k_world (snd r) = snd (o_SetTimestamps X w d ts)
      else fst r = Some EPERM /\ k_world (snd r) = w.
Proof.
  intros Hne Hcopy r w ts.
  assert (Hr : r =
    if (1000000 <=? tv_Usec t0) || (tv_Usec t0 <? 0)
       || (1000000 <=? tv_Usec t1) || (tv_Usec t1 <? 0)
    then (Some EINVAL, s)
    else utimes B X dirFD pathnameAddr ts true s).
  { subst r. unfold Futimesat, bind at 1.
    apply Z.eqb_neq in Hne. rewrite Hne. simpl. run. rewrite Hcopy.
    destruct ((1000000 <=? tv_Usec t0) || (tv_Usec t0 <? 0)
              || (1000000 <=? tv_Usec t1) || (tv_Usec t1 <? 0));
      reflexivity. }
  subst w. rewrite Hr. clear Hr r.
  destruct ((1000000 <=? tv_Usec t0) || (tv_Usec t0 <? 0)
            || (1000000 <=? tv_Usec t1) || (tv_Usec t1 <? 0));
    [reflexivity|].
  intros path dirPath root d rem s1 Hpne Hpath Hres.
  assert (Hbr : (pathnameAddr =? 0) && negb (dirFD =? AT_FDCWD) = false).
  { apply Z.eqb_neq in Hpne. rewrite Hpne. reflexivity. }
  destruct (utimes_enter B X dirFD pathnameAddr ts true path dirPath root d
              rem s s1 Hbr Hpath Hres) as (Hcall & Hw & Hc).
  rewrite Hcall. clear Hcall. unfold creds_of in *.
  rewrite <- Hw, <- Hc.
  unfold setTimestamp. run2.
  destruct (o_CheckOwnership X (k_world s1) _ d); simpl.
  - destruct (o_SetTimestamps X (k_world s1) d ts) as [[e|] w']; simpl;
      split; reflexivity.
  - split; reflexivity.
Qed.

(** *** Linkat with an empty path *)

(** X28.  linkat on a descriptor.  With valid flags that include
    AT_EMPTY_PATH, an empty old path in memory (kept empty by the path
    helper) and a new path without trailing slash: a caller without
    CAP_DAC_READ_SEARCH in the root user namespace gets ENOENT before
    anything is read.  Otherwise the target is the file behind the old
    descriptor, no lookup being made for it: EBADF when it is not open;
    EPERM under the hard-link policy, with the new path unresolved and the
    filesystem untouched; and else the link to the file's dirent is asked
    of the backend once the new parent is a directory the caller may write
    and search.  Every reference count is as before on every exit. *)
Theorem Linkat_empty_path oldDirFD oldAddr newDirFD newAddr flags newPath
    (s : K) :
  Z.ldiff flags (Z.lor AT_SYMLINK_FOLLOW AT_EMPTY_PATH) = 0 ->
  Z.land flags AT_EMPTY_PATH = AT_EMPTY_PATH ->
  b_CopyInString B (k_world s) oldAddr = inl ""%string ->
  fst (TrimTrailingSlashes B "") = ""%string ->
  path_at B s newAddr newPath false ->
  let r := Linkat B X oldDirFD oldAddr newDirFD newAddr flags s in
  let w := k_world s in
  if negb (o_HasCapabilityInRoot X (creds_of s) CAP_DAC_READ_SEARCH)
  then r = (Some ENOENT, s)
  else
    same_task s (snd r) /\
    match k_fdt s !! oldDirFD with
    | None => fst r = Some EBADF /\ k_world (snd r) = w
    | Some (file, _) =>
        let s0 := snd (GetFile oldDirFD (copied newAddr (copied oldAddr s))) in
        if may_link B X s (f_dirent file) then
          forall root np name rem post s2,
            fileOpAt_resolve B newDirFD newPath
              (snd (mayLinkAt B X (f_dirent file) s0))
              = (inl (root, np, name, rem, post), s2) ->
            IsDir (b_StableAttr B w np) = true ->
            b_CheckPermission B w (creds_of s) np write_exec = None ->
            fst r = fst (o_CreateHardLink X w root np (f_dirent file) name) /\
            k_world (snd r)
            = snd (o_CreateHardLink X w root np (f_dirent file) name)
        else fst r = Some EPERM /\ k_world (snd r) = w
    end.
Proof.
  intros Hflags Hempty Hcopy Htrim Hnew r w.
  set (closure := fun target : Dirent =>
         e <- mayLinkAt B X target ;;
         match e with
         | Some e => ret (Some e)
         | None => fileOpAt B newDirFD newPath (linkAt_fn B X target)
         end).
  assert (Hr : r =
    if negb (o_HasCapabilityInRoot X (creds_of s) CAP_DAC_READ_SEARCH)
    then (Some ENOENT, s)
    else
      (t <- GetFile oldDirFD ;;
       match t with
       | None => ret (Some EBADF)
       | Some target =>
           err <- closure (f_dirent target) ;;
           DecRefFile target ;;
           ret err
       end) (copied newAddr (copied oldAddr s))).
  { subst r. unfold Linkat. rewrite Hflags, Hempty, Z.eqb_refl. simpl.
    unfold bind at 1. unfold task_creds, get. fold (creds_of s).
    destruct (o_HasCapabilityInRoot X (creds_of s) CAP_DAC_READ_SEARCH);
      [|reflexivity].
    simpl. unfold linkAt. unfold bind at 1.
    rewrite (copyInPath_ok B oldAddr true "" s Hcopy) by reflexivity.
    destruct (TrimTrailingSlashes B "") as [p dp]. simpl in Htrim. subst p.
    unfold bind at 1.
    change (set_log s (k_log s ++ [EvCopyInString oldAddr]))
      with (copied oldAddr s).
    rewrite (copyInPath_at B newAddr newPath false (copied oldAddr s))
      by exact Hnew.
    reflexivity. }
  subst w. rewrite Hr. clear Hr r.
  destruct (o_HasCapabilityInRoot X (creds_of s) CAP_DAC_READ_SEARCH);
    [|reflexivity].
  simpl.
  set (s00 := copied newAddr (copied oldAddr s)).
  assert (Hr : (t <- GetFile oldDirFD ;;
                match t with
                | None => ret (Some EBADF)
                | Some target =>
                    err <- closure (f_dirent target) ;;
                    DecRefFile target ;;
                    ret err
                end) s00 =
               match k_fdt s !! oldDirFD with
               | None => (Some EBADF, s00)
               | Some (f, _) =>
                   (fst (closure (f_dirent f) (snd (GetFile oldDirFD s00))),
                    snd (DecRefFile f
                           (snd (closure (f_dirent f)
                                   (snd (GetFile oldDirFD s00))))))
               end).
  { unfold bind at 1. unfold GetFile. run.
    destruct (k_fdt s !! oldDirFD) as [[f fl]|]; [|reflexivity]. run.
    destruct (closure (f_dirent f) _) as [err s3]. reflexivity. }
  rewrite Hr. clear Hr.
  assert (Hget2 : match k_fdt s !! oldDirFD with
                  | Some (f, _) =>
                      k_world (snd (GetFile oldDirFD s00)) = k_world s /\
                      creds_of (snd (GetFile oldDirFD s00)) = creds_of s /\
                      same_task (set_frefs s (bump (f_id f) 1 (k_frefs s)))
                        (snd (GetFile oldDirFD s00))
                  | None => True
                  end).
  { unfold GetFile. run. destruct (k_fdt s !! oldDirFD) as [[f fl]|];
      [|exact I]. run. repeat split; try reflexivity. }
  destruct (k_fdt s !! oldDirFD) as [[file fl]|].
  2: { split; [subst s00; same_tac|]. split; reflexivity. }
  destruct Hget2 as (Hw0 & Hc0 & Ht0).
  set (s0 := snd (GetFile oldDirFD s00)) in *.
  assert (Hml : may_link B X s0 (f_dirent file)
                = may_link B X s (f_dirent file)).
  { unfold may_link. rewrite Hw0, Hc0. reflexivity. }
  pose proof (link_closure_same_task B X newDirFD newPath (f_dirent file) s0)
    as Hcl.
  fold (closure (f_dirent file)) in Hcl.
  split.
  { pose proof (same_task_trans _ _ _ Ht0 Hcl) as Ht.
    destruct (closure (f_dirent file) s0) as [err s3]. run.
    destruct Ht as (F2&F3&F4&F5&F6&F7&F8&F9&F10&F11&Fd&Ff).
    unfold same_task. simpl in *. repeat split; try assumption.
    intros g. unfold bump in *. rewrite Ff.
    repeat case_decide; subst; try congruence; lia. }
  assert (Hclo : closure (f_dirent file) s0 =
            if may_link B X s (f_dirent file)
            then fileOpAt B newDirFD newPath (linkAt_fn B X (f_dirent file))
                   (snd (mayLinkAt B X (f_dirent file) s0))
            else (Some EPERM, snd (mayLinkAt B X (f_dirent file) s0))).
  { unfold closure, bind.
    destruct (mayLinkAt_same_state B X (f_dirent file) s0) as [_ He1].
    destruct (mayLinkAt B X (f_dirent file) s0) as [e1 s1]. simpl in *.
    rewrite Hml in He1. subst e1.
    destruct (may_link B X s (f_dirent file)); reflexivity. }
  rewrite Hclo. clear Hclo.
  destruct (mayLinkAt_same_state B X (f_dirent file) s0) as [[Hw1 Ht1] _].
  assert (Hc1 : creds_of (snd (mayLinkAt B X (f_dirent file) s0))
                = creds_of s0).
  { destruct Ht1 as (_&_&_&_&_&H6&H7&_).
    unfold creds_of, Credentials_at. rewrite H6, H7. reflexivity. }
  destruct (may_link B X s (f_dirent file)); simpl.
  2: { run. split; [reflexivity|congruence]. }
  intros root np name rem post s2 Hres Hdir Hperm.
  destruct (fileOpAt_at B newDirFD newPath (linkAt_fn B X (f_dirent file))
              root np name rem post _ s2 Hres) as (Hcall & Hw2 & _ & Hc2).
  rewrite Hcall. clear Hcall. run.
  rewrite release_all_world.
  rewrite <- Hc0, <- Hc1, <- Hc2 in Hperm.
  rewrite <- Hw0, <- Hw1, <- Hw2 in *.
  unfold creds_of, write_exec in *.
  unfold linkAt_fn. run2. rewrite Hdir. simpl. rewrite Hperm. simpl.
  split; reflexivity.
Qed.

(** *** MemfdCreate *)

(** X29.  memfd_create.  With known flags and a name in memory: a name of
    more than 249 bytes (NAME_MAX less the prefix, plus one) gives EINVAL
    and nothing is created.  Otherwise a dirent named [/memfd:] followed by
    the name is made and a file is asked for it.  When that succeeds, the
    references taken on the dirent and on the file are given back on every
    exit: after a success the file keeps one reference, that of the
    descriptor installed with the close-on-exec flag asked for; after a
    failure to install the counts are as before.  When the file cannot be
    had, the call returns the error without giving back the reference on
    the new dirent, whose count stays one above its value. *)
Theorem MemfdCreate_references addr flags name (s : K) :
  Z.ldiff flags memfdAllFlags = 0 ->
  o_CopyInStringMax X (k_world s) addr
    (PathMax - Z.of_nat (String.length memfdPrefix)) = inl name ->
  let r := MemfdCreate B X addr flags s in
  if memfdMaxNameLen <? Z.of_nat (String.length name)
  then r = ((0, Some EINVAL), s)
  else
    let nd := o_NewMemfd X (k_world s)
                (negb (Z.land flags MFD_ALLOW_SEALING =? 0))
                (memfdPrefix ++ name)%string in
    let d := fst nd in
    match fst (b_GetFile B (snd nd) d
                 {| ff_Read := true; ff_Write := true; ff_Directory := false;
                    ff_LargeFile := false; ff_Truncate := false;
                    ff_Append := false; ff_NonBlocking := false |}) with
    | inr e =>
        fst r = (0, Some e) /\ k_fdt (snd r) = k_fdt s /\
        (forall x, k_drefs (snd r) x
                   = k_drefs s x + one_if (bool_decide (x = d))) /\
        (forall f, k_frefs (snd r) f = k_frefs s f)
    | inl file =>
        (forall x, k_drefs (snd r) x = k_drefs s x) /\
        match snd (fst r) with
        | None =>
            k_fdt (snd r)
            = <[fst (fst r) :=
                  (file, {| CloseOnExec :=
                              negb (Z.land flags MFD_CLOEXEC =? 0) |})]>
                (k_fdt s) /\
            forall f, k_frefs (snd r) f
                      = k_frefs s f + one_if (bool_decide (f = f_id file))
        | Some _ =>
            k_fdt (snd r) = k_fdt s /\
            forall f, k_frefs (snd r) f = k_frefs s f
        end
    end.
Proof.
  intros Hflags Hcopy r. subst r. unfold MemfdCreate.
  rewrite Hflags. change (negb (0 =? 0)) with false.
  cbv beta iota delta [bind get ret]. rewrite Hcopy.
  destruct (memfdMaxNameLen <? Z.of_nat (String.length name));
    [reflexivity|].
  unfold NewMemfdDirent, NewFDFrom. run2.
  destruct (o_NewMemfd X (k_world s) _ _) as [d w1]. simpl.
  destruct (b_GetFile B w1 d _) as [[file|e] w2]; run2.
  2: { repeat split; try reflexivity.
       intros x. unfold bump, one_if.
       case_decide; case_bool_decide; subst; try congruence; lia. }
  destruct (lowest_free (k_fdt s) 0 (k_fdlimit s)) as [n|]; run2.
  - repeat split; try reflexivity.
    + intros x. unfold bump. repeat case_decide; lia.
    + intros f. unfold bump, one_if.
      repeat case_decide; case_bool_decide; subst; try congruence; lia.
  - repeat split; try reflexivity.
    + intros x. unfold bump. repeat case_decide; lia.
    + intros f. unfold bump. repeat case_decide; lia.
Qed.

End MoreCalls.

Lemma Futimesat_explicit_witness :
  let B := TestOps.backend in
  let X := TestOps.ops in
  let s := TestOps.kernel in
  (* futimesat(AT_FDCWD, "/d", times) by a caller who may write /d but does
     not own it, and futimesat(AT_FDCWD, "/f", times) by the owner of /f *)
  fst (Futimesat B X AT_FDCWD 1 102 s) = Some EPERM /\
  k_world (snd (Futimesat B X AT_FDCWD 1 102 s)) = k_world s /\
  fst (Futimesat B X AT_FDCWD 2 102 s) = None.
Proof.
  intros B X s.
  pose proof (Futimesat_explicit B X AT_FDCWD 1 102
                {| tv_Sec := 5; tv_Usec := 1 |}
                {| tv_Sec := 7; tv_Usec := 2 |} s
                ltac:(discriminate) eq_refl) as H1.
  pose proof (Futimesat_explicit B X AT_FDCWD 2 102
                {| tv_Sec := 5; tv_Usec := 1 |}
                {| tv_Sec := 7; tv_Usec := 2 |} s
                ltac:(discriminate) eq_refl) as H2.
  cbv zeta in H1, H2. decide_if H1. decide_if H2.
  specialize (H1 "/d"%string false 0%nat 1%nat 40
                (snd (fileOpOn_lookup B AT_FDCWD "/d" true (copied 1 s)))
                ltac:(discriminate)
                ltac:(exists "/d"%string; repeat split; discriminate)
                ltac:(vm_compute; reflexivity)).
  specialize (H2 "/f"%string false 0%nat 2%nat 40
                (snd (fileOpOn_lookup B AT_FDCWD "/f" true (copied 2 s)))
                ltac:(discriminate)
                ltac:(exists "/f"%string; repeat split; discriminate)
                ltac:(vm_compute; reflexivity)).
  decide_if H1. decide_if H2.
  destruct H1 as [H1 H1'], H2 as [H2 _].
  split; [exact H1|]. split; [exact H1'|]. rewrite H2. reflexivity.
Defined.

Lemma Linkat_empty_path_witness :
  let B := TestOps.backend in
  let X := TestOps.ops in
  (* linkat(3, "", AT_FDCWD, "/g", AT_EMPTY_PATH), descriptor 3 being open
     on /f: with CAP_DAC_READ_SEARCH, and without *)
  fst (Linkat B X 3 6 AT_FDCWD 18 AT_EMPTY_PATH TestOps.kernel_search) = None
  /\
  fst (b_FindLink B
         (k_world (snd (Linkat B X 3 6 AT_FDCWD 18 AT_EMPTY_PATH
                          TestOps.kernel_search))) 0%nat None "/g" 40)
  = inl 2%nat /\
  Linkat B X 3 6 AT_FDCWD 18 AT_EMPTY_PATH TestOps.kernel_fds
  = (Some ENOENT, TestOps.kernel_fds).
Proof.
  intros B X.
  pose proof (Linkat_empty_path B X 3 6 AT_FDCWD 18 AT_EMPTY_PATH "/g"
                TestOps.kernel_search eq_refl eq_refl eq_refl eq_refl
                ltac:(exists "/g"%string; repeat split; discriminate)) as H1.
  pose proof (Linkat_empty_path B X 3 6 AT_FDCWD 18 AT_EMPTY_PATH "/g"
                TestOps.kernel_fds eq_refl eq_refl eq_refl eq_refl
                ltac:(exists "/g"%string; repeat split; discriminate)) as H2.
  cbv zeta in H1, H2. decide_if H1. decide_if H2.
  destruct H1 as [_ H1]. decide_match H1. decide_if H1.
  match type of H1 with
  | forall root np name rem post s2, ?res = _ -> _ =>
      let v := eval vm_compute in res in
      match v with
      | (inl (?root, ?np, ?name, ?rem, ?post), ?s2) =>
          specialize (H1 root np name rem post s2
                        ltac:(vm_compute; reflexivity) eq_refl eq_refl)
      end
  end.
  destruct H1 as [Ha Hb].
  split; [rewrite Ha; reflexivity|].
  split; [rewrite Hb; reflexivity|exact H2].
Defined.

Lemma MemfdCreate_references_witness :
  let B := TestOps.backend in
  let X := TestOps.ops in
  let s := TestOps.kernel in
  (* memfd_create("f", MFD_CLOEXEC) *)
  fst (MemfdCreate B X 8 MFD_CLOEXEC s) = (0, None) /\
  (forall x, k_drefs (snd (MemfdCreate B X 8 MFD_CLOEXEC s)) x = k_drefs s x).
Proof.
  intros B X s.
  pose proof (MemfdCreate_references B X 8 MFD_CLOEXEC "f" s eq_refl eq_refl)
    as H.
  cbv zeta in H. decide_if H. decide_match H.
  destruct H as [H _].
  split; [vm_compute; reflexivity|exact H].
Defined.

(** ** The root handed to the closure of fileOpOn *)

